(** * Sale-code issuance and redemption

    A shallow embedding of the API routes that create, look up and confirm
    sales by public code:

    - [scan_create_POST]      src/app/api/scan/create/route.ts, POST
    - [scan_lookup_GET]       src/app/api/scan/create/route.ts, GET (second part)
    - [scan_confirm_POST]     src/app/api/scan/confirm/route.ts, POST
    - [pos_confirm_scan_POST] src/app/api/pos/confirm-scan/route.ts, first POST
    - [pos_create_POST]       src/app/api/pos/confirm-scan/route.ts, second POST
    - [scanTotal]             src/app/pos/page.tsx

    JavaScript numbers are IEEE-754 binary64 values, modelled by the Standard
    Library's executable specification [spec_float] at precision 53.  The
    hosted database is modelled as in-memory tables; every storage call may be
    rejected by the storage layer with an error message, which the model takes
    from a script of outcomes carried by the world. *)

From Stdlib Require Import ZArith Lia Bool List String Ascii.
From Stdlib Require Import Floats.SpecFloat.
From stdpp Require Import base strings gmap.

Local Open Scope string_scope.
Local Open Scope Z_scope.

(* ===================================================================== *)
(** ** JavaScript primitives used by the routes *)
(* ===================================================================== *)

Module JS.

(** *** Strings *)

(** White space removed by [String.prototype.trim], restricted to the
    one-byte code points TAB, LF, VT, FF, CR and SPACE. *)
Definition is_space (c : ascii) : bool :=
  let n := nat_of_ascii c in
  Nat.eqb n 32 || (Nat.leb 9 n && Nat.leb n 13).

Fixpoint trimStart (s : string) : string :=
  match s with
  | String c s' => if is_space c then trimStart s' else s
  | EmptyString => EmptyString
  end.

Definition trimEnd (s : string) : string :=
  String.rev (trimStart (String.rev s)).

Definition trim (s : string) : string := trimEnd (trimStart s).

Definition upper_char (c : ascii) : ascii :=
  let n := nat_of_ascii c in
  if Nat.leb 97 n && Nat.leb n 122 then ascii_of_nat (n - 32) else c.

Definition lower_char (c : ascii) : ascii :=
  let n := nat_of_ascii c in
  if Nat.leb 65 n && Nat.leb n 90 then ascii_of_nat (n + 32) else c.

Fixpoint map_chars (f : ascii -> ascii) (s : string) : string :=
  match s with
  | String c s' => String (f c) (map_chars f s')
  | EmptyString => EmptyString
  end.

Definition toUpperCase : string -> string := map_chars upper_char.
Definition toLowerCase : string -> string := map_chars lower_char.

(** [s.includes(sub)] *)
Definition includes (s sub : string) : bool :=
  match String.index 0 sub s with
  | Some _ => true
  | None => false
  end.

(** Truthiness of a string: only the empty string is falsy. *)
Definition nonempty (s : string) : bool :=
  match s with
  | EmptyString => false
  | String _ _ => true
  end.

(** [String(v || d)] for a property [v] that is a string or absent. *)
Definition str_or (v : option string) (d : string) : string :=
  match v with
  | Some s => if nonempty s then s else d
  | None => d
  end.

(** *** Numbers *)

Definition prec : Z := 53.
Definition emax : Z := 1024.

Abbreviation number := spec_float.

Definition zero : number := S754_zero false.

(** The number denoted by an integer literal. *)
Definition of_Z (z : Z) : number := binary_normalize prec emax z 0 false.

Definition mul : number -> number -> number := SFmul prec emax.
Definition add : number -> number -> number := SFadd prec emax.

(** [x > y] *)
Definition gt (x y : number) : bool := SFltb y x.

(** [Number.isFinite(x)] *)
Definition isFinite (x : number) : bool :=
  match x with
  | S754_zero _ | S754_finite _ _ _ => true
  | S754_infinity _ | S754_nan => false
  end.

(** Truthiness of a number: [0], [-0] and [NaN] are falsy. *)
Definition truthy (x : number) : bool :=
  match x with
  | S754_zero _ | S754_nan => false
  | S754_infinity _ | S754_finite _ _ _ => true
  end.

(** [Number(x || 0)] for a number [x]. *)
Definition num_or_zero (x : number) : number :=
  if truthy x then x else zero.

(** [Math.floor(x)].  A finite value with a negative exponent is cut to
    its integer part (rounding towards minus infinity); everything else is
    already integral, infinite or NaN and is returned as it is. *)
Definition Math_floor (x : number) : number :=
  match x with
  | S754_finite s m e =>
      if 0 <=? e then x
      else binary_normalize prec emax (Z.shiftl (cond_Zopp s (Zpos m)) e) 0 s
  | _ => x
  end.

(** Decimal digits of a non-negative integer, most significant first. *)
Definition digit_char (d : Z) : ascii := ascii_of_nat (48 + Z.to_nat d).

Fixpoint decimal_go (fuel : nat) (n : Z) (acc : string) : string :=
  match fuel with
  | O => acc
  | S fuel' =>
      let acc' := String (digit_char (n mod 10)) acc in
      if n <? 10 then acc' else decimal_go fuel' (n / 10) acc'
  end.

Definition decimal (n : Z) : string :=
  decimal_go (S (Z.to_nat (Z.log2 n))) n EmptyString.

(** [String(x)] for the values [Math.floor] produces: NaN, the infinities
    and integers.  An integer is printed in decimal with a leading minus
    sign when negative; JavaScript switches to exponent notation from
    [1e21] on, which is not reproduced here. *)
Definition String_integral (x : number) : string :=
  match x with
  | S754_nan => "NaN"
  | S754_infinity false => "Infinity"
  | S754_infinity true => "-Infinity"
  | S754_zero _ => "0"
  | S754_finite s m e =>
      let n := Z.shiftl (Zpos m) e in
      if s then String "-" (decimal n) else decimal n
  end.

End JS.

Import JS.

(** [genCode()], with the value returned by [Math.random()] made explicit:
    [String(Math.floor(100000 + Math.random() * 900000))]. *)
Definition genCode (random : number) : string :=
  String_integral (Math_floor (add (of_Z 100000) (mul random (of_Z 900000)))).


(* ===================================================================== *)
(** ** Data model: the tables the routes read and write *)
(* ===================================================================== *)

(** A row of [sales].  The enum columns are kept as the strings the routes
    compare and write. *)
Record Sale := {
  id : Z;
  public_code : string;
  source : string;
  status : string;
  payment_method : string;
  payment_status : string;
  momo_reference : option string;
  staff_id : option string;
  note : string;
  created_at : Z
}.

(** A row of [sale_items]. *)
Record SaleItem := {
  sale_id : Z;
  product_id : string;
  qty : number;
  unit_price_at_time : number;
  line_total : number
}.

(** A row of [products]; [price] may be NULL. *)
Record Product := {
  prod_id : string;
  prod_name : string;
  prod_sku : option string;
  price : option number
}.

(** A row of [shop_settings]; [enable_customer_scan] may be NULL. *)
Record ShopSettings := {
  settings_id : Z;
  enable_customer_scan : option bool
}.

(** The database.  [next_id] and [now] stand for the column defaults the
    storage layer fills in on insert (primary key and [created_at]). *)
Record Store := {
  sales : list Sale;
  sale_items : list SaleItem;
  products : list Product;
  shop_settings : list ShopSettings;
  next_id : Z;
  now : Z
}.

(** The columns an insert into [sales] provides. *)
Record SaleInsert := {
  ins_source : string;
  ins_status : string;
  ins_staff_id : option string;
  ins_payment_method : string;
  ins_payment_status : string;
  ins_momo_reference : option string;
  ins_public_code : string;
  ins_note : string
}.

(** The columns an update of [sales] sets during confirmation. *)
Record SaleUpdate := {
  upd_status : string;
  upd_payment_status : string;
  upd_staff_id : string
}.

(** [type SaleItemInput = { product_id: string; qty: number }] *)
Module SaleItemInput.
Record t := { product_id : string; qty : number }.
End SaleItemInput.

(** The JSON body of a create request, read at the types the route
    expects: a property is a string (or a list of items) or absent. *)
Record CreateBody := {
  body_payment_method : option string;
  body_momo_reference : option string;
  body_items : option (list SaleItemInput.t)
}.

(** What a storage call hands back: [{ data, error }]. *)
Inductive dbres (A : Type) : Type :=
| Data (data : A)
| DbError (message : string).
Arguments Data {A} data.
Arguments DbError {A} message.

(** The storage calls the routes make, as recorded in the trace. *)
Inductive Call :=
| SelectSettings
| SelectProducts (ids : list string)
| InsertSale (code : string)
| InsertItems (rows : list SaleItem)
| SelectSale (code : string)
| SelectSaleWithItems (code : string)
| UpdateSaleById (sid : Z)
| UpdateSaleByCode (code : string).

Definition is_write (c : Call) : bool :=
  match c with
  | InsertSale _ | InsertItems _ | UpdateSaleById _ | UpdateSaleByCode _ => true
  | SelectSettings | SelectProducts _ | SelectSale _ | SelectSaleWithItems _ => false
  end.

(** The world a request runs in: the database, the outcomes the storage
    layer will give to the coming calls ([Some msg]: the call is rejected
    with [msg]; [None], or an exhausted script: the call goes through), the
    values [Math.random()] returns, and the trace of storage calls made. *)
Record World := {
  db : Store;
  faults : list (option string);
  random : nat -> number;
  draws : nat;
  trace : list Call
}.

(* ===================================================================== *)
(** ** Effects: state and exceptions *)
(* ===================================================================== *)

Inductive result (A : Type) : Type :=
| Ok (a : A)
| Thrown (message : string).
Arguments Ok {A} a.
Arguments Thrown {A} message.

Definition M (A : Type) : Type := World -> result A * World.

Definition ret {A} (a : A) : M A := fun w => (Ok a, w).

Definition throw {A} (message : string) : M A := fun w => (Thrown message, w).

Definition bind {A B} (m : M A) (k : A -> M B) : M B :=
  fun w =>
    match m w with
    | (Ok a, w') => k a w'
    | (Thrown e, w') => (Thrown e, w')
    end.

Notation "'let!' x ':=' m 'in' k" := (bind m (fun x => k))
  (at level 10, x name, m at level 100, k at level 200).

(** [try { body } catch (e) { handler(e) }] *)
Definition try_catch {A} (body : M A) (handler : string -> M A) : M A :=
  fun w =>
    match body w with
    | (Ok a, w') => (Ok a, w')
    | (Thrown e, w') => handler e w'
    end.

(** [Math.random()] *)
Definition Math_random : M number :=
  fun w =>
    (Ok (random w (draws w)),
     {| db := db w; faults := faults w; random := random w;
        draws := S (draws w); trace := trace w |}).

(** A storage call: it is recorded, takes the next scripted outcome, and
    runs against the database unless the storage layer rejects it. *)
Definition storage {A} (c : Call) (run : Store -> dbres A * Store) : M (dbres A) :=
  fun w =>
    match hd None (faults w) with
    | Some msg =>
        (Ok (DbError msg),
         {| db := db w; faults := tl (faults w); random := random w;
            draws := draws w; trace := trace w ++ [c] |})
    | None =>
        let '(r, d) := run (db w) in
        (Ok r,
         {| db := d; faults := tl (faults w); random := random w;
            draws := draws w; trace := trace w ++ [c] |})
    end.

(* ===================================================================== *)
(** ** The storage layer *)
(* ===================================================================== *)

(** The message of the error reported when [.maybeSingle()] meets more
    than one row. *)
Definition multiple_rows_message : string :=
  "JSON object requested, multiple (or no) rows returned".

(** [.maybeSingle()]: no row is [null], one row is that row, more is an
    error. *)
Definition maybeSingle {A} (rows : list A) : dbres (option A) :=
  match rows with
  | [] => Data None
  | [r] => Data (Some r)
  | _ :: _ :: _ => DbError multiple_rows_message
  end.

Definition read {A} (f : Store -> dbres A) : Store -> dbres A * Store :=
  fun d => (f d, d).

(** The rows [.eq("id", 1)] selects from [shop_settings]. *)
Definition settings_rows (d : Store) : list ShopSettings :=
  List.filter (fun r => settings_id r =? 1) (shop_settings d).

(** The rows [.eq("public_code", code)] selects from [sales]. *)
Definition sales_with_code (d : Store) (code : string) : list Sale :=
  List.filter (fun s => String.eqb (public_code s) code) (sales d).

(** The rows [.in("id", ids)] selects from [products]. *)
Definition products_in (d : Store) (ids : list string) : list Product :=
  List.filter (fun p => bool_decide (prod_id p ∈ ids)) (products d).

(** [from("shop_settings").select("enable_customer_scan").eq("id", 1).maybeSingle()] *)
Definition select_settings : M (dbres (option ShopSettings)) :=
  storage SelectSettings (read (fun d => maybeSingle (settings_rows d))).

(** [from("products").select("id, price").in("id", ids)] *)
Definition select_products (ids : list string) : M (dbres (list Product)) :=
  storage (SelectProducts ids)
    (read (fun d => Data (products_in d ids))).

Definition new_sale (d : Store) (r : SaleInsert) : Sale :=
  {| id := next_id d;
     public_code := ins_public_code r;
     source := ins_source r;
     status := ins_status r;
     payment_method := ins_payment_method r;
     payment_status := ins_payment_status r;
     momo_reference := ins_momo_reference r;
     staff_id := ins_staff_id r;
     note := ins_note r;
     created_at := now d |}.

(** [from("sales").insert(r).select("id, public_code").single()] *)
Definition insert_sale (r : SaleInsert) : M (dbres Sale) :=
  storage (InsertSale (ins_public_code r))
    (fun d =>
       let s := new_sale d r in
       (Data s,
        {| sales := sales d ++ [s]; sale_items := sale_items d;
           products := products d; shop_settings := shop_settings d;
           next_id := next_id d + 1; now := now d |})).

(** [from("sale_items").insert(payload)] *)
Definition insert_items (payload : list SaleItem) : M (dbres unit) :=
  storage (InsertItems payload)
    (fun d =>
       (Data tt,
        {| sales := sales d; sale_items := sale_items d ++ payload;
           products := products d; shop_settings := shop_settings d;
           next_id := next_id d; now := now d |})).

(** [from("sales").select("id, status, payment_status, source").eq("public_code", code).maybeSingle()] *)
Definition select_sale (code : string) : M (dbres (option Sale)) :=
  storage (SelectSale code)
    (read (fun d => maybeSingle (sales_with_code d code))).

(** The embedded [sale_items ( ..., products:product_id ( id, name, sku ) )]. *)
Definition items_of (d : Store) (s : Sale) : list (SaleItem * option Product) :=
  map (fun it => (it, List.find (fun p => String.eqb (prod_id p) (product_id it)) (products d)))
      (List.filter (fun it => sale_id it =? id s) (sale_items d)).

(** The lookup query: the sale with its items, by public code. *)
Definition select_sale_with_items (code : string)
  : M (dbres (option (Sale * list (SaleItem * option Product)))) :=
  storage (SelectSaleWithItems code)
    (read (fun d =>
       match maybeSingle (sales_with_code d code) with
       | Data (Some s) => Data (Some (s, items_of d s))
       | Data None => Data None
       | DbError m => DbError m
       end)).

Definition apply_update (u : SaleUpdate) (s : Sale) : Sale :=
  {| id := id s;
     public_code := public_code s;
     source := source s;
     status := upd_status u;
     payment_method := payment_method s;
     payment_status := upd_payment_status u;
     momo_reference := momo_reference s;
     staff_id := Some (upd_staff_id u);
     note := note s;
     created_at := created_at s |}.

Definition with_sales (d : Store) (l : list Sale) : Store :=
  {| sales := l; sale_items := sale_items d; products := products d;
     shop_settings := shop_settings d; next_id := next_id d; now := now d |}.

(** [from("sales").update(u).eq("id", sid)] *)
Definition update_sale_by_id (sid : Z) (u : SaleUpdate) : M (dbres unit) :=
  storage (UpdateSaleById sid)
    (fun d =>
       (Data tt,
        with_sales d (map (fun s => if id s =? sid then apply_update u s else s) (sales d)))).

(** [from("sales").update(u).eq("public_code", code).select("id, public_code").maybeSingle()]:
    the rows with that code are updated and handed back; more than one row
    is an error of the whole statement, which then changes nothing. *)
Definition update_sale_by_code (code : string) (u : SaleUpdate) : M (dbres (option Sale)) :=
  storage (UpdateSaleByCode code)
    (fun d =>
       match maybeSingle (sales_with_code d code) with
       | Data (Some s) =>
           (Data (Some (apply_update u s)),
            with_sales d
              (map (fun s => if String.eqb (public_code s) code then apply_update u s else s)
                   (sales d)))
       | Data None => (Data None, d)
       | DbError m => (DbError m, d)
       end).

(* ===================================================================== *)
(** ** Responses *)
(* ===================================================================== *)

(** The JSON bodies the routes answer with. *)
Inductive Body :=
| ErrorBody (error : string)
| OkBody
| CodeBody (code : string)
| ConfirmedBody (sid : Z) (code : string)
| LookupBody (code : string) (payment_status status : string) (paid : bool)
    (sale : Sale) (items : list (SaleItem * option Product)).

Record Response := { http_status : Z; body : Body }.

(** [NextResponse.json(body, { status })]; the status is 200 when left out. *)
Definition json (b : Body) (st : Z) : Response :=
  {| http_status := st; body := b |}.

Definition error_json (error : string) (st : Z) : Response :=
  json (ErrorBody error) st.

(** The failures of the specification, as the responses that report them. *)
Definition INVALID_ITEMS : Response := error_json "Invalid items." 400.
Definition SCAN_DISABLED : Response := error_json "Scan checkout is turned off." 403.
Definition MISSING_PRODUCT (pid : string) : Response :=
  error_json ("Missing price for product " +:+ pid) 500.
Definition RETRY_EXHAUSTED (lastErr : option string) : Response :=
  error_json (str_or lastErr "Failed after retries.") 400.
Definition ITEMS_INSERT_FAILED (message : string) : Response :=
  error_json ("sale_items insert failed: " +:+ message) 400.
Definition CODE_NOT_FOUND : Response := error_json "Code not found." 404.
Definition INVALID_CODE : Response := error_json "Invalid code." 400.
Definition ALREADY_CONFIRMED : Response :=
  error_json "This code has already been used." 409.
Definition NOT_SCAN_SOURCE : Response := error_json "Not a scan checkout code." 400.
Definition NOT_SCAN_CHECKOUT : Response :=
  error_json "This code is not a scan checkout." 400.
Definition UNAUTHORIZED : Response := error_json "Unauthorized" 401.

(* ===================================================================== *)
(** ** Sale creation *)
(* ===================================================================== *)

Definition SALE_STATUS_PENDING : string := "PENDING".
Definition PAYMENT_STATUS_PENDING : string := "PENDING".
Definition SALE_STATUS_PAID : string := "PAID".
Definition PAYMENT_STATUS_CONFIRMED : string := "CONFIRMED".

(** [String(body.payment_method || "CASH").toUpperCase()] *)
Definition parse_payment_method (b : CreateBody) : string :=
  toUpperCase (str_or (body_payment_method b) "CASH").

(** [payment_method === "MOMO" && String(body.momo_reference || "").trim()
      ? String(body.momo_reference).trim() : null] *)
Definition parse_momo_reference (b : CreateBody) : option string :=
  if String.eqb (parse_payment_method b) "MOMO"
     && nonempty (trim (str_or (body_momo_reference b) ""))
  then Some (trim (str_or (body_momo_reference b) ""))
  else None.

Definition normalize_item (it : SaleItemInput.t) : SaleItemInput.t :=
  {| SaleItemInput.product_id := trim (str_or (Some (SaleItemInput.product_id it)) "");
     SaleItemInput.qty := num_or_zero (SaleItemInput.qty it) |}.

(** [x.product_id && Number.isFinite(x.qty) && x.qty > 0] *)
Definition valid_item (x : SaleItemInput.t) : bool :=
  nonempty (SaleItemInput.product_id x)
  && isFinite (SaleItemInput.qty x)
  && gt (SaleItemInput.qty x) zero.

(** [Array.isArray(body.items) ? body.items : []] *)
Definition itemsRaw (b : CreateBody) : list SaleItemInput.t :=
  match body_items b with
  | Some l => l
  | None => []
  end.

(** [itemsRaw.map(...).filter(...)] *)
Definition parse_items (b : CreateBody) : list SaleItemInput.t :=
  List.filter valid_item (map normalize_item (itemsRaw b)).

(** [Array.from(new Set(l))]: the first occurrence of each value, in order. *)
Definition distinct (l : list string) : list string :=
  fold_left (fun (acc : list string) x => if bool_decide (x ∈ acc) then acc else (acc ++ [x])%list) l [].

(** [Number(r.price || 0)] *)
Definition price_number (r : Product) : number :=
  match price r with
  | Some p => num_or_zero p
  | None => zero
  end.

(** [for (const r of priceRows ?? []) priceMap.set(r.id, Number(r.price || 0))] *)
Definition build_priceMap (priceRows : list Product) : gmap string number :=
  fold_left (fun m r => <[prod_id r := price_number r]> m) priceRows ∅.

(** The [sale_items] payload: [items.map(...)], which throws at the first
    item whose product has no entry in [priceMap]. *)
Fixpoint build_payload (sid : Z) (priceMap : gmap string number)
    (items : list SaleItemInput.t) : result (list SaleItem) :=
  match items with
  | [] => Ok []
  | it :: rest =>
      match priceMap !! SaleItemInput.product_id it with
      | None => Thrown ("Missing price for product " +:+ SaleItemInput.product_id it)
      | Some unit =>
          match build_payload sid priceMap rest with
          | Ok rows =>
              Ok ({| sale_id := sid;
                     product_id := SaleItemInput.product_id it;
                     qty := SaleItemInput.qty it;
                     unit_price_at_time := unit;
                     line_total := mul unit (SaleItemInput.qty it) |} :: rows)
          | Thrown e => Thrown e
          end
      end
  end.

(** [msg.includes("duplicate") || msg.includes("unique") || msg.includes("public_code")]
    on the lower-cased message. *)
Definition isDup (message : string) : bool :=
  let msg := toLowerCase message in
  includes msg "duplicate" || includes msg "unique" || includes msg "public_code".

Definition MAX_ATTEMPTS : nat := 6.

(** The retry loop [for (let attempt = 0; attempt < 6; attempt++) { ... }]
    followed by the response after the loop.  [remaining] counts the
    iterations still to run; [row] is the insert of the route, given the
    code.  Both create routes run this loop, on their own [row]. *)
Fixpoint create_attempts (row : string -> SaleInsert)
    (items : list SaleItemInput.t) (priceMap : gmap string number)
    (remaining : nat) (lastErr : option string) : M Response :=
  match remaining with
  | O => ret (RETRY_EXHAUSTED lastErr)
  | S remaining' =>
      let! r := Math_random in
      let code := genCode r in
      let! inserted := insert_sale (row code) in
      match inserted with
      | DbError message =>
          if isDup message
          then create_attempts row items priceMap remaining' (Some message)
          else ret (error_json message 400)
      | Data sale =>
          match build_payload (id sale) priceMap items with
          | Thrown e => throw e
          | Ok payload =>
              let! written := insert_items payload in
              match written with
              | DbError message => ret (ITEMS_INSERT_FAILED message)
              | Data _ => ret (json (CodeBody (public_code sale)) 200)
              end
          end
      end
  end.

(** [!settings?.enable_customer_scan] *)
Definition scan_disabled (settings : option ShopSettings) : bool :=
  match settings with
  | Some {| enable_customer_scan := Some true |} => false
  | _ => true
  end.

Definition scan_row (payment_method : string) (momo : option string)
    (code : string) : SaleInsert :=
  {| ins_source := "CUSTOMER_SCAN";
     ins_status := SALE_STATUS_PENDING;
     ins_staff_id := None;
     ins_payment_method := payment_method;
     ins_payment_status := PAYMENT_STATUS_PENDING;
     ins_momo_reference := momo;
     ins_public_code := code;
     ins_note := "Customer scan" |}.

(** POST /api/scan/create *)
Definition scan_create_POST (b : CreateBody) : M Response :=
  try_catch
    (let payment_method := parse_payment_method b in
     let momo_reference := parse_momo_reference b in
     let items := parse_items b in
     if Nat.eqb (length items) 0 then ret INVALID_ITEMS
     else
       let! settings := select_settings in
       match settings with
       | DbError message => ret (error_json message 400)
       | Data settings =>
           if scan_disabled settings then ret SCAN_DISABLED
           else
             let ids := distinct (map SaleItemInput.product_id items) in
             let! prices := select_products ids in
             match prices with
             | DbError message =>
                 ret (error_json ("price lookup failed: " +:+ message) 400)
             | Data priceRows =>
                 create_attempts (scan_row payment_method momo_reference)
                   items (build_priceMap priceRows) MAX_ATTEMPTS None
             end
       end)
    (fun e => ret (error_json (str_or (Some e) "Internal server error.") 500)).

Definition manual_row (uid payment_method : string) (momo : option string)
    (code : string) : SaleInsert :=
  {| ins_source := "STAFF_MANUAL";
     ins_status := SALE_STATUS_PAID;
     ins_staff_id := Some uid;
     ins_payment_method := payment_method;
     ins_payment_status := PAYMENT_STATUS_CONFIRMED;
     ins_momo_reference := momo;
     ins_public_code := code;
     ins_note := "Manual POS" |}.

(** POST /api/pos/create.  [auth] is the id of the signed-in user, if any. *)
Definition pos_create_POST (auth : option string) (b : CreateBody) : M Response :=
  try_catch
    (let uid := str_or auth "" in
     if negb (nonempty uid) then ret UNAUTHORIZED
     else
       let payment_method := parse_payment_method b in
       let momo_reference := parse_momo_reference b in
       let items := parse_items b in
       if Nat.eqb (length items) 0 then ret INVALID_ITEMS
       else
         let ids := distinct (map SaleItemInput.product_id items) in
         let! prices := select_products ids in
         match prices with
         | DbError message => ret (error_json message 400)
         | Data priceRows =>
             create_attempts (manual_row uid payment_method momo_reference)
               items (build_priceMap priceRows) MAX_ATTEMPTS None
         end)
    (fun e => ret (error_json (str_or (Some e) "Server error.") 500)).

(* ===================================================================== *)
(** ** Lookup and confirmation *)
(* ===================================================================== *)

(** GET /api/scan/lookup?code=... *)
Definition scan_lookup_GET (param : option string) : M Response :=
  try_catch
    (let code := trim (str_or param "") in
     if negb (nonempty code) || Nat.ltb (String.length code) 4 then ret INVALID_CODE
     else
       let! found := select_sale_with_items code in
       match found with
       | DbError message => ret (error_json message 400)
       | Data None => ret CODE_NOT_FOUND
       | Data (Some (sale, items)) =>
           if negb (String.eqb (source sale) "CUSTOMER_SCAN") then ret NOT_SCAN_CHECKOUT
           else
             let ps := toUpperCase (payment_status sale) in
             let st := toUpperCase (status sale) in
             ret (json (LookupBody (public_code sale) (payment_status sale) (status sale)
                          (String.eqb ps "CONFIRMED" || String.eqb st "PAID")
                          sale items) 200)
       end)
    (fun e => ret (error_json (str_or (Some e) "Server error.") 500)).

(** POST /api/scan/confirm.  [auth] is the id of the signed-in user, if
    any; [code] is [body.code]. *)
Definition scan_confirm_POST (auth : option string) (code : option string) : M Response :=
  try_catch
    (let uid := str_or auth "" in
     if negb (nonempty uid) then ret UNAUTHORIZED
     else
       let code := trim (str_or code "") in
       if negb (nonempty code) then ret (error_json "Missing code." 400)
       else
         let! found := select_sale code in
         match found with
         | DbError message => ret (error_json message 400)
         | Data None => ret CODE_NOT_FOUND
         | Data (Some sale) =>
             if negb (String.eqb (source sale) "CUSTOMER_SCAN") then ret NOT_SCAN_SOURCE
             else if String.eqb (toUpperCase (status sale)) "PAID"
                     || String.eqb (toUpperCase (payment_status sale)) "CONFIRMED"
             then ret ALREADY_CONFIRMED
             else
               let! updated :=
                 update_sale_by_id (id sale)
                   {| upd_status := SALE_STATUS_PAID;
                      upd_payment_status := PAYMENT_STATUS_CONFIRMED;
                      upd_staff_id := uid |} in
               match updated with
               | DbError message => ret (error_json message 400)
               | Data _ => ret (json OkBody 200)
               end
         end)
    (fun e => ret (error_json (str_or (Some e) "Server error.") 500)).

(** POST /api/pos/confirm-scan.  [auth] is the id of the signed-in user,
    if any.  The route has no try/catch. *)
Definition pos_confirm_scan_POST (auth : option string) (code : option string) : M Response :=
  match auth with
  | None => ret UNAUTHORIZED
  | Some uid =>
      let code := trim (str_or code "") in
      if negb (nonempty code) then ret (error_json "Code required." 400)
      else
        let! updated :=
          update_sale_by_code code
            {| upd_status := "PAID";
               upd_payment_status := "confirmed";
               upd_staff_id := uid |} in
        match updated with
        | DbError message => ret (error_json message 400)
        | Data None => ret (error_json "Invalid code." 404)
        | Data (Some sale) => ret (json (ConfirmedBody (id sale) (public_code sale)) 200)
        end
  end.

(** The total the POS screen shows for a looked-up sale:
    [(scanSale.sale_items || []).reduce((s, it) => s + Number(it.line_total || 0), 0)] *)
Definition scanTotal (items : list SaleItem) : number :=
  fold_left (fun s it => add s (num_or_zero (line_total it))) items zero.

(** Running a route: the response and the world it leaves. *)
Definition response {A} (r : result A * World) : result A := fst r.
Definition world_after {A} (r : result A * World) : World := snd r.

(* ===================================================================== *)
(** ** Vocabulary of the statements and proofs *)
(* ===================================================================== *)

(** A relation every step of a computation stays in. *)
Definition respects (R : World -> World -> Prop) {A} (m : M A) : Prop :=
  forall w, R w (snd (m w)).

(** A computation that does not look at what [f] changes. *)
Definition commutes (f : World -> World) {A} (m : M A) : Prop :=
  forall w, m (f w) = (fst (m w), f (snd (m w))).

(** Replacing the [shop_settings] table. *)
Definition set_settings (l : list ShopSettings) (w : World) : World :=
  {| db := {| sales := sales (db w); sale_items := sale_items (db w);
              products := products (db w); shop_settings := l;
              next_id := next_id (db w); now := now (db w) |};
     faults := faults w; random := random w; draws := draws w;
     trace := trace w |}.

Definition calls (P : Call -> Prop) (w w' : World) : Prop :=
  exists t, trace w' = (trace w ++ t)%list /\ Forall P t.

Definition same_db (w w' : World) : Prop := db w' = db w.

Definition same_items (w w' : World) : Prop :=
  sale_items (db w') = sale_items (db w).

Definition with_items (b : CreateBody) (l : list SaleItemInput.t) : CreateBody :=
  {| body_payment_method := body_payment_method b;
     body_momo_reference := body_momo_reference b;
     body_items := Some l |}.

Definition not_settings (c : Call) : Prop := c <> SelectSettings.

Definition reads_only (c : Call) : Prop := is_write c = false.

(** The update of the confirm route. *)
Definition confirmation (uid : string) : SaleUpdate :=
  {| upd_status := SALE_STATUS_PAID;
     upd_payment_status := PAYMENT_STATUS_CONFIRMED;
     upd_staff_id := uid |}.

Definition already_confirmed (s : Sale) : bool :=
  String.eqb (toUpperCase (status s)) "PAID"
  || String.eqb (toUpperCase (payment_status s)) "CONFIRMED".

Definition is_success (r : result Response) : Prop :=
  exists b, r = Ok (json b 200).

(** The world after a storage call that left the database alone. *)
Definition called (c : Call) (w : World) : World :=
  {| db := db w; faults := tl (faults w); random := random w;
     draws := draws w; trace := trace w ++ [c] |}.

(** The codes of [n] successive attempts, from draw number [from] on. *)
Fixpoint attempt_codes (rnd : nat -> number) (from n : nat) : list string :=
  match n with
  | O => []
  | S n' => genCode (rnd from) :: attempt_codes rnd (S from) n'
  end.

(** The world after [k] rejected attempts. *)
Definition collided (k : nat) (rest : list (option string)) (w : World) : World :=
  {| db := db w; faults := rest; random := random w;
     draws := draws w + k;
     trace := trace w ++ map InsertSale (attempt_codes (random w) (draws w) k) |}.

(** Both routes put the generated code into [public_code]. *)
Definition carries_code (row : string -> SaleInsert) : Prop :=
  forall c, ins_public_code (row c) = c.

Definition ids_of (b : CreateBody) : list string :=
  distinct (map SaleItemInput.product_id (parse_items b)).

Definition priceMap_of (b : CreateBody) (d : Store) : gmap string number :=
  build_priceMap (products_in d (ids_of b)).

Definition scan_catch (e : string) : M Response :=
  ret (error_json (str_or (Some e) "Internal server error.") 500).

Definition pos_catch (e : string) : M Response :=
  ret (error_json (str_or (Some e) "Server error.") 500).

Definition scan_loop (b : CreateBody) (d : Store) : M Response :=
  create_attempts (scan_row (parse_payment_method b) (parse_momo_reference b))
    (parse_items b) (priceMap_of b d) MAX_ATTEMPTS None.

Definition pos_loop (uid : string) (b : CreateBody) (d : Store) : M Response :=
  create_attempts (manual_row uid (parse_payment_method b) (parse_momo_reference b))
    (parse_items b) (priceMap_of b d) MAX_ATTEMPTS None.

(** What [k] attempts after the reads [before] leave behind: the database
    untouched, [k] random draws, [k] inserts tried. *)
Definition retried (k : nat) (before : list Call) (w w' : World) : Prop :=
  db w' = db w
  /\ draws w' = (draws w + k)%nat
  /\ trace w' =
       (trace w ++ before
        ++ map InsertSale (attempt_codes (random w) (draws w) k))%list.

Definition pid := SaleItemInput.product_id.

(** The first item, if any, whose product has no entry in the price map. *)
Definition first_missing (pm : gmap string number) (items : list SaleItemInput.t)
  : option SaleItemInput.t :=
  List.find (fun it => match pm !! pid it with None => true | Some _ => false end) items.

(** [it] is the first item of [items] whose product has no row in
    [products]: every item before it has one. *)
Definition first_without_row (d : Store) (items : list SaleItemInput.t)
    (it : SaleItemInput.t) : Prop :=
  exists before after,
    items = (before ++ it :: after)%list
    /\ (forall x, In x before -> exists p, In p (products d) /\ prod_id p = pid x)
    /\ (forall p, In p (products d) -> prod_id p <> pid it).

(** The row [build_payload] writes for an item at a unit price. *)
Definition item_row (sid : Z) (it : SaleItemInput.t) (unit : number) : SaleItem :=
  {| sale_id := sid; product_id := pid it; qty := SaleItemInput.qty it;
     unit_price_at_time := unit; line_total := mul unit (SaleItemInput.qty it) |}.

(** The world after the insert of an attempt went through. *)
Definition inserted (row : string -> SaleInsert) (w : World) : World :=
  let s := new_sale (db w) (row (genCode (random w (draws w)))) in
  {| db := {| sales := sales (db w) ++ [s]; sale_items := sale_items (db w);
              products := products (db w); shop_settings := shop_settings (db w);
              next_id := next_id (db w) + 1; now := now (db w) |};
     faults := tl (faults w); random := random w; draws := S (draws w);
     trace := trace w ++ [InsertSale (genCode (random w (draws w)))] |}.

(** The exponent a mantissa is brought to. *)
Definition target (M e : Z) : Z := Z.max e (fexp prec emax (Zdigits2 M + e)).

(** What [binary_round_aux] returns for a mantissa [q] at exponent [e1]
    that needs no further rounding. *)
Definition pack (sx : bool) (q e1 : Z) : number :=
  match q / 2 ^ (target q e1 - e1) with
  | Z0 => S754_zero sx
  | Zpos m =>
      if target q e1 <=? emax - prec then S754_finite sx m (target q e1)
      else S754_infinity sx
  | Zneg _ => S754_nan
  end.

(** [x <= Y * 2 ^ F], for a non-negative [x] on a grid at least as fine as
    [2 ^ F]. *)
Definition below (x : number) (Y F : Z) : Prop :=
  match x with
  | S754_zero _ => True
  | S754_finite false m e => e <= F /\ Zpos m <= Y * 2 ^ (F - e)
  | _ => False
  end.

(** [Y * 2 ^ F <= x], for a positive [x] on a grid at least as fine as
    [2 ^ F]. *)
Definition above (x : number) (Y F : Z) : Prop :=
  match x with
  | S754_finite false m e => e <= F /\ Y * 2 ^ (F - e) <= Zpos m
  | _ => False
  end.

(** The numbers 900000, 100000 and 1. *)
Definition nine_hundred_thousand : number :=
  S754_finite false 7730941132800000 (-33).

Definition hundred_thousand : number :=
  S754_finite false 6871947673600000 (-36).

Definition one : number := S754_finite false 4503599627370496 (-52).

(** [Math.random()] returns a number in [0, 1). *)
Definition unit_interval (r : number) : Prop :=
  valid_binary prec emax r = true /\ SFleb zero r = true /\ SFltb r (of_Z 1) = true.

(** The integer a string of decimal digits denotes. *)
Fixpoint digits_value (s : string) (acc : Z) : option Z :=
  match s with
  | EmptyString => Some acc
  | String c s' =>
      let d := Z.of_nat (nat_of_ascii c) - 48 in
      if (0 <=? d) && (d <=? 9) then digits_value s' (10 * acc + d) else None
  end.

Definition decimal_value (s : string) : option Z :=
  match s with
  | EmptyString => None
  | String _ _ => digits_value s 0
  end.

(** Exponents the rounding produces: never below the smallest one. *)
Definition wf (x : number) : Prop :=
  match x with
  | S754_finite _ _ e => -1074 <= e
  | _ => True
  end.

(** The unit price the routes resolve from the [price] column of a product
    row: a price that is a number other than [0] and [NaN] is the unit
    price as it stands; a price that is NULL, [0], [-0] or [NaN] gives the
    unit price [0]. *)
Definition resolved_from (column : option number) (unit : number) : Prop :=
  match column with
  | Some x => unit = (if truthy x then x else zero)
  | None => unit = zero
  end.

(** What the create routes write into [sale_items]: the line total is the
    product of the unit price and the quantity, the unit price is resolved
    from the [price] column of a row of [products] for the item's product,
    and the quantity is finite and positive. *)
Definition written_ok (d : Store) (r : SaleItem) : Prop :=
  line_total r = mul (unit_price_at_time r) (qty r)
  /\ line_total r = mul (qty r) (unit_price_at_time r)
  /\ (exists p, In p (products d) /\ prod_id p = product_id r
                /\ resolved_from (price p) (unit_price_at_time r))
  /\ isFinite (qty r) = true
  /\ gt (qty r) zero = true.

Definition appended (P : SaleItem -> Prop) (w w' : World) : Prop :=
  exists new, sale_items (db w') = (sale_items (db w) ++ new)%list /\ Forall P new.

(** The rows a create route has written, with the line-total invariant,
    the total the POS screen shows for them, and, when the route answered
    with success, one row per item of the request. *)
Definition rows_written (b : CreateBody) (w : World) (r : result Response * World)
  : Prop :=
  exists new,
    sale_items (db (world_after r)) = (sale_items (db w) ++ new)%list
    /\ Forall (written_ok (db w)) new
    /\ scanTotal new = fold_left (fun s it => add s (line_total it)) new zero
    /\ (is_success (response r) ->
        map product_id new = map pid (parse_items b)
        /\ map qty new = map SaleItemInput.qty (parse_items b)
        /\ new <> []).

(* ===================================================================== *)
(** ** Vocabulary of the further properties *)
(* ===================================================================== *)

(** What one successful insert into [sales] does to the database, with the
    rows [new] that reached [sale_items]. *)
Definition sale_added (s : Sale) (new : list SaleItem) (d d' : Store) : Prop :=
  sales d' = (sales d ++ [s])%list
  /\ sale_items d' = (sale_items d ++ new)%list
  /\ products d' = products d
  /\ shop_settings d' = shop_settings d
  /\ next_id d' = next_id d + 1
  /\ now d' = now d.

(** How a run of the retry loop ends, as seen in the database and in the
    storage calls [t] that follow the attempted inserts of sales: nothing
    written, or the sale of the last attempt written, with no items (the
    payload could not be built), or with the insert of the payload tried. *)
Definition loop_outcome (row : string -> SaleInsert) (items : list SaleItemInput.t)
    (pm : gmap string number) (k : nat) (t : list Call) (w w' : World) : Prop :=
  (t = [] /\ db w' = db w)
  \/ (exists new,
        (1 <= k)%nat
        /\ sale_added (new_sale (db w) (row (genCode (random w (draws w + k - 1)%nat))))
             new (db w) (db w')
        /\ ((t = [] /\ new = []
             /\ exists e, build_payload (next_id (db w)) pm items = Thrown e)
            \/ (exists payload,
                  build_payload (next_id (db w)) pm items = Ok payload
                  /\ t = [InsertItems payload]
                  /\ (new = [] \/ new = payload)))).

(** A run of [k] attempts: [k] draws, [k] inserts of sales tried with the
    codes drawn, then the calls [t]. *)
Definition attempts_made (row : string -> SaleInsert) (items : list SaleItemInput.t)
    (pm : gmap string number) (k : nat) (t : list Call) (w w' : World) : Prop :=
  random w' = random w
  /\ draws w' = (draws w + k)%nat
  /\ trace w' =
       (trace w ++ map InsertSale (attempt_codes (random w) (draws w) k) ++ t)%list
  /\ loop_outcome row items pm k t w w'.
(** The world after [k] rejected attempts and one whose sale and items went
    through; [rest] is what is left of the script. *)
Definition committed (row : string -> SaleInsert) (payload : list SaleItem) (k : nat)
    (rest : list (option string)) (w : World) : World :=
  let code := genCode (random w (draws w + k)%nat) in
  {| db := {| sales := sales (db w) ++ [new_sale (db w) (row code)];
              sale_items := sale_items (db w) ++ payload;
              products := products (db w); shop_settings := shop_settings (db w);
              next_id := next_id (db w) + 1; now := now (db w) |};
     faults := rest; random := random w; draws := S (draws w + k);
     trace := trace w
              ++ map InsertSale (attempt_codes (random w) (draws w) (S k))
              ++ [InsertItems payload] |}.

(** Every item of the request names a product that [products] has. *)
Definition all_known (b : CreateBody) (d : Store) : bool :=
  forallb (fun it => existsb (fun p => String.eqb (prod_id p) (pid it)) (products d))
    (parse_items b).

(** The two status columns of a sale agree: both pending, or the sale paid
    and the payment confirmed ([/api/pos/confirm-scan] writes the latter in
    lower case). *)
Definition coherent (s : Sale) : bool :=
  (String.eqb (status s) "PENDING" && String.eqb (payment_status s) "PENDING")
  || (String.eqb (status s) "PAID"
      && (String.eqb (payment_status s) "CONFIRMED"
          || String.eqb (payment_status s) "confirmed")).

(** The update of [/api/pos/confirm-scan]. *)
Definition pos_confirmation (uid : string) : SaleUpdate :=
  {| upd_status := "PAID"; upd_payment_status := "confirmed"; upd_staff_id := uid |}.

(** [useState<"pending" | "paid" | "unknown">] of the scan page. *)
Inductive SaleState := StatePending | StatePaid | StateUnknown.

(** [res.ok] *)
Definition res_ok (r : Response) : bool :=
  (200 <=? http_status r) && (http_status r <=? 299).

(** [String(json.payment_status || json.status || "")] on the body of a
    response. *)
Definition raw_status (b : Body) : string :=
  match b with
  | LookupBody _ payment_status status _ _ _ =>
      if nonempty payment_status then payment_status else status
  | _ => EmptyString
  end.

(** What [tick] of the scan page makes of the answer to its lookup. *)
Definition tick (r : Response) : SaleState :=
  if negb (res_ok r) then StateUnknown
  else
    let raw := toLowerCase (raw_status (body r)) in
    if includes raw "confirm" || includes raw "paid" then StatePaid
    else if includes raw "pend" || includes raw "unpaid" then StatePending
    else StateUnknown.

(** The storage calls of a run of a create route: at most [max_reads]
    reads, then at most [MAX_ATTEMPTS] inserts of a sale, one for each
    random draw and with the code made of that draw, then at most one insert
    of items. *)
Definition within_budget (max_reads : nat) (w w' : World) : Prop :=
  exists reads k t,
    trace w' =
      (trace w ++ reads
       ++ map InsertSale (attempt_codes (random w) (draws w) k) ++ t)%list
    /\ (length reads <= max_reads)%nat
    /\ Forall reads_only reads
    /\ (k <= MAX_ATTEMPTS)%nat
    /\ draws w' = (draws w + k)%nat
    /\ (t = [] \/ exists payload, t = [InsertItems payload]).

(** The columns of the sale a create route inserts for the request [b]
    into the database [d]. *)
Definition created_by (src st ps : string) (staff : option string)
    (b : CreateBody) (d : Store) (s : Sale) : Prop :=
  id s = next_id d
  /\ created_at s = now d
  /\ source s = src
  /\ status s = st
  /\ payment_status s = ps
  /\ staff_id s = staff
  /\ payment_method s = parse_payment_method b
  /\ momo_reference s = parse_momo_reference b
  /\ (forall m, momo_reference s = Some m ->
        payment_method s = "MOMO" /\ nonempty m = true /\ trim m = m).

(** What a run of a create route leaves in the database: nothing, or one
    sale with the columns [P], without items or with the payload of the
    request. *)
Definition one_sale_or_nothing (P : Sale -> Prop) (b : CreateBody) (w w' : World) : Prop :=
  db w' = db w
  \/ exists s new,
       sale_added s new (db w) (db w')
       /\ P s
       /\ (new = []
           \/ build_payload (id s) (priceMap_of b (db w)) (parse_items b) = Ok new).

(** The world after [k] rejected attempts and one whose sale went through
    and whose items did not; [t] are the calls after the inserts of sales. *)
Definition orphaned (row : string -> SaleInsert) (t : list Call) (k : nat)
    (rest : list (option string)) (w : World) : World :=
  let code := genCode (random w (draws w + k)%nat) in
  {| db := {| sales := sales (db w) ++ [new_sale (db w) (row code)];
              sale_items := sale_items (db w);
              products := products (db w); shop_settings := shop_settings (db w);
              next_id := next_id (db w) + 1; now := now (db w) |};
     faults := rest; random := random w; draws := S (draws w + k);
     trace := trace w
              ++ map InsertSale (attempt_codes (random w) (draws w) (S k))
              ++ t |}.

(** An item as the routes keep it: the product id trimmed and not empty,
    the quantity finite and positive. *)
Definition clean_item (it : SaleItemInput.t) : Prop :=
  nonempty (pid it) = true
  /\ trim (pid it) = pid it
  /\ isFinite (SaleItemInput.qty it) = true
  /\ gt (SaleItemInput.qty it) zero = true.

(** Replacing the [products] table. *)
Definition set_products (l : list Product) (w : World) : World :=
  {| db := {| sales := sales (db w); sale_items := sale_items (db w);
              products := l; shop_settings := shop_settings (db w);
              next_id := next_id (db w); now := now (db w) |};
     faults := faults w; random := random w; draws := draws w;
     trace := trace w |}.

(** A response without the products embedded in its items. *)
Definition without_products (r : Response) : Response :=
  match body r with
  | LookupBody c ps st paid s items =>
      json (LookupBody c ps st paid s (map (fun x => (fst x, None)) items))
        (http_status r)
  | _ => r
  end.

(** [type Product] and [type CartItem] of the pages. *)
Record PageProduct := {
  pp_id : string;
  pp_name : string;
  pp_price : number;
  pp_sku : option string
}.

(** [type CartItem = { product: Product; qty: number }].  At run time
    [product] is undefined in a line that [setQty] made for an id the cart
    did not have. *)
Record CartItem := { cart_product : option PageProduct; cart_qty : number }.

(** [useState<"CASH" | "MOMO">] *)
Inductive PayMethod := CASH | MOMO.

Definition payMethod_string (m : PayMethod) : string :=
  match m with CASH => "CASH" | MOMO => "MOMO" end.

(** [{ product_id: it.product.id, qty: it.qty }], which throws a TypeError
    ([None]) when [it.product] is undefined. *)
Definition cart_line (it : CartItem) : option SaleItemInput.t :=
  match cart_product it with
  | Some p => Some {| SaleItemInput.product_id := pp_id p;
                      SaleItemInput.qty := cart_qty it |}
  | None => None
  end.

(** The request item of a cart line that has its product. *)
Definition line_of (it : CartItem) : SaleItemInput.t :=
  {| SaleItemInput.product_id :=
       match cart_product it with Some p => pp_id p | None => EmptyString end;
     SaleItemInput.qty := cart_qty it |}.

(** [cartItems.map((it) => ({ product_id: it.product.id, qty: it.qty }))] *)
Fixpoint cart_lines (cartItems : list CartItem) : option (list SaleItemInput.t) :=
  match cartItems with
  | [] => Some []
  | it :: rest =>
      match cart_line it, cart_lines rest with
      | Some l, Some ls => Some (l :: ls)
      | _, _ => None
      end
  end.

(** The cart, a JavaScript object used as a map from product ids to lines:
    its properties in the order of their creation.  The name [__proto__],
    which an assignment to a property that is not there treats as the
    prototype, is not an id of the statements below. *)
Definition Cart : Type := list (string * CartItem).

(** [cart[id]] *)
Definition cart_get (id : string) (c : Cart) : option CartItem :=
  match List.find (fun kv => String.eqb (fst kv) id) c with
  | Some kv => Some (snd kv)
  | None => None
  end.

(** [{ ...cart, [id]: v }] and [cart[id] = v]: a property the object has
    keeps its place, a new one comes last. *)
Fixpoint cart_set (id : string) (v : CartItem) (c : Cart) : Cart :=
  match c with
  | [] => [(id, v)]
  | kv :: rest =>
      if String.eqb (fst kv) id then (fst kv, v) :: rest
      else kv :: cart_set id v rest
  end.

(** [delete cart[id]] *)
Definition cart_delete (id : string) (c : Cart) : Cart :=
  List.filter (fun kv => negb (String.eqb (fst kv) id)) c.

(** The array index a property name denotes, if it is one: the canonical
    decimal numeral of an integer below [2^32 - 1]. *)
Definition array_index (k : string) : option Z :=
  match decimal_value k with
  | Some n => if (n <? 4294967295) && String.eqb (decimal n) k then Some n else None
  | None => None
  end.

Fixpoint insert_by_index (n : Z) (v : CartItem) (l : list (Z * CartItem))
  : list (Z * CartItem) :=
  match l with
  | [] => [(n, v)]
  | mx :: rest =>
      if n <? fst mx then (n, v) :: l else mx :: insert_by_index n v rest
  end.

(** The properties whose names are array indices, in ascending order of
    the index. *)
Definition indexed (c : Cart) : list (Z * CartItem) :=
  fold_right (fun kv acc =>
                match array_index (fst kv) with
                | Some n => insert_by_index n (snd kv) acc
                | None => acc
                end) [] c.

Definition named (c : Cart) : Cart :=
  List.filter (fun kv => match array_index (fst kv) with
                         | None => true
                         | Some _ => false
                         end) c.

(** [Object.values(cart)]: the values of the properties whose names are
    array indices, in ascending order of the index, then the others in the
    order of their creation. *)
Definition Object_values (c : Cart) : list CartItem :=
  (map snd (indexed c) ++ map snd (named c))%list.

(** [add] of both pages:
    [{ ...prev, [p.id]: { product: p, qty: (prev[p.id]?.qty || 0) + 1 } }] *)
Definition add_to_cart (p : PageProduct) (prev : Cart) : Cart :=
  cart_set (pp_id p)
    {| cart_product := Some p;
       cart_qty := add (match cart_get (pp_id p) prev with
                        | Some it => num_or_zero (cart_qty it)
                        | None => zero
                        end) (of_Z 1) |}
    prev.

(** [setQty] of both pages:
    [const next = { ...prev };
     if (qty <= 0) delete next[id]; else next[id] = { ...next[id], qty };] *)
Definition setQty (id : string) (qty : number) (prev : Cart) : Cart :=
  if SFleb qty zero then cart_delete id prev
  else
    cart_set id
      {| cart_product := match cart_get id prev with
                         | Some it => cart_product it
                         | None => None
                         end;
         cart_qty := qty |}
      prev.

(** [removeItem] of the till page: [delete next[id]] *)
Definition removeItem (id : string) (prev : Cart) : Cart := cart_delete id prev.

(** What [checkout] of the till page and [submit] of the scan page do with
    the cart: nothing when it is empty, a request with the body
    [{ payment_method: payMethod,
       momo_reference: payMethod === "MOMO" ? momoRef.trim() || null : null,
       items: cartItems.map(...) }]
    otherwise, and no request when building the body throws ([PageError]).
    A quantity that is not finite is sent as [null], which the routes read
    as [0]; either way the item fails their validation. *)
Inductive Submission :=
| NothingToSend
| Request (b : CreateBody)
| PageError.

Definition submission (payMethod : PayMethod) (momoRef : string) (cart : Cart)
  : Submission :=
  let cartItems := Object_values cart in
  if Nat.eqb (length cartItems) 0 then NothingToSend
  else
    match cart_lines cartItems with
    | Some lines =>
        Request
          {| body_payment_method := Some (payMethod_string payMethod);
             body_momo_reference :=
               match payMethod with
               | MOMO => if nonempty (trim momoRef) then Some (trim momoRef) else None
               | CASH => None
               end;
             body_items := Some lines |}
    | None => PageError
    end.

(** The state a cart is kept in by the pages: no product twice, every line
    under the id of its product, every quantity positive. *)
Definition cart_ok (c : Cart) : Prop :=
  List.NoDup (map fst c)
  /\ Forall (fun kv =>
               exists p,
                 cart_product (snd kv) = Some p
                 /\ pp_id p = fst kv
                 /\ gt (cart_qty (snd kv)) zero = true
                 /\ wf (cart_qty (snd kv))) c.

(** The ways the pages change the cart. *)
Inductive CartOp :=
| OpAdd (p : PageProduct)
| OpSetQty (id : string) (qty : number)
| OpRemove (id : string)
| OpClear.

Definition apply_op (op : CartOp) (c : Cart) : Cart :=
  match op with
  | OpAdd p => add_to_cart p c
  | OpSetQty id qty => setQty id qty c
  | OpRemove id => removeItem id c
  | OpClear => []
  end.

(** The pages call [setQty] for a line of the cart, with a number. *)
Definition op_ok (op : CartOp) (c : Cart) : Prop :=
  match op with
  | OpSetQty id qty =>
      wf qty /\ qty <> S754_nan
      /\ (SFleb qty zero = true \/ cart_get id c <> None)
  | _ => True
  end.

(** Success of a create route is complete, failure writes no items: an
    answer with status 200 carries the code of the one sale that was
    added, together with the non-empty payload of the request; any other
    answer leaves [sale_items] as it was. *)
Definition all_or_no_items (b : CreateBody) (w : World) (r : result Response * World)
  : Prop :=
  (is_success (response r) ->
   exists s new,
     response r = Ok (json (CodeBody (public_code s)) 200)
     /\ sale_added s new (db w) (db (world_after r))
     /\ id s = next_id (db w)
     /\ build_payload (id s) (priceMap_of b (db w)) (parse_items b) = Ok new
     /\ length new = length (parse_items b)
     /\ new <> [])
  /\ (~ is_success (response r) ->
      sale_items (db (world_after r)) = sale_items (db w)).

(** [s.replace(/\s+/g, "")] *)
Fixpoint remove_spaces (s : string) : string :=
  match s with
  | String c s' => if is_space c then remove_spaces s' else String c (remove_spaces s')
  | EmptyString => EmptyString
  end.

(** One-byte (ASCII) code points, and strings made of them. *)
Definition is_ascii (c : ascii) : bool := Nat.ltb (nat_of_ascii c) 128.

Fixpoint ascii_only (s : string) : bool :=
  match s with
  | String c s' => is_ascii c && ascii_only s'
  | EmptyString => true
  end.

(** [staffEmailFromUsername] of [lib/auth/username.ts]:
    [`${username.trim().toLowerCase().replace(/\s+/g, "")}@staff.local`],
    for a username of ASCII characters.  On such a string [trim] and [\s]
    remove exactly TAB, LF, VT, FF, CR and SPACE, and [toLowerCase] maps
    [A]-[Z] to [a]-[z] and nothing else, which is what [trim],
    [remove_spaces] and [toLowerCase] above do.  JavaScript's Unicode white
    space and case mapping are not modelled: for a username with any other
    character the embedding gives no result. *)
Definition staffEmailFromUsername (username : string) : option string :=
  if ascii_only username
  then Some (remove_spaces (toLowerCase (trim username)) ++ "@staff.local")
  else None.

(** The next [n] storage calls go through. *)
Fixpoint accepted (n : nat) (script : list (option string)) : bool :=
  match n with
  | O => true
  | S n' =>
      match hd None script with
      | None => accepted n' (tl script)
      | Some _ => false
      end
  end.

(** A string that does not start with white space. *)
Definition starts_clean (s : string) : Prop :=
  match s with
  | String c _ => is_space c = false
  | EmptyString => True
  end.

(** A string without white space. *)
Fixpoint no_space (s : string) : bool :=
  match s with
  | String c s' => negb (is_space c) && no_space s'
  | EmptyString => true
  end.

(* ===================================================================== *)
(** ** A small shop, for examples *)
(* ===================================================================== *)

Module Sample.

(** The number 0.5. *)
Definition half : number := S754_finite false 4503599627370496 (-53).

Definition apple : Product :=
  {| prod_id := "A"; prod_name := "Apple"; prod_sku := None;
     price := Some (of_Z 10) |}.

Definition settings (enabled : bool) : ShopSettings :=
  {| settings_id := 1; enable_customer_scan := Some enabled |}.

(** A shop with one product, no sales yet. *)
Definition shop (enabled : bool) : Store :=
  {| sales := []; sale_items := []; products := [apple];
     shop_settings := [settings enabled]; next_id := 1; now := 0 |}.

(** A world whose storage layer answers the coming calls as [script] says
    and whose [Math.random()] always returns 0.5. *)
Definition world (d : Store) (script : list (option string)) : World :=
  {| db := d; faults := script; random := fun _ => half; draws := 0; trace := [] |}.

Definition item (p : string) (q : number) : SaleItemInput.t :=
  {| SaleItemInput.product_id := p; SaleItemInput.qty := q |}.

Definition cart (l : list SaleItemInput.t) : CreateBody :=
  {| body_payment_method := Some "cash"; body_momo_reference := None;
     body_items := Some l |}.

(** Two apples. *)
Definition two_apples : CreateBody := cart [item "A" (of_Z 2)].

(** Two apples and an item with quantity zero. *)
Definition zero_qty : SaleItemInput.t := item "B" (of_Z 0).
Definition mixed : CreateBody := cart [item "A" (of_Z 2); zero_qty].

(** Only items that fail validation. *)
Definition hopeless : CreateBody := cart [item "" (of_Z 1); zero_qty].

(** An item of a product that [products] does not have. *)
Definition unknown_item : SaleItemInput.t := item "Z" (of_Z 2).
Definition unknown : CreateBody := cart [unknown_item].

Definition collision : string :=
  "duplicate key value violates unique constraint sales_public_code_key".

Definition outage : string := "connection refused".

(** The world after a customer created a scan sale of two apples. *)
Definition after_scan : World :=
  world_after (scan_create_POST two_apples (world (shop true) [])).

(** The world after a member of staff entered a manual sale of two apples. *)
Definition after_manual : World :=
  world_after (pos_create_POST (Some "staff-1") two_apples (world (shop true) [])).

(** The sale of [after_scan]. *)
Definition scan_sale : Sale :=
  {| id := 1; public_code := "550000"; source := "CUSTOMER_SCAN";
     status := "PENDING"; payment_method := "CASH"; payment_status := "PENDING";
     momo_reference := None; staff_id := None; note := "Customer scan";
     created_at := 0 |}.

(** The sale of [after_manual]. *)
Definition manual_sale : Sale :=
  {| id := 1; public_code := "550000"; source := "STAFF_MANUAL";
     status := "PAID"; payment_method := "CASH"; payment_status := "CONFIRMED";
     momo_reference := None; staff_id := Some "staff-1"; note := "Manual POS";
     created_at := 0 |}.

(** The world after [staff-1] confirmed the scan sale. *)
Definition confirmed : World :=
  world_after (scan_confirm_POST (Some "staff-1") (Some "550000") after_scan).

(** The scan sale once confirmed. *)
Definition confirmed_sale : Sale :=
  {| id := 1; public_code := "550000"; source := "CUSTOMER_SCAN";
     status := "PAID"; payment_method := "CASH"; payment_status := "CONFIRMED";
     momo_reference := None; staff_id := Some "staff-1"; note := "Customer scan";
     created_at := 0 |}.

End Sample.

(* ===================================================================== *)
(** ** Lemmas and theorems *)
(* ===================================================================== *)

(** ** Stepping through the effects *)

Lemma bind_ok {A B} (m : M A) (k : A -> M B) w a w' :
  m w = (Ok a, w') -> bind m k w = k a w'.
Proof. intros H. unfold bind. rewrite H. reflexivity. Qed.

Lemma storage_ok {A} (c : Call) (run : Store -> dbres A * Store) w :
  hd None (faults w) = None ->
  storage c run w =
    (Ok (fst (run (db w))),
     {| db := snd (run (db w)); faults := tl (faults w); random := random w;
        draws := draws w; trace := trace w ++ [c] |}).
Proof. intros H. unfold storage. rewrite H. destruct (run (db w)). reflexivity. Qed.

Lemma storage_rejected {A} (c : Call) (run : Store -> dbres A * Store) w msg :
  hd None (faults w) = Some msg ->
  storage c run w =
    (Ok (DbError msg),
     {| db := db w; faults := tl (faults w); random := random w;
        draws := draws w; trace := trace w ++ [c] |}).
Proof. intros H. unfold storage. rewrite H. reflexivity. Qed.

(** ** Relations every step of a computation stays in *)

Section Invariance.
Variable R : World -> World -> Prop.
Hypothesis R_refl : forall w, R w w.
Hypothesis R_trans : forall a b c, R a b -> R b c -> R a c.

Lemma respects_ret {A} (a : A) : respects R (ret a).
Proof. intros w. apply R_refl. Qed.

Lemma respects_throw {A} e : respects R (@throw A e).
Proof. intros w. apply R_refl. Qed.

Lemma respects_bind {A B} (m : M A) (k : A -> M B) :
  respects R m -> (forall a, respects R (k a)) -> respects R (bind m k).
Proof.
  intros Hm Hk w. unfold bind. specialize (Hm w).
  destruct (m w) as [[a|e] w1]; simpl in *; [|assumption].
  eapply R_trans; [eassumption|apply Hk].
Qed.

Lemma respects_try_catch {A} (m : M A) (h : string -> M A) :
  respects R m -> (forall e, respects R (h e)) -> respects R (try_catch m h).
Proof.
  intros Hm Hh w. unfold try_catch. specialize (Hm w).
  destruct (m w) as [[a|e] w1]; simpl in *; [assumption|].
  eapply R_trans; [eassumption|apply Hh].
Qed.

Lemma respects_if {A} (b : bool) (m1 m2 : M A) :
  respects R m1 -> respects R m2 -> respects R (if b then m1 else m2).
Proof. destruct b; auto. Qed.

Hypothesis R_random : respects R Math_random.
Hypothesis R_insert_sale : forall r, respects R (insert_sale r).
Hypothesis R_insert_items : forall p, respects R (insert_items p).

Lemma respects_create_attempts row items pm n :
  forall lastErr, respects R (create_attempts row items pm n lastErr).
Proof.
  induction n as [|n IH]; intros lastErr; simpl.
  - apply respects_ret.
  - apply respects_bind; [apply R_random|]. intros r.
    apply respects_bind; [apply R_insert_sale|]. intros [sale|msg].
    + destruct (build_payload _ _ _); [|apply respects_throw].
      apply respects_bind; [apply R_insert_items|].
      intros [?|?]; apply respects_ret.
    + destruct (isDup msg); [apply IH|apply respects_ret].
Qed.
End Invariance.

(** ** Computations that do not look at a part of the world *)

Section Commutation.
Variable f : World -> World.

Lemma commutes_ret {A} (a : A) : commutes f (ret a).
Proof. intros w. reflexivity. Qed.

Lemma commutes_throw {A} e : commutes f (@throw A e).
Proof. intros w. reflexivity. Qed.

Lemma commutes_bind {A B} (m : M A) (k : A -> M B) :
  commutes f m -> (forall a, commutes f (k a)) -> commutes f (bind m k).
Proof.
  intros Hm Hk w. unfold bind. rewrite Hm.
  destruct (m w) as [[a|e] w1]; simpl; [apply Hk|reflexivity].
Qed.

Lemma commutes_try_catch {A} (m : M A) (h : string -> M A) :
  commutes f m -> (forall e, commutes f (h e)) -> commutes f (try_catch m h).
Proof.
  intros Hm Hh w. unfold try_catch. rewrite Hm.
  destruct (m w) as [[a|e] w1]; simpl; [reflexivity|apply Hh].
Qed.

Hypothesis C_random : commutes f Math_random.
Hypothesis C_insert_sale : forall r, commutes f (insert_sale r).
Hypothesis C_insert_items : forall p, commutes f (insert_items p).

Lemma commutes_create_attempts row items pm n :
  forall lastErr, commutes f (create_attempts row items pm n lastErr).
Proof.
  induction n as [|n IH]; intros lastErr; simpl.
  - apply commutes_ret.
  - apply commutes_bind; [apply C_random|]. intros r.
    apply commutes_bind; [apply C_insert_sale|]. intros [sale|msg].
    + destruct (build_payload _ _ _); [|apply commutes_throw].
      apply commutes_bind; [apply C_insert_items|].
      intros [?|?]; apply commutes_ret.
    + destruct (isDup msg); [apply IH|apply commutes_ret].
Qed.
End Commutation.

Lemma commutes_settings_random l : commutes (set_settings l) Math_random.
Proof. intros w. reflexivity. Qed.

Lemma commutes_settings_insert_sale l r : commutes (set_settings l) (insert_sale r).
Proof.
  intros w. unfold insert_sale, storage, set_settings; simpl.
  destruct (hd None (faults w)); reflexivity.
Qed.

Lemma commutes_settings_insert_items l p : commutes (set_settings l) (insert_items p).
Proof.
  intros w. unfold insert_items, storage, set_settings; simpl.
  destruct (hd None (faults w)); reflexivity.
Qed.

Lemma commutes_settings_select_products l ids :
  commutes (set_settings l) (select_products ids).
Proof.
  intros w. unfold select_products, storage, set_settings, read; simpl.
  destruct (hd None (faults w)); reflexivity.
Qed.

Lemma pos_create_ignores_settings l auth b :
  commutes (set_settings l) (pos_create_POST auth b).
Proof.
  unfold pos_create_POST.
  apply commutes_try_catch; [|intros; apply commutes_ret].
  destruct (negb _); [apply commutes_ret|].
  destruct (Nat.eqb _ _); [apply commutes_ret|].
  apply commutes_bind; [apply commutes_settings_select_products|].
  intros [rows|msg]; [|apply commutes_ret].
  apply commutes_create_attempts.
  - apply commutes_settings_random.
  - apply commutes_settings_insert_sale.
  - apply commutes_settings_insert_items.
Qed.

(** ** The calls a route makes *)

Lemma calls_refl P w : calls P w w.
Proof. exists []. split; [symmetry; apply app_nil_r|constructor]. Qed.

Lemma calls_trans P a b c : calls P a b -> calls P b c -> calls P a c.
Proof.
  intros (t1 & E1 & F1) (t2 & E2 & F2). exists (t1 ++ t2)%list. split.
  - rewrite E2, E1. symmetry. apply app_assoc.
  - apply Forall_app. auto.
Qed.

Lemma calls_random P : respects (calls P) Math_random.
Proof. intros w. exists []. simpl. split; [symmetry; apply app_nil_r|constructor]. Qed.

Lemma calls_storage {A} P c (run : Store -> dbres A * Store) :
  P c -> respects (calls P) (storage c run).
Proof.
  intros Hc w. exists [c]. unfold storage.
  destruct (hd None (faults w)); [|destruct (run (db w))]; simpl; auto.
Qed.

(** ** The parts of the database a route leaves alone *)

Lemma same_db_trans a b c : same_db a b -> same_db b c -> same_db a c.
Proof. unfold same_db. congruence. Qed.

Lemma same_db_read {A} c (g : Store -> dbres A) : respects same_db (storage c (read g)).
Proof.
  intros w. unfold storage, read, same_db.
  destruct (hd None (faults w)); reflexivity.
Qed.

Lemma length_zero_nil {A} (l : list A) : Nat.eqb (length l) 0 = true <-> l = [].
Proof. destruct l; simpl; split; congruence. Qed.

Lemma scan_create_no_items b w :
  parse_items b = [] -> scan_create_POST b w = (Ok INVALID_ITEMS, w).
Proof.
  intros H. unfold scan_create_POST, try_catch. rewrite H. reflexivity.
Qed.

Lemma pos_create_no_items auth b w :
  nonempty (str_or auth "") = true -> parse_items b = [] ->
  pos_create_POST auth b w = (Ok INVALID_ITEMS, w).
Proof.
  intros Ha H. unfold pos_create_POST, try_catch. rewrite Ha, H. reflexivity.
Qed.

Lemma parse_items_all_invalid b :
  Forall (fun it => valid_item (normalize_item it) = false) (itemsRaw b) ->
  parse_items b = [].
Proof.
  unfold parse_items. induction 1 as [|it l Hit _ IH]; simpl; [reflexivity|].
  rewrite Hit. exact IH.
Qed.

Lemma parse_items_drop b l1 bad l2 :
  itemsRaw b = (l1 ++ bad :: l2)%list ->
  valid_item (normalize_item bad) = false ->
  parse_items b = parse_items (with_items b (l1 ++ l2)).
Proof.
  intros E Hbad. unfold parse_items. rewrite E. unfold itemsRaw; simpl.
  rewrite !map_app, !List.filter_app. simpl. rewrite Hbad. reflexivity.
Qed.

Lemma scan_create_by_parsed b b' :
  body_payment_method b = body_payment_method b' ->
  body_momo_reference b = body_momo_reference b' ->
  parse_items b = parse_items b' ->
  scan_create_POST b = scan_create_POST b'.
Proof.
  intros E1 E2 E3. unfold scan_create_POST, parse_momo_reference, parse_payment_method.
  rewrite E1, E2, E3. reflexivity.
Qed.

Lemma pos_create_by_parsed auth b b' :
  body_payment_method b = body_payment_method b' ->
  body_momo_reference b = body_momo_reference b' ->
  parse_items b = parse_items b' ->
  pos_create_POST auth b = pos_create_POST auth b'.
Proof.
  intros E1 E2 E3. unfold pos_create_POST, parse_momo_reference, parse_payment_method.
  rewrite E1, E2, E3. reflexivity.
Qed.

(** C3 (amended).  A create request none of whose items passes validation
    (a product id that is not empty after trimming, and a finite, positive
    quantity), in particular one with no items, fails with INVALID_ITEMS
    before any storage call and leaves the world as it is.  An item that
    fails validation among others is dropped: the request is handled as the
    request without that item. *)
Theorem create_invalid_items (b : CreateBody) :
  (Forall (fun it => valid_item (normalize_item it) = false) (itemsRaw b) ->
   forall w,
     scan_create_POST b w = (Ok INVALID_ITEMS, w)
     /\ (forall auth, nonempty (str_or auth "") = true ->
         pos_create_POST auth b w = (Ok INVALID_ITEMS, w)))
  /\ (forall l1 bad l2,
        itemsRaw b = (l1 ++ bad :: l2)%list ->
        valid_item (normalize_item bad) = false ->
        scan_create_POST b = scan_create_POST (with_items b (l1 ++ l2))
        /\ (forall auth,
              pos_create_POST auth b = pos_create_POST auth (with_items b (l1 ++ l2)))).
Proof.
  split.
  - intros H w. apply parse_items_all_invalid in H. split.
    + apply scan_create_no_items, H.
    + intros auth Ha. apply pos_create_no_items; assumption.
  - intros l1 bad l2 E Hbad.
    pose proof (parse_items_drop b l1 bad l2 E Hbad) as P. split.
    + apply scan_create_by_parsed; auto.
    + intros auth. apply pos_create_by_parsed; auto.
Qed.

Lemma scan_create_disabled b w s :
  parse_items b <> [] ->
  hd None (faults w) = None ->
  maybeSingle (settings_rows (db w)) = Data s ->
  scan_disabled s = true ->
  scan_create_POST b w =
    (Ok SCAN_DISABLED,
     {| db := db w; faults := tl (faults w); random := random w;
        draws := draws w; trace := trace w ++ [SelectSettings] |}).
Proof.
  intros Hne Hf Hs Hd. unfold scan_create_POST, try_catch.
  destruct (Nat.eqb (length (parse_items b)) 0) eqn:E.
  { apply length_zero_nil in E. contradiction. }
  unfold select_settings.
  erewrite bind_ok by (apply storage_ok; assumption).
  unfold read; simpl. rewrite Hs, Hd. reflexivity.
Qed.

Lemma pos_create_calls auth b :
  respects (calls not_settings) (pos_create_POST auth b).
Proof.
  pose proof (calls_refl not_settings) as Rf.
  pose proof (calls_trans not_settings) as Tr.
  unfold pos_create_POST.
  apply (respects_try_catch _ Tr); [|intros; apply (respects_ret _ Rf)].
  apply respects_if; [apply (respects_ret _ Rf)|].
  apply respects_if; [apply (respects_ret _ Rf)|].
  apply (respects_bind _ Tr).
  { apply calls_storage. discriminate. }
  intros [rows|msg]; [|apply (respects_ret _ Rf)].
  apply (respects_create_attempts _ Rf Tr).
  - apply calls_random.
  - intros r. apply calls_storage. discriminate.
  - intros p. apply calls_storage. discriminate.
Qed.

(** C8.  /api/scan/create fails with SCAN_DISABLED, after reading the
    settings and without touching the database, whenever the settings row
    is missing or its flag is not true.  /api/pos/create never reads the
    settings: its run is the same whatever [shop_settings] holds. *)
Theorem scan_gating :
  (forall b w s,
      parse_items b <> [] ->
      hd None (faults w) = None ->
      maybeSingle (settings_rows (db w)) = Data s ->
      scan_disabled s = true ->
      response (scan_create_POST b w) = Ok SCAN_DISABLED
      /\ db (world_after (scan_create_POST b w)) = db w
      /\ trace (world_after (scan_create_POST b w)) = (trace w ++ [SelectSettings])%list)
  /\ (forall auth b w,
        calls not_settings w (world_after (pos_create_POST auth b w))
        /\ forall l,
            pos_create_POST auth b (set_settings l w) =
              (response (pos_create_POST auth b w),
               set_settings l (world_after (pos_create_POST auth b w)))).
Proof.
  split.
  - intros b w s H1 H2 H3 H4.
    rewrite (scan_create_disabled b w s H1 H2 H3 H4). auto.
  - intros auth b w. split.
    + apply pos_create_calls.
    + intros l. apply pos_create_ignores_settings.
Qed.

(** ** Lookup *)

Lemma lookup_same_db param : respects same_db (scan_lookup_GET param).
Proof.
  assert (Rf : forall w, same_db w w) by reflexivity.
  pose proof same_db_trans as Tr.
  unfold scan_lookup_GET.
  apply (respects_try_catch _ Tr); [|intros; apply (respects_ret _ Rf)].
  apply respects_if; [apply (respects_ret _ Rf)|].
  apply (respects_bind _ Tr); [apply same_db_read|].
  intros [[[sale items]|]|msg]; try apply (respects_ret _ Rf).
  apply respects_if; apply (respects_ret _ Rf).
Qed.

Lemma lookup_calls param : respects (calls reads_only) (scan_lookup_GET param).
Proof.
  pose proof (calls_refl reads_only) as Rf.
  pose proof (calls_trans reads_only) as Tr.
  unfold scan_lookup_GET.
  apply (respects_try_catch _ Tr); [|intros; apply (respects_ret _ Rf)].
  apply respects_if; [apply (respects_ret _ Rf)|].
  apply (respects_bind _ Tr); [apply calls_storage; reflexivity|].
  intros [[[sale items]|]|msg]; try apply (respects_ret _ Rf).
  apply respects_if; apply (respects_ret _ Rf).
Qed.

Lemma lookups_same_db params :
  forall w, db (fold_left (fun w p => world_after (scan_lookup_GET p w)) params w) = db w.
Proof.
  induction params as [|p ps IH]; intros w; simpl; [reflexivity|].
  rewrite IH. apply lookup_same_db.
Qed.

(** The lookup of a code that one sale carries. *)
Lemma lookup_found param w s :
  let code := trim (str_or param "") in
  (4 <= String.length code)%nat ->
  hd None (faults w) = None ->
  sales_with_code (db w) code = [s] ->
  scan_lookup_GET param w =
    (Ok (if String.eqb (source s) "CUSTOMER_SCAN"
         then json (LookupBody (public_code s) (payment_status s) (status s)
                      (String.eqb (toUpperCase (payment_status s)) "CONFIRMED"
                       || String.eqb (toUpperCase (status s)) "PAID")
                      s (items_of (db w) s)) 200
         else NOT_SCAN_CHECKOUT),
     {| db := db w; faults := tl (faults w); random := random w;
        draws := draws w; trace := trace w ++ [SelectSaleWithItems code] |}).
Proof.
  intros code Hlen Hf Hs. unfold scan_lookup_GET, try_catch. fold code.
  assert (E1 : nonempty code = true) by (destruct code; [simpl in Hlen; lia|reflexivity]).
  assert (E2 : Nat.ltb (String.length code) 4 = false) by (apply Nat.ltb_ge; lia).
  rewrite E1, E2. cbn [negb orb].
  unfold select_sale_with_items.
  erewrite bind_ok by (apply storage_ok; assumption).
  unfold read; simpl. rewrite Hs; simpl.
  destruct (String.eqb (source s) "CUSTOMER_SCAN"); reflexivity.
Qed.

(** C7.  The lookup never changes the database and makes no write call,
    however often it runs.  For a scan sale it finds, the [paid] flag of
    the response is [payment_status = CONFIRMED or status = PAID], the two
    columns being compared in upper case. *)
Theorem lookup_paid_and_read_only :
  (forall param w,
      db (world_after (scan_lookup_GET param w)) = db w
      /\ calls reads_only w (world_after (scan_lookup_GET param w)))
  /\ (forall params w,
        db (fold_left (fun w p => world_after (scan_lookup_GET p w)) params w) = db w)
  /\ (forall param w s,
        (4 <= String.length (trim (str_or param "")))%nat ->
        hd None (faults w) = None ->
        sales_with_code (db w) (trim (str_or param "")) = [s] ->
        source s = "CUSTOMER_SCAN" ->
        exists paid,
          response (scan_lookup_GET param w) =
            Ok (json (LookupBody (public_code s) (payment_status s) (status s)
                        paid s (items_of (db w) s)) 200)
          /\ paid = (String.eqb (toUpperCase (payment_status s)) "CONFIRMED"
                     || String.eqb (toUpperCase (status s)) "PAID")
          /\ (toUpperCase (payment_status s) = payment_status s ->
              toUpperCase (status s) = status s ->
              paid = (String.eqb (payment_status s) "CONFIRMED"
                      || String.eqb (status s) "PAID"))).
Proof.
  split; [|split].
  - intros param w. split; [apply lookup_same_db|apply lookup_calls].
  - apply lookups_same_db.
  - intros param w s Hlen Hf Hs Hsrc.
    rewrite (lookup_found param w s Hlen Hf Hs). simpl.
    rewrite Hsrc. simpl. eexists. split; [reflexivity|]. split; [reflexivity|].
    intros E1 E2. rewrite E1, E2. reflexivity.
Qed.

(** C10.  The lookup of the code of a sale whose source is not
    CUSTOMER_SCAN fails with the error "This code is not a scan checkout."
    and returns neither the sale nor its items. *)
Theorem lookup_rejects_other_sources param w s :
  (4 <= String.length (trim (str_or param "")))%nat ->
  hd None (faults w) = None ->
  sales_with_code (db w) (trim (str_or param "")) = [s] ->
  source s <> "CUSTOMER_SCAN" ->
  public_code s = trim (str_or param "")
  /\ In s (sales (db w))
  /\ response (scan_lookup_GET param w) = Ok NOT_SCAN_CHECKOUT
  /\ db (world_after (scan_lookup_GET param w)) = db w.
Proof.
  intros Hlen Hf Hs Hsrc.
  assert (Hin : In s (sales_with_code (db w) (trim (str_or param "")))).
  { rewrite Hs. left. reflexivity. }
  apply List.filter_In in Hin. destruct Hin as [Hin Hc].
  apply String.eqb_eq in Hc.
  rewrite (lookup_found param w s Hlen Hf Hs). simpl.
  apply String.eqb_neq in Hsrc. rewrite Hsrc. auto.
Qed.

(** ** Confirmation *)

Lemma confirm_found auth code w s :
  let uid := str_or auth "" in
  let c := trim (str_or code "") in
  nonempty uid = true ->
  nonempty c = true ->
  hd None (faults w) = None ->
  sales_with_code (db w) c = [s] ->
  let w1 := {| db := db w; faults := tl (faults w); random := random w;
               draws := draws w; trace := trace w ++ [SelectSale c] |} in
  scan_confirm_POST auth code w =
    if negb (String.eqb (source s) "CUSTOMER_SCAN") then (Ok NOT_SCAN_SOURCE, w1)
    else if already_confirmed s then (Ok ALREADY_CONFIRMED, w1)
    else
      match hd None (tl (faults w)) with
      | Some msg =>
          (Ok (error_json msg 400),
           {| db := db w; faults := tl (tl (faults w)); random := random w;
              draws := draws w;
              trace := (trace w ++ [SelectSale c]) ++ [UpdateSaleById (id s)] |})
      | None =>
          (Ok (json OkBody 200),
           {| db := with_sales (db w)
                      (map (fun r => if id r =? id s
                                     then apply_update (confirmation uid) r else r)
                           (sales (db w)));
              faults := tl (tl (faults w)); random := random w;
              draws := draws w;
              trace := (trace w ++ [SelectSale c]) ++ [UpdateSaleById (id s)] |})
      end.
Proof.
  intros uid c Hu Hc Hf Hs w1.
  unfold scan_confirm_POST, try_catch. fold uid. fold c.
  rewrite Hu, Hc. cbn [negb].
  unfold select_sale.
  erewrite bind_ok by (apply storage_ok; assumption).
  unfold read; cbn [fst snd]. rewrite Hs. cbn [maybeSingle].
  fold w1. unfold already_confirmed.
  destruct (negb (String.eqb (source s) "CUSTOMER_SCAN")); [reflexivity|].
  destruct (_ || _); [reflexivity|].
  unfold update_sale_by_id, bind, storage. subst w1. cbn [faults db random draws trace].
  destruct (hd None (tl (faults w))); reflexivity.
Qed.

Lemma confirm_success_inv auth code w w' :
  scan_confirm_POST auth code w = (Ok (json OkBody 200), w') ->
  exists uid s,
    auth = Some uid /\ nonempty uid = true
    /\ nonempty (trim (str_or code "")) = true
    /\ sales_with_code (db w) (trim (str_or code "")) = [s]
    /\ source s = "CUSTOMER_SCAN"
    /\ already_confirmed s = false
    /\ db w' = with_sales (db w)
                 (map (fun r => if id r =? id s
                                then apply_update (confirmation uid) r else r)
                      (sales (db w))).
Proof.
  intros H.
  destruct (nonempty (str_or auth "")) eqn:Hu.
  2:{ unfold scan_confirm_POST, try_catch in H. rewrite Hu in H. discriminate. }
  destruct (nonempty (trim (str_or code ""))) eqn:Hc.
  2:{ unfold scan_confirm_POST, try_catch in H. rewrite Hu, Hc in H. discriminate. }
  destruct (hd None (faults w)) as [msg|] eqn:Hf.
  { unfold scan_confirm_POST, try_catch, select_sale in H. rewrite Hu, Hc in H.
    cbn [negb] in H.
    erewrite bind_ok in H by (apply storage_rejected; eassumption).
    discriminate. }
  destruct (sales_with_code (db w) (trim (str_or code ""))) as [|s [|s2 rest]] eqn:Hs.
  - unfold scan_confirm_POST, try_catch, select_sale in H. rewrite Hu, Hc in H.
    cbn [negb] in H.
    erewrite bind_ok in H by (apply storage_ok; assumption).
    unfold read in H; cbn [fst snd] in H. rewrite Hs in H. discriminate.
  - rewrite (confirm_found auth code w s Hu Hc Hf Hs) in H.
    destruct (String.eqb (source s) "CUSTOMER_SCAN") eqn:Hsrc; cbn [negb] in H;
      [|discriminate].
    destruct (already_confirmed s) eqn:Ha; [discriminate|].
    destruct (hd None (tl (faults w))); [discriminate|].
    injection H as <-.
    destruct auth as [uid|]; [|discriminate].
    exists uid, s.
    assert (Hu' : nonempty uid = true) by (destruct uid; [discriminate|reflexivity]).
    unfold str_or. rewrite Hu'.
    apply String.eqb_eq in Hsrc. auto 10.
  - unfold scan_confirm_POST, try_catch, select_sale in H. rewrite Hu, Hc in H.
    cbn [negb] in H.
    erewrite bind_ok in H by (apply storage_ok; assumption).
    unfold read in H; cbn [fst snd] in H. rewrite Hs in H. discriminate.
Qed.

Lemma confirm_not_found auth code w :
  nonempty (str_or auth "") = true ->
  nonempty (trim (str_or code "")) = true ->
  hd None (faults w) = None ->
  sales_with_code (db w) (trim (str_or code "")) = [] ->
  scan_confirm_POST auth code w =
    (Ok CODE_NOT_FOUND,
     {| db := db w; faults := tl (faults w); random := random w;
        draws := draws w;
        trace := trace w ++ [SelectSale (trim (str_or code ""))] |}).
Proof.
  intros Hu Hc Hf Hs.
  unfold scan_confirm_POST, try_catch, select_sale. rewrite Hu, Hc. cbn [negb].
  erewrite bind_ok by (apply storage_ok; assumption).
  unfold read; cbn [fst snd]. rewrite Hs. reflexivity.
Qed.

(** With distinct primary keys, an update by id rewrites one row. *)
Lemma update_one_row (f : Sale -> Sale) (s : Sale) (l : list Sale) :
  List.NoDup (map id l) -> In s l ->
  exists l1 l2,
    l = (l1 ++ s :: l2)%list
    /\ map (fun r => if id r =? id s then f r else r) l = (l1 ++ f s :: l2)%list.
Proof.
  intros Hnd Hin. apply in_split in Hin. destruct Hin as (l1 & l2 & ->).
  exists l1, l2. split; [reflexivity|].
  rewrite map_app in Hnd. simpl in Hnd.
  apply List.NoDup_remove_2 in Hnd.
  rewrite map_app. simpl. rewrite Z.eqb_refl. f_equal; [|f_equal].
  - rewrite <- (map_id l1) at 2. apply map_ext_in. intros r Hr.
    destruct (id r =? id s) eqn:E; [|reflexivity].
    apply Z.eqb_eq in E. exfalso. apply Hnd. apply in_or_app. left.
    rewrite <- E. apply in_map. exact Hr.
  - rewrite <- (map_id l2) at 2. apply map_ext_in. intros r Hr.
    destruct (id r =? id s) eqn:E; [|reflexivity].
    apply Z.eqb_eq in E. exfalso. apply Hnd. apply in_or_app. right.
    rewrite <- E. apply in_map. exact Hr.
Qed.

(** C5.  A confirmation that succeeds changes the one sale that carries the
    code: its status becomes PAID, its payment_status CONFIRMED and its
    staff_id the caller; every other column of that sale, every other sale,
    and the tables [sale_items], [products] and [shop_settings] are as
    before (primary keys being distinct).  When no sale carries the code,
    an authenticated attempt with a code that is not empty fails with
    CODE_NOT_FOUND. *)
Theorem confirm_frame :
  (forall auth code w w',
      scan_confirm_POST auth code w = (Ok (json OkBody 200), w') ->
      List.NoDup (map id (sales (db w))) ->
      exists uid s s' before after,
        auth = Some uid
        /\ public_code s = trim (str_or code "")
        /\ sales (db w) = (before ++ s :: after)%list
        /\ sales (db w') = (before ++ s' :: after)%list
        /\ status s' = "PAID"
        /\ payment_status s' = "CONFIRMED"
        /\ staff_id s' = Some uid
        /\ id s' = id s
        /\ public_code s' = public_code s
        /\ source s' = source s
        /\ payment_method s' = payment_method s
        /\ momo_reference s' = momo_reference s
        /\ note s' = note s
        /\ created_at s' = created_at s
        /\ sale_items (db w') = sale_items (db w)
        /\ products (db w') = products (db w)
        /\ shop_settings (db w') = shop_settings (db w))
  /\ (forall auth code w,
        nonempty (str_or auth "") = true ->
        nonempty (trim (str_or code "")) = true ->
        hd None (faults w) = None ->
        sales_with_code (db w) (trim (str_or code "")) = [] ->
        response (scan_confirm_POST auth code w) = Ok CODE_NOT_FOUND
        /\ db (world_after (scan_confirm_POST auth code w)) = db w).
Proof.
  split.
  - intros auth code w w' H Hnd.
    apply confirm_success_inv in H.
    destruct H as (uid & s & Ha & Hu & Hc & Hs & Hsrc & Hnot & Hdb).
    assert (Hin : In s (sales_with_code (db w) (trim (str_or code "")))).
    { rewrite Hs. left. reflexivity. }
    apply List.filter_In in Hin. destruct Hin as [Hin Hcode].
    apply String.eqb_eq in Hcode.
    destruct (update_one_row (apply_update (confirmation uid)) s _ Hnd Hin)
      as (l1 & l2 & E1 & E2).
    exists uid, s, (apply_update (confirmation uid) s), l1, l2.
    rewrite Hdb. simpl. rewrite E2. auto 20.
  - intros auth code w Hu Hc Hf Hs.
    rewrite (confirm_not_found auth code w Hu Hc Hf Hs). auto.
Qed.

Lemma filter_map_same {A} (p : A -> bool) (g : A -> A) (l : list A) :
  (forall r, p (g r) = p r) ->
  List.filter p (map g l) = map g (List.filter p l).
Proof.
  intros H. induction l as [|a l IH]; simpl; [reflexivity|].
  rewrite H. destruct (p a); simpl; rewrite IH; reflexivity.
Qed.

(** A confirmed scan sale cannot be confirmed: whatever the caller and the
    storage layer do, the route does not answer with success and leaves the
    database as it is. *)
Lemma confirm_on_confirmed auth code w s :
  sales_with_code (db w) (trim (str_or code "")) = [s] ->
  source s = "CUSTOMER_SCAN" ->
  already_confirmed s = true ->
  ~ is_success (response (scan_confirm_POST auth code w))
  /\ db (world_after (scan_confirm_POST auth code w)) = db w
  /\ (nonempty (str_or auth "") = true ->
      nonempty (trim (str_or code "")) = true ->
      hd None (faults w) = None ->
      response (scan_confirm_POST auth code w) = Ok ALREADY_CONFIRMED).
Proof.
  intros Hs Hsrc Ha.
  destruct (nonempty (str_or auth "")) eqn:Hu.
  2:{ unfold scan_confirm_POST, try_catch. rewrite Hu. simpl.
      repeat split; try discriminate. intros [b E]. discriminate. }
  destruct (nonempty (trim (str_or code ""))) eqn:Hc.
  2:{ unfold scan_confirm_POST, try_catch. rewrite Hu, Hc. simpl.
      repeat split; try discriminate. intros [b E]. discriminate. }
  destruct (hd None (faults w)) as [msg|] eqn:Hf.
  { unfold scan_confirm_POST, try_catch, select_sale. rewrite Hu, Hc. cbn [negb].
    erewrite bind_ok by (apply storage_rejected; eassumption). simpl.
    repeat split; try discriminate. intros [b E]. discriminate. }
  rewrite (confirm_found auth code w s Hu Hc Hf Hs).
  rewrite Hsrc, Ha. simpl.
  repeat split; auto. intros [b E]. discriminate.
Qed.

(** The guard of /api/scan/confirm against a second confirmation.  An
    authenticated attempt on the code of a sale whose status is already
    PAID or whose payment_status is already CONFIRMED (compared without
    regard to case) is rejected with ALREADY_CONFIRMED and changes nothing
    when the sale is a CUSTOMER_SCAN sale, and with NOT_SCAN_SOURCE when it
    is not; this holds when the code is not empty, one sale carries it and
    the storage layer answers the lookup.  In the database a successful
    confirmation leaves, an attempt on the same code does not succeed: the
    route answers with ALREADY_CONFIRMED whenever the caller is
    authenticated and the lookup is answered. *)
Theorem confirm_at_most_once :
  (forall auth code w s,
      nonempty (str_or auth "") = true ->
      nonempty (trim (str_or code "")) = true ->
      hd None (faults w) = None ->
      sales_with_code (db w) (trim (str_or code "")) = [s] ->
      (source s = "CUSTOMER_SCAN" ->
       already_confirmed s = true ->
       response (scan_confirm_POST auth code w) = Ok ALREADY_CONFIRMED
       /\ db (world_after (scan_confirm_POST auth code w)) = db w)
      /\ (source s <> "CUSTOMER_SCAN" ->
          response (scan_confirm_POST auth code w) = Ok NOT_SCAN_SOURCE
          /\ db (world_after (scan_confirm_POST auth code w)) = db w))
  /\ (forall auth code w w1,
        scan_confirm_POST auth code w = (Ok (json OkBody 200), w1) ->
        forall auth2 code2 w2,
          db w2 = db w1 ->
          trim (str_or code2 "") = trim (str_or code "") ->
          ~ is_success (response (scan_confirm_POST auth2 code2 w2))
          /\ db (world_after (scan_confirm_POST auth2 code2 w2)) = db w2
          /\ (nonempty (str_or auth2 "") = true ->
              hd None (faults w2) = None ->
              response (scan_confirm_POST auth2 code2 w2) = Ok ALREADY_CONFIRMED)).
Proof.
  split.
  - intros auth code w s Hu Hc Hf Hs. split.
    + intros Hsrc Ha.
      destruct (confirm_on_confirmed auth code w s Hs Hsrc Ha) as (_ & Hdb & Hr).
      split; [apply Hr; assumption|exact Hdb].
    + intros Hsrc. rewrite (confirm_found auth code w s Hu Hc Hf Hs).
      apply String.eqb_neq in Hsrc. rewrite Hsrc. simpl. auto.
  - intros auth code w w1 H auth2 code2 w2 Hdb Hcode.
    apply confirm_success_inv in H.
    destruct H as (uid & s & Ha & Hu & Hc & Hs & Hsrc & Hnot & Hdb1).
    assert (Hs2 : sales_with_code (db w2) (trim (str_or code2 ""))
                  = [apply_update (confirmation uid) s]).
    { rewrite Hdb, Hdb1, Hcode. unfold sales_with_code, with_sales. simpl.
      rewrite filter_map_same.
      - fold (sales_with_code (db w) (trim (str_or code ""))). rewrite Hs.
        simpl. rewrite Z.eqb_refl. reflexivity.
      - intros r. destruct (id r =? id s); reflexivity. }
    destruct (confirm_on_confirmed auth2 code2 w2 _ Hs2 Hsrc eq_refl)
      as (Hno & Hsame & Hr).
    repeat split; auto.
    intros Hu2 Hf2. apply Hr; auto. rewrite Hcode. exact Hc.
Qed.

(** ** The retry loop *)

Lemma attempt_codes_length rnd from n : length (attempt_codes rnd from n) = n.
Proof. revert from. induction n; intros; simpl; [reflexivity|]. rewrite IHn. reflexivity. Qed.

Lemma scan_row_carries_code pm momo : carries_code (scan_row pm momo).
Proof. intros c. reflexivity. Qed.

Lemma manual_row_carries_code uid pm momo : carries_code (manual_row uid pm momo).
Proof. intros c. reflexivity. Qed.

Lemma attempt_rejected row items pm n lastErr w m rest :
  carries_code row ->
  faults w = Some m :: rest ->
  create_attempts row items pm (S n) lastErr w =
    if isDup m
    then create_attempts row items pm n (Some m) (collided 1 rest w)
    else (Ok (error_json m 400), collided 1 rest w).
Proof.
  intros Hrow Hf. cbn [create_attempts]. unfold bind at 1. cbn [Math_random].
  unfold insert_sale, bind, storage. cbn [faults db random draws trace].
  rewrite Hf. cbn [hd tl]. unfold collided. cbn [attempt_codes map].
  replace (draws w + 1)%nat with (S (draws w)) by lia.
  rewrite Hrow.
  destruct (isDup m); reflexivity.
Qed.

Lemma last_cons_default {A} (l : list A) (a d : A) :
  List.last (a :: l) d = List.last l a.
Proof.
  revert a d. induction l as [|b l IH]; intros a d; [reflexivity|].
  change (List.last (a :: b :: l) d) with (List.last (b :: l) d).
  rewrite (IH b d), (IH b a). reflexivity.
Qed.

Lemma attempts_skip msgs :
  Forall (fun m => isDup m = true) msgs ->
  forall row items pm n lastErr w rest,
    carries_code row ->
    faults w = (map Some msgs ++ rest)%list ->
    create_attempts row items pm (length msgs + n) lastErr w =
      create_attempts row items pm n (List.last (map Some msgs) lastErr)
        (collided (length msgs) rest w).
Proof.
  induction 1 as [|m msgs Hm _ IH]; intros row items pm n lastErr w rest Hrow Hf.
  - simpl in *. f_equal. unfold collided. destruct w; simpl in *. subst.
    f_equal; [lia|symmetry; apply app_nil_r].
  - simpl length. simpl Nat.add.
    rewrite (attempt_rejected row items pm _ lastErr w m (map Some msgs ++ rest) Hrow Hf).
    rewrite Hm.
    rewrite (IH row items pm n (Some m) (collided 1 (map Some msgs ++ rest) w) rest Hrow eq_refl).
    f_equal.
    + symmetry. apply last_cons_default.
    + unfold collided. simpl. f_equal; [lia|].
      rewrite <- app_assoc. simpl. do 3 f_equal. f_equal. lia.
Qed.

Lemma attempt_codes_app rnd from k j :
  attempt_codes rnd from (k + j) =
    (attempt_codes rnd from k ++ attempt_codes rnd (from + k) j)%list.
Proof.
  revert from. induction k as [|k IH]; intros from; simpl.
  - f_equal. lia.
  - rewrite IH. do 3 f_equal. lia.
Qed.

Lemma collided_collided k j rest1 rest2 w :
  collided j rest2 (collided k rest1 w) = collided (k + j) rest2 w.
Proof.
  unfold collided. simpl. f_equal; [lia|].
  rewrite attempt_codes_app, map_app, <- app_assoc. reflexivity.
Qed.

(** [k] collisions exhaust a loop of [k] iterations. *)
Lemma attempts_exhausted msgs row items pm lastErr w rest :
  Forall (fun m => isDup m = true) msgs ->
  carries_code row ->
  faults w = (map Some msgs ++ rest)%list ->
  create_attempts row items pm (length msgs) lastErr w =
    (Ok (RETRY_EXHAUSTED (List.last (map Some msgs) lastErr)),
     collided (length msgs) rest w).
Proof.
  intros Hd Hrow Hf.
  rewrite <- (Nat.add_0_r (length msgs)) at 1.
  rewrite (attempts_skip msgs Hd row items pm 0 lastErr w rest Hrow Hf).
  reflexivity.
Qed.

(** A rejection that is not a collision ends the loop at once. *)
Lemma attempts_aborted msgs m row items pm n lastErr w rest :
  Forall (fun m => isDup m = true) msgs ->
  isDup m = false ->
  carries_code row ->
  faults w = (map Some msgs ++ Some m :: rest)%list ->
  create_attempts row items pm (length msgs + S n) lastErr w =
    (Ok (error_json m 400), collided (length msgs + 1) rest w).
Proof.
  intros Hd Hm Hrow Hf.
  rewrite (attempts_skip msgs Hd row items pm (S n) lastErr w _ Hrow Hf).
  rewrite (attempt_rejected row items pm n _
             (collided (length msgs) (Some m :: rest) w) m rest Hrow eq_refl).
  rewrite Hm. rewrite collided_collided. reflexivity.
Qed.

(** ** Reaching the loop *)

Lemma scan_create_enters_loop b w s :
  parse_items b <> [] ->
  maybeSingle (settings_rows (db w)) = Data s ->
  scan_disabled s = false ->
  hd None (faults w) = None ->
  hd None (tl (faults w)) = None ->
  scan_create_POST b w =
    try_catch (scan_loop b (db w)) scan_catch
      (called (SelectProducts (ids_of b)) (called SelectSettings w)).
Proof.
  intros Hne Hs Hd Hf1 Hf2. unfold scan_create_POST, try_catch at 1.
  destruct (Nat.eqb (length (parse_items b)) 0) eqn:E.
  { apply length_zero_nil in E. contradiction. }
  unfold select_settings.
  erewrite bind_ok by (apply storage_ok; assumption).
  unfold read; cbn [fst snd]. rewrite Hs, Hd.
  unfold select_products.
  erewrite bind_ok by (apply storage_ok; assumption).
  unfold read; cbn [fst snd]. reflexivity.
Qed.

Lemma pos_create_enters_loop auth b w :
  nonempty (str_or auth "") = true ->
  parse_items b <> [] ->
  hd None (faults w) = None ->
  pos_create_POST auth b w =
    try_catch (pos_loop (str_or auth "") b (db w)) pos_catch
      (called (SelectProducts (ids_of b)) w).
Proof.
  intros Hu Hne Hf. unfold pos_create_POST, try_catch at 1. rewrite Hu. cbn [negb].
  destruct (Nat.eqb (length (parse_items b)) 0) eqn:E.
  { apply length_zero_nil in E. contradiction. }
  unfold select_products.
  erewrite bind_ok by (apply storage_ok; assumption).
  unfold read; cbn [fst snd]. reflexivity.
Qed.

(** C2.  When every insert of a sale is rejected with a uniqueness
    violation, both create routes make exactly six attempts, each with a
    freshly generated code, and then fail with RETRY_EXHAUSTED, which
    carries the message of the last rejection; the database is unchanged.
    A rejection that is not a uniqueness violation ends the loop at that
    attempt and its message is the error of the response. *)
Theorem retry_bound (msgs : list string) (rest : list (option string)) :
  Forall (fun m => isDup m = true) msgs ->
  (length msgs = MAX_ATTEMPTS ->
   (forall b w s,
       parse_items b <> [] ->
       maybeSingle (settings_rows (db w)) = Data s ->
       scan_disabled s = false ->
       faults w = None :: None :: (map Some msgs ++ rest)%list ->
       response (scan_create_POST b w) =
         Ok (RETRY_EXHAUSTED (List.last (map Some msgs) None))
       /\ retried 6 [SelectSettings; SelectProducts (ids_of b)] w
            (world_after (scan_create_POST b w)))
   /\ (forall auth b w,
         nonempty (str_or auth "") = true ->
         parse_items b <> [] ->
         faults w = None :: (map Some msgs ++ rest)%list ->
         response (pos_create_POST auth b w) =
           Ok (RETRY_EXHAUSTED (List.last (map Some msgs) None))
         /\ retried 6 [SelectProducts (ids_of b)] w
              (world_after (pos_create_POST auth b w))))
  /\ (forall m,
        (length msgs < MAX_ATTEMPTS)%nat ->
        isDup m = false ->
        (forall b w s,
            parse_items b <> [] ->
            maybeSingle (settings_rows (db w)) = Data s ->
            scan_disabled s = false ->
            faults w = None :: None :: (map Some msgs ++ Some m :: rest)%list ->
            response (scan_create_POST b w) = Ok (error_json m 400)
            /\ retried (length msgs + 1) [SelectSettings; SelectProducts (ids_of b)] w
                 (world_after (scan_create_POST b w)))
        /\ (forall auth b w,
              nonempty (str_or auth "") = true ->
              parse_items b <> [] ->
              faults w = None :: (map Some msgs ++ Some m :: rest)%list ->
              response (pos_create_POST auth b w) = Ok (error_json m 400)
              /\ retried (length msgs + 1) [SelectProducts (ids_of b)] w
                   (world_after (pos_create_POST auth b w)))).
Proof.
  intros Hd. split.
  - intros Hlen. split.
    + intros b w s Hne Hs Hen Hf.
      rewrite (scan_create_enters_loop b w s Hne Hs Hen)
        by (rewrite Hf; reflexivity).
      unfold try_catch, scan_loop. rewrite <- Hlen.
      rewrite (attempts_exhausted msgs _ _ _ None _ rest Hd)
        by (try apply scan_row_carries_code; simpl; rewrite Hf; reflexivity).
      rewrite Hlen. unfold retried, called, collided, response, world_after; simpl.
      rewrite <- !app_assoc. auto.
    + intros auth b w Hu Hne Hf.
      rewrite (pos_create_enters_loop auth b w Hu Hne)
        by (rewrite Hf; reflexivity).
      unfold try_catch, pos_loop. rewrite <- Hlen.
      rewrite (attempts_exhausted msgs _ _ _ None _ rest Hd)
        by (try apply manual_row_carries_code; simpl; rewrite Hf; reflexivity).
      rewrite Hlen. unfold retried, called, collided, response, world_after; simpl.
      rewrite <- !app_assoc. auto.
  - intros m Hlen Hm.
    assert (E : MAX_ATTEMPTS = (length msgs + S (MAX_ATTEMPTS - length msgs - 1))%nat) by lia.
    split.
    + intros b w s Hne Hs Hen Hf.
      rewrite (scan_create_enters_loop b w s Hne Hs Hen)
        by (rewrite Hf; reflexivity).
      unfold try_catch, scan_loop. rewrite E.
      rewrite (attempts_aborted msgs m _ _ _ _ None _ rest Hd Hm)
        by (try apply scan_row_carries_code; simpl; rewrite Hf; reflexivity).
      unfold retried, called, collided, response, world_after; simpl.
      rewrite <- !app_assoc. auto.
    + intros auth b w Hu Hne Hf.
      rewrite (pos_create_enters_loop auth b w Hu Hne)
        by (rewrite Hf; reflexivity).
      unfold try_catch, pos_loop. rewrite E.
      rewrite (attempts_aborted msgs m _ _ _ _ None _ rest Hd Hm)
        by (try apply manual_row_carries_code; simpl; rewrite Hf; reflexivity).
      unfold retried, called, collided, response, world_after; simpl.
      rewrite <- !app_assoc. auto.
Qed.

(** ** Prices and payloads *)

Lemma priceMap_fold_lookup rows : forall (m : gmap string number) k v,
  fold_left (fun m r => <[prod_id r := price_number r]> m) rows m !! k = Some v ->
  (exists p, In p rows /\ prod_id p = k /\ v = price_number p) \/ m !! k = Some v.
Proof.
  induction rows as [|r rows IH]; intros m k v H; simpl in H; [right; exact H|].
  apply IH in H. destruct H as [(p & Hp & E1 & E2)|H].
  - left. exists p. split; [right; exact Hp|auto].
  - destruct (decide (prod_id r = k)) as [E|E].
    + subst k. rewrite lookup_insert_eq in H. injection H as <-.
      left. exists r. split; [left; reflexivity|auto].
    + rewrite lookup_insert_ne in H by exact E. right. exact H.
Qed.

Lemma build_priceMap_Some rows k v :
  build_priceMap rows !! k = Some v ->
  exists p, In p rows /\ prod_id p = k /\ v = price_number p.
Proof.
  intros H. apply priceMap_fold_lookup in H. destruct H as [H|H]; [exact H|].
  rewrite lookup_empty in H. discriminate.
Qed.

Lemma priceMap_of_Some b d k v :
  priceMap_of b d !! k = Some v ->
  exists p, In p (products d) /\ prod_id p = k /\ v = price_number p.
Proof.
  intros H. apply build_priceMap_Some in H. destruct H as (p & Hp & E1 & E2).
  apply List.filter_In in Hp. exists p. tauto.
Qed.

Lemma priceMap_of_None b d k :
  (forall p, In p (products d) -> prod_id p <> k) ->
  priceMap_of b d !! k = None.
Proof.
  intros H. destruct (priceMap_of b d !! k) as [v|] eqn:E; [|reflexivity].
  apply priceMap_of_Some in E. destruct E as (p & Hp & E1 & _).
  exfalso. exact (H p Hp E1).
Qed.

Lemma first_missing_exists pm items it :
  In it items -> pm !! pid it = None ->
  exists it', first_missing pm items = Some it'.
Proof.
  intros Hin Hm. destruct (first_missing pm items) as [it'|] eqn:E; [eauto|].
  unfold first_missing in E. apply (List.find_none _ _ E) in Hin.
  rewrite Hm in Hin. discriminate.
Qed.

Lemma first_missing_Some pm items it :
  first_missing pm items = Some it ->
  In it items /\ pm !! pid it = None.
Proof.
  intros H. apply List.find_some in H. destruct H as [Hin H]. split; [exact Hin|].
  destruct (pm !! pid it); [discriminate|reflexivity].
Qed.

Lemma build_payload_missing sid pm items it :
  first_missing pm items = Some it ->
  build_payload sid pm items = Thrown ("Missing price for product " +:+ pid it).
Proof.
  unfold first_missing. induction items as [|x items IH]; simpl; [discriminate|].
  fold pid. destruct (pm !! pid x) as [unit|] eqn:E.
  - intros H. rewrite (IH H). reflexivity.
  - intros H. injection H as <-. reflexivity.
Qed.

Lemma build_payload_Ok sid pm items rows :
  build_payload sid pm items = Ok rows ->
  Forall (fun r => exists it unit,
            In it items /\ pm !! pid it = Some unit /\ r = item_row sid it unit) rows.
Proof.
  revert rows. induction items as [|x items IH]; simpl; intros rows H.
  - injection H as <-. constructor.
  - fold pid in H. destruct (pm !! pid x) as [unit|] eqn:E; [|discriminate].
    destruct (build_payload sid pm items) as [rows'|e]; [|discriminate].
    injection H as <-. constructor.
    + exists x, unit. split; [left; reflexivity|auto].
    + specialize (IH rows' eq_refl). eapply List.Forall_impl; [|exact IH].
      intros r (it & u & Hin & Hu & Hr). exists it, u. split; [right; exact Hin|auto].
Qed.

(** ** One attempt whose insert goes through *)

Lemma attempt_inserted row items pm n lastErr w :
  carries_code row ->
  hd None (faults w) = None ->
  create_attempts row items pm (S n) lastErr w =
    match build_payload (next_id (db w)) pm items with
    | Thrown e => (Thrown e, inserted row w)
    | Ok payload =>
        (let! written := insert_items payload in
         match written with
         | DbError message => ret (ITEMS_INSERT_FAILED message)
         | Data _ => ret (json (CodeBody (genCode (random w (draws w)))) 200)
         end) (inserted row w)
    end.
Proof.
  intros Hrow Hf. cbn [create_attempts]. unfold bind at 1. cbn [Math_random].
  unfold insert_sale. unfold bind at 1. unfold storage at 1.
  cbn [faults db random draws trace]. rewrite Hf. rewrite Hrow.
  cbn [id new_sale public_code]. rewrite Hrow.
  unfold inserted. cbn [new_sale].
  destruct (build_payload (next_id (db w)) pm items); reflexivity.
Qed.

Lemma attempt_rejected_hd row items pm n lastErr w m :
  hd None (faults w) = Some m ->
  create_attempts row items pm (S n) lastErr w =
    if isDup m
    then create_attempts row items pm n (Some m)
           (called (InsertSale (ins_public_code (row (genCode (random w (draws w))))))
              (Math_random w).2)
    else (Ok (error_json m 400),
          called (InsertSale (ins_public_code (row (genCode (random w (draws w))))))
            (Math_random w).2).
Proof.
  intros Hf. cbn [create_attempts]. unfold bind at 1. cbn [Math_random].
  unfold insert_sale, bind, storage. cbn [faults db random draws trace].
  rewrite Hf. unfold called. cbn [faults db random draws trace snd].
  destruct (isDup m); reflexivity.
Qed.

Lemma attempt_inserted_hd row items pm n lastErr w :
  hd None (faults w) = None ->
  exists w1,
    sale_items (db w1) = sale_items (db w)
    /\ create_attempts row items pm (S n) lastErr w =
       match build_payload (next_id (db w)) pm items with
       | Thrown e => (Thrown e, w1)
       | Ok payload =>
           (let! written := insert_items payload in
            match written with
            | DbError message => ret (ITEMS_INSERT_FAILED message)
            | Data _ =>
                ret (json (CodeBody (ins_public_code (row (genCode (random w (draws w)))))) 200)
            end) w1
       end.
Proof.
  intros Hf. eexists. split; cycle 1.
  - cbn [create_attempts]. unfold bind at 1. cbn [Math_random].
    unfold insert_sale. unfold bind at 1. unfold storage at 1.
    cbn [faults db random draws trace]. rewrite Hf.
    cbn [id new_sale public_code].
    destruct (build_payload (next_id (db w)) pm items); reflexivity.
  - reflexivity.
Qed.

Lemma attempts_missing row items pm it :
  first_missing pm items = Some it ->
  forall n lastErr w,
    same_items w (snd (create_attempts row items pm n lastErr w))
    /\ match fst (create_attempts row items pm n lastErr w) with
       | Ok resp => http_status resp = 400
       | Thrown e => e = "Missing price for product " +:+ pid it
       end.
Proof.
  intros Hm. induction n as [|n IH]; intros lastErr w.
  - simpl. split; reflexivity.
  - destruct (hd None (faults w)) as [msg|] eqn:Hf.
    + rewrite (attempt_rejected_hd row items pm n lastErr w msg Hf).
      destruct (isDup msg); [|split; reflexivity].
      match goal with |- context [create_attempts _ _ _ n ?l ?w'] =>
        destruct (IH l w') as [I1 I2] end.
      split; [exact I1|exact I2].
    + destruct (attempt_inserted_hd row items pm n lastErr w Hf) as (w1 & E1 & E2).
      rewrite E2, (build_payload_missing _ pm items it Hm). split; [exact E1|reflexivity].
Qed.

Lemma distinct_fold_elem (l : list string) : forall (acc : list string) x,
  x ∈ fold_left (fun (acc : list string) x =>
                   if bool_decide (x ∈ acc) then acc else (acc ++ [x])%list) l acc
  <-> x ∈ acc \/ x ∈ l.
Proof.
  induction l as [|a l IH]; intros acc x; simpl.
  - split; [auto|]. intros [H|H]; [exact H|]. inversion H.
  - rewrite IH. destruct (bool_decide (a ∈ acc)) eqn:E.
    + apply bool_decide_eq_true in E. rewrite elem_of_cons. split.
      * intros [H|H]; auto.
      * intros [H|[->|H]]; auto.
    + rewrite elem_of_app, !elem_of_cons, elem_of_nil. tauto.
Qed.

Lemma distinct_elem (l : list string) x : x ∈ distinct l <-> x ∈ l.
Proof.
  unfold distinct. rewrite distinct_fold_elem. split; [|auto].
  intros [H|H]; [inversion H|exact H].
Qed.

Lemma priceMap_fold_keeps rows : forall (m : gmap string number) k,
  is_Some (m !! k) ->
  is_Some (fold_left (fun m r => <[prod_id r := price_number r]> m) rows m !! k).
Proof.
  induction rows as [|a rows IH]; intros m k H; simpl; [exact H|].
  apply IH. destruct (decide (prod_id a = k)) as [->|N].
  - rewrite lookup_insert_eq. eauto.
  - rewrite lookup_insert_ne by exact N. exact H.
Qed.

Lemma priceMap_fold_None rows : forall (m : gmap string number) k,
  fold_left (fun m r => <[prod_id r := price_number r]> m) rows m !! k = None ->
  forall p, In p rows -> prod_id p <> k.
Proof.
  induction rows as [|r rows IH]; intros m k H p Hp; [destruct Hp|].
  simpl in H. destruct Hp as [<-|Hp]; [|exact (IH _ _ H p Hp)].
  intros E. subst k.
  destruct (priceMap_fold_keeps rows (<[prod_id r := price_number r]> m) (prod_id r))
    as [v Hv].
  - rewrite lookup_insert_eq. eauto.
  - rewrite Hv in H. discriminate.
Qed.

(** A product id of the request has a price exactly when [products] has a
    row for it. *)
Lemma priceMap_of_None_inv b d it :
  In it (parse_items b) ->
  priceMap_of b d !! pid it = None ->
  forall p, In p (products d) -> prod_id p <> pid it.
Proof.
  intros Hin H p Hp E.
  apply (priceMap_fold_None _ _ _ H p); [|exact E].
  unfold products_in. apply List.filter_In. split; [exact Hp|].
  apply bool_decide_eq_true. unfold ids_of. apply distinct_elem.
  rewrite E. apply list_elem_of_In. apply in_map. exact Hin.
Qed.

Lemma find_split {A} (f : A -> bool) (l : list A) (x : A) :
  List.find f l = Some x ->
  exists l1 l2,
    l = (l1 ++ x :: l2)%list /\ (forall y, In y l1 -> f y = false) /\ f x = true.
Proof.
  induction l as [|a l IH]; simpl; [discriminate|].
  destruct (f a) eqn:E.
  - intros H. injection H as <-. exists [], l. split; [reflexivity|].
    split; [intros y []|exact E].
  - intros H. destruct (IH H) as (l1 & l2 & -> & H1 & H2).
    exists (a :: l1), l2. split; [reflexivity|]. split; [|exact H2].
    intros y [<- | Hy]; [exact E|exact (H1 y Hy)].
Qed.

(** The item the payload stops at is the first one without a product row. *)
Lemma first_missing_first b d it :
  first_missing (priceMap_of b d) (parse_items b) = Some it ->
  first_without_row d (parse_items b) it.
Proof.
  intros Hm. destruct (first_missing_Some _ _ _ Hm) as [Hin Hnone].
  unfold first_missing in Hm. apply find_split in Hm.
  destruct Hm as (before & after & E & Hb & _).
  exists before, after. split; [exact E|]. split.
  - intros x Hx. specialize (Hb x Hx). cbv beta in Hb.
    destruct (priceMap_of b d !! pid x) as [v|] eqn:Ev; [|discriminate].
    apply priceMap_of_Some in Ev. destruct Ev as (p & Hp & Ep & _).
    exists p. split; [exact Hp|exact Ep].
  - exact (priceMap_of_None_inv b d it Hin Hnone).
Qed.

Lemma scan_create_read_rejected b w m :
  parse_items b <> [] ->
  hd None (faults w) = Some m ->
  scan_create_POST b w = (Ok (error_json m 400), called SelectSettings w).
Proof.
  intros Hne Hf. unfold scan_create_POST, try_catch.
  destruct (Nat.eqb (length (parse_items b)) 0) eqn:E.
  { apply length_zero_nil in E. contradiction. }
  unfold select_settings.
  erewrite bind_ok by (apply storage_rejected; eassumption). reflexivity.
Qed.

Lemma scan_create_settings_error b w m :
  parse_items b <> [] ->
  hd None (faults w) = None ->
  maybeSingle (settings_rows (db w)) = DbError m ->
  scan_create_POST b w = (Ok (error_json m 400), called SelectSettings w).
Proof.
  intros Hne Hf Hs. unfold scan_create_POST, try_catch.
  destruct (Nat.eqb (length (parse_items b)) 0) eqn:E.
  { apply length_zero_nil in E. contradiction. }
  unfold select_settings.
  erewrite bind_ok by (apply storage_ok; assumption).
  unfold read; cbn [fst snd]. rewrite Hs. reflexivity.
Qed.

Lemma scan_create_prices_rejected b w s m :
  parse_items b <> [] ->
  maybeSingle (settings_rows (db w)) = Data s ->
  scan_disabled s = false ->
  hd None (faults w) = None ->
  hd None (tl (faults w)) = Some m ->
  scan_create_POST b w =
    (Ok (error_json ("price lookup failed: " +:+ m) 400),
     called (SelectProducts (ids_of b)) (called SelectSettings w)).
Proof.
  intros Hne Hs Hd Hf1 Hf2. unfold scan_create_POST, try_catch.
  destruct (Nat.eqb (length (parse_items b)) 0) eqn:E.
  { apply length_zero_nil in E. contradiction. }
  unfold select_settings.
  erewrite bind_ok by (apply storage_ok; assumption).
  unfold read; cbn [fst snd]. rewrite Hs, Hd.
  unfold select_products.
  erewrite bind_ok by (apply storage_rejected; eassumption). reflexivity.
Qed.

Lemma pos_create_unauthorized auth b w :
  nonempty (str_or auth "") = false ->
  pos_create_POST auth b w = (Ok UNAUTHORIZED, w).
Proof.
  intros Hu. unfold pos_create_POST, try_catch. rewrite Hu. reflexivity.
Qed.

Lemma pos_create_prices_rejected auth b w m :
  nonempty (str_or auth "") = true ->
  parse_items b <> [] ->
  hd None (faults w) = Some m ->
  pos_create_POST auth b w =
    (Ok (error_json m 400), called (SelectProducts (ids_of b)) w).
Proof.
  intros Hu Hne Hf. unfold pos_create_POST, try_catch. rewrite Hu. cbn [negb].
  destruct (Nat.eqb (length (parse_items b)) 0) eqn:E.
  { apply length_zero_nil in E. contradiction. }
  unfold select_products.
  erewrite bind_ok by (apply storage_rejected; eassumption). reflexivity.
Qed.

(** The loop under [try]/[catch] when a price is missing. *)
Lemma loop_missing row items pm it (h : string -> M Response) w :
  first_missing pm items = Some it ->
  (forall e, exists d, h e = ret (error_json (str_or (Some e) d) 500)) ->
  ~ is_success (fst (try_catch (create_attempts row items pm MAX_ATTEMPTS None) h w))
  /\ same_items w (snd (try_catch (create_attempts row items pm MAX_ATTEMPTS None) h w)).
Proof.
  intros Hm Hh. unfold try_catch.
  destruct (attempts_missing row items pm it Hm MAX_ATTEMPTS None w) as [I1 I2].
  destruct (create_attempts row items pm MAX_ATTEMPTS None w) as [[resp|e] w1];
    simpl in *.
  - split; [|exact I1]. intros [bd E]. injection E as ->. discriminate.
  - destruct (Hh e) as [d ->]. simpl. split; [|exact I1].
    intros [bd E]; discriminate.
Qed.

Lemma error_not_success msg st w :
  st <> 200 -> ~ is_success (fst (Ok (error_json msg st), w : World)).
Proof. intros H [bd E]. simpl in E. injection E as E _. congruence. Qed.

Lemma scan_create_missing b w it :
  first_missing (priceMap_of b (db w)) (parse_items b) = Some it ->
  ~ is_success (response (scan_create_POST b w))
  /\ same_items w (world_after (scan_create_POST b w)).
Proof.
  intros Hm. unfold response, world_after.
  assert (Hne : parse_items b <> []).
  { intros E. rewrite E in Hm. discriminate. }
  destruct (hd None (faults w)) as [m|] eqn:Hf1.
  { rewrite (scan_create_read_rejected b w m Hne Hf1).
    split; [apply error_not_success; discriminate|reflexivity]. }
  destruct (maybeSingle (settings_rows (db w))) as [s|m] eqn:Hs.
  2:{ rewrite (scan_create_settings_error b w m Hne Hf1 Hs).
      split; [apply error_not_success; discriminate|reflexivity]. }
  destruct (scan_disabled s) eqn:Hd.
  { rewrite (scan_create_disabled b w s Hne Hf1 Hs Hd).
    split; [apply error_not_success; discriminate|reflexivity]. }
  destruct (hd None (tl (faults w))) as [m|] eqn:Hf2.
  { rewrite (scan_create_prices_rejected b w s m Hne Hs Hd Hf1 Hf2).
    split; [apply error_not_success; discriminate|reflexivity]. }
  rewrite (scan_create_enters_loop b w s Hne Hs Hd Hf1 Hf2).
  unfold scan_loop.
  match goal with |- context [try_catch (create_attempts ?row _ _ _ _) ?h ?w2] =>
    destruct (loop_missing row _ _ it h w2 Hm) as [L1 L2] end.
  { intros e. eexists. reflexivity. }
  split; [exact L1|exact L2].
Qed.

Lemma pos_create_missing auth b w it :
  first_missing (priceMap_of b (db w)) (parse_items b) = Some it ->
  ~ is_success (response (pos_create_POST auth b w))
  /\ same_items w (world_after (pos_create_POST auth b w)).
Proof.
  intros Hm. unfold response, world_after.
  assert (Hne : parse_items b <> []).
  { intros E. rewrite E in Hm. discriminate. }
  destruct (nonempty (str_or auth "")) eqn:Hu.
  2:{ rewrite (pos_create_unauthorized auth b w Hu).
      split; [apply error_not_success; discriminate|reflexivity]. }
  destruct (hd None (faults w)) as [m|] eqn:Hf1.
  { rewrite (pos_create_prices_rejected auth b w m Hu Hne Hf1).
    split; [apply error_not_success; discriminate|reflexivity]. }
  rewrite (pos_create_enters_loop auth b w Hu Hne Hf1).
  unfold pos_loop.
  match goal with |- context [try_catch (create_attempts ?row _ _ _ _) ?h ?w2] =>
    destruct (loop_missing row _ _ it h w2 Hm) as [L1 L2] end.
  { intros e. eexists. reflexivity. }
  split; [exact L1|exact L2].
Qed.

(** The first attempt when the insert goes through and a price is missing:
    the exception leaves the inserted sale behind. *)
Lemma loop_orphan row items pm it h w :
  carries_code row ->
  first_missing pm items = Some it ->
  hd None (faults w) = None ->
  try_catch (create_attempts row items pm MAX_ATTEMPTS None) h w =
    h ("Missing price for product " +:+ pid it) (inserted row w).
Proof.
  intros Hrow Hm Hf. unfold try_catch, MAX_ATTEMPTS.
  rewrite (attempt_inserted row items pm _ None w Hrow Hf).
  rewrite (build_payload_missing _ pm items it Hm). reflexivity.
Qed.

(** C4 (amended).  A create request with a valid item whose product has no
    row in [products] never succeeds and writes no [sale_items] row,
    whatever the storage layer answers.  When the storage layer accepts the
    calls, the routes fail with MISSING_PRODUCT for the first such item (the
    items before it in the request all have a product row), and the sale
    inserted just before the prices were looked at stays in [sales],
    without items. *)
Theorem missing_product (b : CreateBody) (it : SaleItemInput.t) (w : World) :
  In it (parse_items b) ->
  (forall p, In p (products (db w)) -> prod_id p <> pid it) ->
  (~ is_success (response (scan_create_POST b w))
   /\ sale_items (db (world_after (scan_create_POST b w))) = sale_items (db w)
   /\ (forall s,
         maybeSingle (settings_rows (db w)) = Data s ->
         scan_disabled s = false ->
         hd None (faults w) = None ->
         hd None (tl (faults w)) = None ->
         hd None (tl (tl (faults w))) = None ->
         exists it',
           first_without_row (db w) (parse_items b) it'
           /\ response (scan_create_POST b w) = Ok (MISSING_PRODUCT (pid it'))
           /\ sales (db (world_after (scan_create_POST b w))) =
                (sales (db w)
                 ++ [new_sale (db w)
                       (scan_row (parse_payment_method b) (parse_momo_reference b)
                          (genCode (random w (draws w))))])%list))
  /\ (forall auth,
        ~ is_success (response (pos_create_POST auth b w))
        /\ sale_items (db (world_after (pos_create_POST auth b w))) = sale_items (db w)
        /\ (nonempty (str_or auth "") = true ->
            hd None (faults w) = None ->
            hd None (tl (faults w)) = None ->
            exists it',
              first_without_row (db w) (parse_items b) it'
              /\ response (pos_create_POST auth b w) = Ok (MISSING_PRODUCT (pid it'))
              /\ sales (db (world_after (pos_create_POST auth b w))) =
                   (sales (db w)
                    ++ [new_sale (db w)
                          (manual_row (str_or auth "") (parse_payment_method b)
                             (parse_momo_reference b)
                             (genCode (random w (draws w))))])%list)).
Proof.
  intros Hin Hno.
  destruct (first_missing_exists (priceMap_of b (db w)) (parse_items b) it Hin
              (priceMap_of_None b (db w) _ Hno)) as [it' Hm].
  pose proof (first_missing_first b (db w) it' Hm) as Hfirst.
  assert (Hne : parse_items b <> []).
  { intros E. rewrite E in Hin. destruct Hin. }
  split.
  - destruct (scan_create_missing b w it' Hm) as [S1 S2].
    split; [exact S1|]. split; [exact S2|].
    intros s Hs Hd Hf1 Hf2 Hf3. exists it'. split; [exact Hfirst|].
    rewrite (scan_create_enters_loop b w s Hne Hs Hd Hf1 Hf2).
    unfold scan_loop.
    rewrite (loop_orphan _ _ _ it' _ _ (scan_row_carries_code _ _) Hm) by exact Hf3.
    split; reflexivity.
  - intros auth.
    destruct (pos_create_missing auth b w it' Hm) as [S1 S2].
    split; [exact S1|]. split; [exact S2|].
    intros Hu Hf1 Hf2. exists it'. split; [exact Hfirst|].
    rewrite (pos_create_enters_loop auth b w Hu Hne Hf1).
    unfold pos_loop.
    rewrite (loop_orphan _ _ _ it' _ _ (manual_row_carries_code _ _ _) Hm) by exact Hf2.
    split; reflexivity.
Qed.

(** ** Binary64 rounding *)

Lemma digits2_bounds (m : positive) :
  2 ^ (Zpos (digits2_pos m) - 1) <= Zpos m < 2 ^ Zpos (digits2_pos m).
Proof.
  induction m as [m IH|m IH|]; simpl digits2_pos.
  - rewrite Pos2Z.inj_succ.
    replace (Z.succ (Zpos (digits2_pos m)) - 1) with (Z.succ (Zpos (digits2_pos m) - 1)) by lia.
    rewrite !Z.pow_succ_r by lia. lia.
  - rewrite Pos2Z.inj_succ.
    replace (Z.succ (Zpos (digits2_pos m)) - 1) with (Z.succ (Zpos (digits2_pos m) - 1)) by lia.
    rewrite !Z.pow_succ_r by lia. lia.
  - simpl. lia.
Qed.

Lemma Zdigits2_bounds (z : Z) :
  0 < z -> 2 ^ (Zdigits2 z - 1) <= z < 2 ^ Zdigits2 z.
Proof. destruct z; try lia. intros _. apply digits2_bounds. Qed.

Lemma Zdigits2_pos (z : Z) : 0 < z -> 0 < Zdigits2 z.
Proof. destruct z; simpl; lia. Qed.

(** A positive number below [2 ^ k] has at most [k] digits. *)
Lemma Zdigits2_le (z k : Z) : 0 < z -> z < 2 ^ k -> Zdigits2 z <= k.
Proof.
  intros Hz Hk. pose proof (Zdigits2_bounds z Hz) as [L _].
  pose proof (Zdigits2_pos z Hz).
  destruct (Z_lt_le_dec k (Zdigits2 z)) as [C|C]; [|exact C]. exfalso.
  assert (0 <= k).
  { destruct (Z_lt_le_dec k 0) as [N|N]; [|exact N].
    rewrite Z.pow_neg_r in Hk by exact N. lia. }
  assert (2 ^ k <= 2 ^ (Zdigits2 z - 1)) by (apply Z.pow_le_mono_r; lia).
  lia.
Qed.

Lemma iter_pos_nat {A} (f : A -> A) (p : positive) (x : A) :
  SpecFloat.iter_pos f p x = Nat.iter (Pos.to_nat p) f x.
Proof.
  revert x. induction p as [p IH|p IH|]; intros x; cbn [SpecFloat.iter_pos].
  - rewrite !IH, Pos2Nat.inj_xI. rewrite <- Nat.iter_succ_r, <- Nat.iter_add.
    f_equal. lia.
  - rewrite !IH, Pos2Nat.inj_xO. rewrite <- Nat.iter_add. f_equal. lia.
  - reflexivity.
Qed.

Lemma shr_1_nonneg (mrs : shr_record) :
  0 <= shr_m mrs ->
  shr_1 mrs =
    {| shr_m := shr_m mrs / 2; shr_r := Z.odd (shr_m mrs);
       shr_s := shr_r mrs || shr_s mrs |}.
Proof.
  destruct mrs as [m r s]. simpl. intros Hm.
  destruct m as [|p|p]; [reflexivity| |lia].
  destruct p; rewrite <- Z.div2_div; reflexivity.
Qed.

(** [k] one-bit shifts of an exact non-negative mantissa: the quotient by
    [2 ^ k], with both location bits clear exactly when nothing was lost. *)
Lemma shr_iter (M : Z) (k : nat) :
  0 <= M ->
  let mrs := Nat.iter k shr_1 {| shr_m := M; shr_r := false; shr_s := false |} in
  shr_m mrs = M / 2 ^ Z.of_nat k
  /\ (shr_r mrs || shr_s mrs = false <-> M mod 2 ^ Z.of_nat k = 0).
Proof.
  intros HM. induction k as [|k IH]; cbv zeta in *.
  - simpl. rewrite Z.div_1_r, Z.mod_1_r. tauto.
  - rewrite Nat.iter_succ. destruct IH as [I1 I2].
    set (mrs := Nat.iter k shr_1 _) in *.
    assert (P : 0 < 2 ^ Z.of_nat k) by (apply Z.pow_pos_nonneg; lia).
    rewrite shr_1_nonneg by (rewrite I1; apply Z.div_pos; lia).
    cbn [shr_m shr_r shr_s]. rewrite I1.
    rewrite Nat2Z.inj_succ, Z.pow_succ_r by lia.
    rewrite (Z.mul_comm 2).
    split.
    + rewrite Z.div_div by lia. reflexivity.
    + rewrite Z.rem_mul_r by lia.
      pose proof (Z.mod_pos_bound M (2 ^ Z.of_nat k) P).
      pose proof (Z.mod_pos_bound (M / 2 ^ Z.of_nat k) 2 ltac:(lia)).
      rewrite orb_false_iff, I2, Zodd_mod.
      destruct (Z.eqb_spec ((M / 2 ^ Z.of_nat k) mod 2) 1) as [E|E].
      * split; [intros [? ?]; discriminate|nia].
      * split; [intros [_ ->]; nia|]. intros. split; [reflexivity|nia].
Qed.

Lemma fexp_64 (e : Z) : fexp prec emax e = Z.max (e - 53) (-1074).
Proof. reflexivity. Qed.

Lemma target_ge M e : e <= target M e.
Proof. unfold target. lia. Qed.

Lemma shr_fexp_exact (M e : Z) :
  0 <= M ->
  exists mrs,
    shr_fexp prec emax M e loc_Exact = (mrs, target M e)
    /\ shr_m mrs = M / 2 ^ (target M e - e)
    /\ (loc_of_shr_record mrs = loc_Exact <-> M mod 2 ^ (target M e - e) = 0).
Proof.
  intros HM. unfold shr_fexp, target, shr. cbn [shr_record_of_loc].
  set (f := fexp prec emax (Zdigits2 M + e)).
  destruct (f - e) as [|p|p] eqn:En.
  - eexists. split; [f_equal; lia|]. replace (Z.max e f - e) with 0 by lia.
    simpl. rewrite Z.div_1_r, Z.mod_1_r. tauto.
  - eexists. split; [f_equal; lia|]. replace (Z.max e f - e) with (Zpos p) by lia.
    rewrite iter_pos_nat.
    pose proof (shr_iter M (Pos.to_nat p) HM) as [I1 I2].
    rewrite positive_nat_Z in I1, I2. split; [exact I1|].
    rewrite <- I2.
    destruct (Nat.iter _ _ _) as [m [|] [|]]; simpl; split; congruence.
  - eexists. split; [f_equal; lia|]. replace (Z.max e f - e) with 0 by lia.
    simpl. rewrite Z.div_1_r, Z.mod_1_r. tauto.
Qed.

Lemma round_nearest_even_bounds (q : Z) (l : location) :
  q <= round_nearest_even q l <= q + 1
  /\ (l = loc_Exact -> round_nearest_even q l = q).
Proof.
  destruct l as [|[| |]]; simpl; try destruct (Z.even q); split; try lia;
    congruence.
Qed.

(** Rounding an exact positive mantissa: the mantissa is cut at the target
    exponent, going up by at most one, and not at all when nothing is cut
    off. *)
Lemma binary_round_aux_exact (sx : bool) (M E : Z) :
  0 < M ->
  exists q,
    M / 2 ^ (target M E - E) <= q <= M / 2 ^ (target M E - E) + 1
    /\ (M mod 2 ^ (target M E - E) = 0 -> q = M / 2 ^ (target M E - E))
    /\ binary_round_aux prec emax sx M E loc_Exact = pack sx q (target M E).
Proof.
  intros HM. unfold binary_round_aux.
  destruct (shr_fexp_exact M E ltac:(lia)) as (mrs & -> & Hm & Hl).
  set (q := round_nearest_even (shr_m mrs) (loc_of_shr_record mrs)).
  destruct (round_nearest_even_bounds (shr_m mrs) (loc_of_shr_record mrs)) as [B1 B2].
  fold q in B1, B2. rewrite Hm in B1, B2.
  assert (Hq : 0 <= q).
  { assert (0 <= M / 2 ^ (target M E - E)); [|lia].
    apply Z.div_pos; [lia|]. apply Z.pow_pos_nonneg; [lia|].
    pose proof (target_ge M E). lia. }
  destruct (shr_fexp_exact q (target M E) Hq) as (mrs2 & -> & Hm2 & _).
  exists q. split; [exact B1|]. split.
  - intros H0. apply B2. apply Hl. exact H0.
  - unfold pack. rewrite Hm2. reflexivity.
Qed.

(** ** Bounds on non-negative numbers *)

Lemma pow2_pos (k : Z) : 0 <= k -> 0 < 2 ^ k.
Proof. intros. apply Z.pow_pos_nonneg; lia. Qed.

Lemma pow2_split (a b : Z) : 0 <= a -> 0 <= b -> 2 ^ (a + b) = 2 ^ a * 2 ^ b.
Proof. intros. apply Z.pow_add_r; lia. Qed.

(** The target exponent of a mantissa that stays below [Y * 2 ^ (F - e)]. *)
Lemma target_le (q e Y F : Z) :
  0 <= q -> e <= F -> -1074 <= F ->
  0 < Y < 2 ^ 53 ->
  q <= Y * 2 ^ (F - e) ->
  target q e <= F.
Proof.
  intros Hq HeF HF HY Hb. unfold target. rewrite fexp_64.
  destruct (Z.eq_dec q 0) as [->|Hq0].
  { simpl Zdigits2. lia. }
  pose proof (pow2_pos (F - e) ltac:(lia)) as Pb.
  assert (Hd : Zdigits2 q <= 53 + (F - e)).
  { apply Zdigits2_le; [lia|]. rewrite pow2_split by lia. nia. }
  lia.
Qed.

Lemma pack_below (q e1 Y F : Z) :
  0 <= q -> e1 <= F -> -1074 <= F <= 971 ->
  0 < Y < 2 ^ 53 ->
  q <= Y * 2 ^ (F - e1) ->
  below (pack false q e1) Y F.
Proof.
  intros Hq HeF HF HY Hb.
  pose proof (target_le q e1 Y F Hq HeF ltac:(lia) HY Hb) as Ht.
  pose proof (target_ge q e1) as Hg.
  unfold pack.
  set (e2 := target q e1) in *.
  pose proof (pow2_pos (e2 - e1) ltac:(lia)) as Pa.
  pose proof (pow2_pos (F - e2) ltac:(lia)) as Pb.
  assert (Hs : 2 ^ (F - e1) = 2 ^ (e2 - e1) * 2 ^ (F - e2)).
  { rewrite <- pow2_split by lia. f_equal. lia. }
  assert (Hm : q / 2 ^ (e2 - e1) <= Y * 2 ^ (F - e2)).
  { apply Z.div_le_upper_bound; [lia|]. rewrite Hs in Hb. lia. }
  assert (H0 : 0 <= q / 2 ^ (e2 - e1)) by (apply Z.div_pos; lia).
  destruct (q / 2 ^ (e2 - e1)) as [|m|m] eqn:Em; simpl; [exact I| |lia].
  replace (e2 <=? emax - prec) with true
    by (symmetry; apply Z.leb_le; unfold emax, prec; lia).
  simpl. split; [exact Ht|exact Hm].
Qed.

Lemma pack_above (q e1 Y F Yu Fu : Z) :
  0 <= q -> e1 <= Fu -> Fu <= F -> -1074 <= Fu <= 971 ->
  0 < Yu < 2 ^ 53 ->
  q <= Yu * 2 ^ (Fu - e1) ->
  0 < Y ->
  Y * 2 ^ (F - e1) <= q ->
  above (pack false q e1) Y F.
Proof.
  intros Hq HeF HFF HF HYu Hb HY Hl.
  pose proof (target_le q e1 Yu Fu Hq HeF ltac:(lia) HYu Hb) as Ht.
  pose proof (target_ge q e1) as Hg.
  unfold pack.
  set (e2 := target q e1) in *.
  pose proof (pow2_pos (e2 - e1) ltac:(lia)) as Pa.
  pose proof (pow2_pos (F - e2) ltac:(lia)) as Pb.
  assert (Hs : 2 ^ (F - e1) = 2 ^ (e2 - e1) * 2 ^ (F - e2)).
  { rewrite <- pow2_split by lia. f_equal. lia. }
  assert (Hm : Y * 2 ^ (F - e2) <= q / 2 ^ (e2 - e1)).
  { apply Z.div_le_lower_bound; [lia|]. rewrite Hs in Hl. lia. }
  destruct (q / 2 ^ (e2 - e1)) as [|m|m] eqn:Em; simpl; [nia| |nia].
  replace (e2 <=? emax - prec) with true
    by (symmetry; apply Z.leb_le; unfold emax, prec; lia).
  simpl. split; [lia|exact Hm].
Qed.

(** Rounding keeps a value under a bound that is itself on the grid. *)
Lemma round_below (M E Y F : Z) :
  0 < M -> E <= F -> -1074 <= F <= 971 ->
  0 < Y < 2 ^ 53 ->
  M <= Y * 2 ^ (F - E) ->
  below (binary_round_aux prec emax false M E loc_Exact) Y F.
Proof.
  intros HM HEF HF HY Hb.
  destruct (binary_round_aux_exact false M E HM) as (q & [Q1 Q2] & Q3 & ->).
  pose proof (target_le M E Y F ltac:(lia) HEF ltac:(lia) HY Hb) as Ht.
  pose proof (target_ge M E) as Hg.
  set (e1 := target M E) in *.
  pose proof (pow2_pos (e1 - E) ltac:(lia)) as Pa.
  pose proof (pow2_pos (F - e1) ltac:(lia)) as Pb.
  assert (Hs : 2 ^ (F - E) = 2 ^ (e1 - E) * 2 ^ (F - e1)).
  { rewrite <- pow2_split by lia. f_equal. lia. }
  assert (H0 : 0 <= M / 2 ^ (e1 - E)) by (apply Z.div_pos; lia).
  apply pack_below; try lia.
  rewrite Hs in Hb.
  pose proof (Z.div_mod M (2 ^ (e1 - E)) ltac:(lia)) as Hdm.
  pose proof (Z.mod_pos_bound M (2 ^ (e1 - E)) Pa) as Hr.
  destruct (Z.eq_dec (M mod 2 ^ (e1 - E)) 0) as [Z0|NZ].
  - rewrite (Q3 Z0). nia.
  - assert (M / 2 ^ (e1 - E) < Y * 2 ^ (F - e1)) by nia. lia.
Qed.

Lemma round_above (M E Y F Yu Fu : Z) :
  0 < M -> E <= Fu -> Fu <= F -> -1074 <= Fu <= 971 ->
  0 < Yu < 2 ^ 53 ->
  M <= Yu * 2 ^ (Fu - E) ->
  0 < Y ->
  Y * 2 ^ (F - E) <= M ->
  above (binary_round_aux prec emax false M E loc_Exact) Y F.
Proof.
  intros HM HEF HFF HF HYu Hb HY Hl.
  destruct (binary_round_aux_exact false M E HM) as (q & [Q1 Q2] & Q3 & ->).
  pose proof (target_le M E Yu Fu ltac:(lia) HEF ltac:(lia) HYu Hb) as Ht.
  pose proof (target_ge M E) as Hg.
  set (e1 := target M E) in *.
  pose proof (pow2_pos (e1 - E) ltac:(lia)) as Pa.
  pose proof (pow2_pos (Fu - e1) ltac:(lia)) as Pb.
  pose proof (pow2_pos (F - e1) ltac:(lia)) as Pc.
  assert (Hs : 2 ^ (Fu - E) = 2 ^ (e1 - E) * 2 ^ (Fu - e1)).
  { rewrite <- pow2_split by lia. f_equal. lia. }
  assert (Hs' : 2 ^ (F - E) = 2 ^ (e1 - E) * 2 ^ (F - e1)).
  { rewrite <- pow2_split by lia. f_equal. lia. }
  assert (H0 : 0 <= M / 2 ^ (e1 - E)) by (apply Z.div_pos; lia).
  rewrite Hs in Hb. rewrite Hs' in Hl.
  pose proof (Z.div_mod M (2 ^ (e1 - E)) ltac:(lia)) as Hdm.
  pose proof (Z.mod_pos_bound M (2 ^ (e1 - E)) Pa) as Hr.
  assert (Hlow : Y * 2 ^ (F - e1) <= M / 2 ^ (e1 - E)).
  { apply Z.div_le_lower_bound; [lia|]. lia. }
  apply (pack_above q e1 Y F Yu Fu); try lia.
  destruct (Z.eq_dec (M mod 2 ^ (e1 - E)) 0) as [Z0|NZ].
  - rewrite (Q3 Z0). nia.
  - assert (M / 2 ^ (e1 - E) < Yu * 2 ^ (Fu - e1)) by nia. lia.
Qed.

(** ** Aligning mantissas *)

Lemma iter_xO (m d : positive) :
  Zpos (Pos.iter xO m d) = Zpos m * 2 ^ Zpos d.
Proof.
  apply (Pos.iter_ind _ xO m (fun d r => Zpos r = Zpos m * 2 ^ Zpos d)).
  - rewrite Pos2Z.inj_xO. change (2 ^ 1) with 2. lia.
  - intros p a IH. rewrite Pos2Z.inj_xO, IH, Pos2Z.inj_succ, Z.pow_succ_r by lia. lia.
Qed.

Lemma shl_align_down (m : positive) (e e' : Z) :
  e' <= e ->
  Zpos (fst (shl_align m e e')) = Zpos m * 2 ^ (e - e')
  /\ snd (shl_align m e e') = e'.
Proof.
  intros H. unfold shl_align. destruct (e' - e) as [|d|d] eqn:E; try lia; simpl.
  - replace (e - e') with 0 by lia. split; lia.
  - rewrite iter_xO. replace (e - e') with (Zpos d) by lia. split; lia.
Qed.

Lemma shl_align_up (m : positive) (e e' : Z) :
  e <= e' -> shl_align m e e' = (m, e).
Proof.
  intros H. unfold shl_align. destruct (e' - e) as [|d|d] eqn:E; try lia; reflexivity.
Qed.

(** [binary_round] is [binary_round_aux] on a mantissa moved to an exponent
    that is not larger. *)
Lemma binary_round_aligned (s : bool) (m : positive) (e : Z) :
  exists E,
    E <= e
    /\ binary_round prec emax s m e =
       binary_round_aux prec emax s (Zpos m * 2 ^ (e - E)) E loc_Exact.
Proof.
  unfold binary_round.
  set (f := fexp prec emax (Zpos (digits2_pos m) + e)).
  destruct (Z_le_gt_dec e f) as [C|C].
  - rewrite shl_align_up by exact C. exists e. split; [lia|].
    replace (e - e) with 0 by lia. rewrite Z.mul_1_r. reflexivity.
  - destruct (shl_align_down m e f ltac:(lia)) as [A1 A2].
    destruct (shl_align m e f) as [mz ez]. simpl in A1, A2. subst ez.
    exists f. split; [lia|]. rewrite A1. reflexivity.
Qed.

(** The sum of two positive finite numbers is the rounding of the exact sum
    of their mantissas at a common exponent. *)
Lemma add_positive (mx : positive) (ex : Z) (my : positive) (ey : Z) :
  exists E,
    E <= ex /\ E <= ey
    /\ add (S754_finite false mx ex) (S754_finite false my ey) =
       binary_round_aux prec emax false
         (Zpos mx * 2 ^ (ex - E) + Zpos my * 2 ^ (ey - E)) E loc_Exact.
Proof.
  unfold add, SFadd. cbn [cond_Zopp].
  set (ez := Z.min ex ey).
  destruct (shl_align_down mx ex ez ltac:(lia)) as [A1 _].
  destruct (shl_align_down my ey ez ltac:(lia)) as [B1 _].
  rewrite A1, B1.
  pose proof (pow2_pos (ex - ez) ltac:(lia)).
  pose proof (pow2_pos (ey - ez) ltac:(lia)).
  destruct (Zpos mx * 2 ^ (ex - ez) + Zpos my * 2 ^ (ey - ez)) as [|M|M] eqn:EM;
    try lia.
  cbn [binary_normalize].
  destruct (binary_round_aligned false M ez) as (E & HE & ->).
  exists E. split; [lia|]. split; [lia|]. f_equal.
  rewrite <- EM, Z.mul_add_distr_r, <- !Z.mul_assoc, <- !pow2_split by lia.
  repeat f_equal; lia.
Qed.

Lemma below_scale (m e Y F E : Z) :
  E <= e -> e <= F ->
  m <= Y * 2 ^ (F - e) ->
  m * 2 ^ (e - E) <= Y * 2 ^ (F - E).
Proof.
  intros H1 H2 H3.
  replace (F - E) with ((F - e) + (e - E)) by lia.
  rewrite pow2_split by lia.
  pose proof (pow2_pos (e - E) ltac:(lia)). nia.
Qed.

Lemma above_scale (m e Y F E : Z) :
  E <= e -> e <= F ->
  Y * 2 ^ (F - e) <= m ->
  Y * 2 ^ (F - E) <= m * 2 ^ (e - E).
Proof.
  intros H1 H2 H3.
  replace (F - E) with ((F - e) + (e - E)) by lia.
  rewrite pow2_split by lia.
  pose proof (pow2_pos (e - E) ltac:(lia)). nia.
Qed.

Lemma below_weaken (x : number) (Y Y' F : Z) :
  Y <= Y' -> below x Y F -> below x Y' F.
Proof.
  intros HY. destruct x as [s|s| |[|] m e]; simpl; auto.
  intros [H1 H2]. split; [exact H1|].
  pose proof (pow2_pos (F - e) ltac:(lia)). nia.
Qed.

(** Sums of bounded non-negative numbers are bounded by the sum of the
    bounds. *)
Lemma add_below (x y : number) (Yx Yy F : Z) :
  0 <= Yx -> 0 <= Yy -> 0 < Yx + Yy < 2 ^ 53 -> -1074 <= F <= 971 ->
  below x Yx F -> below y Yy F ->
  below (add x y) (Yx + Yy) F.
Proof.
  intros HYx HYy HY HF Hx Hy.
  destruct x as [sx|sx| |[|] mx ex]; simpl in Hx; try contradiction;
    destruct y as [sy|sy| |[|] my ey]; simpl in Hy; try contradiction.
  - destruct sx, sy; exact I.
  - apply (below_weaken _ Yy); [lia|exact Hy].
  - apply (below_weaken _ Yx); [lia|exact Hx].
  - destruct Hx as [X1 X2]. destruct Hy as [Y1 Y2].
    destruct (add_positive mx ex my ey) as (E & E1 & E2 & ->).
    pose proof (below_scale _ _ _ _ E E1 X1 X2).
    pose proof (below_scale _ _ _ _ E E2 Y1 Y2).
    pose proof (pow2_pos (ex - E) ltac:(lia)).
    pose proof (pow2_pos (ey - E) ltac:(lia)).
    apply round_below; try lia.
Qed.

(** A sum is at least its first, positive, summand. *)
Lemma add_above (x y : number) (Y F Yx Yy Fu : Z) :
  0 < Y -> 0 <= Yx -> 0 <= Yy -> 0 < Yx + Yy < 2 ^ 53 ->
  -1074 <= Fu <= 971 -> Fu <= F ->
  above x Y F -> below x Yx Fu -> below y Yy Fu ->
  above (add x y) Y F.
Proof.
  intros HY HYx HYy HYs HFu HF Ha Hx Hy.
  destruct x as [sx|sx| |[|] mx ex]; simpl in Ha; try contradiction.
  simpl in Hx. destruct Ha as [A1 A2]. destruct Hx as [X1 X2].
  destruct y as [sy|sy| |[|] my ey]; simpl in Hy; try contradiction.
  - simpl. auto.
  - destruct Hy as [Y1 Y2].
    destruct (add_positive mx ex my ey) as (E & E1 & E2 & ->).
    pose proof (below_scale _ _ _ _ E E1 X1 X2).
    pose proof (below_scale _ _ _ _ E E2 Y1 Y2).
    pose proof (above_scale _ _ _ _ E E1 A1 A2).
    pose proof (pow2_pos (ex - E) ltac:(lia)).
    pose proof (pow2_pos (ey - E) ltac:(lia)).
    apply (round_above _ _ Y F (Yx + Yy) Fu); try lia.
Qed.

(** ** The arithmetic of [genCode] *)

Lemma of_Z_900000 : of_Z 900000 = nine_hundred_thousand.
Proof. reflexivity. Qed.

Lemma of_Z_100000 : of_Z 100000 = hundred_thousand.
Proof. reflexivity. Qed.

Lemma of_Z_1 : of_Z 1 = one.
Proof. reflexivity. Qed.

Lemma SFltb_one (m : positive) (e : Z) :
  SFltb (S754_finite false m e) one = true ->
  e < -52 \/ (e = -52 /\ Zpos m < 4503599627370496).
Proof.
  unfold SFltb, SFcompare, one.
  destruct (Z.compare_spec e (-52)) as [E|E|E].
  - destruct (PosDef.Pos.compare_cont Eq m 4503599627370496) eqn:C;
      try discriminate.
    intros _. right. split; [exact E|].
    apply Pos2Z.pos_lt_pos. apply Pos.compare_lt_iff. exact C.
  - intros _. left. exact E.
  - discriminate.
Qed.

(** A valid number below one has an exponent of at most -53 and a mantissa
    of at most 53 bits. *)
Lemma unit_interval_finite (m : positive) (e : Z) :
  unit_interval (S754_finite false m e) ->
  e <= -53 /\ Zpos m < 2 ^ 53.
Proof.
  intros (Hv & _ & Hlt). rewrite of_Z_1 in Hlt. apply SFltb_one in Hlt.
  unfold valid_binary, bounded, canonical_mantissa in Hv.
  apply andb_true_iff in Hv. destruct Hv as [Hc _].
  apply Z.eqb_eq in Hc. rewrite fexp_64 in Hc.
  pose proof (digits2_bounds m) as [D1 D2].
  assert (Hd : Zpos (digits2_pos m) <= 53) by lia.
  split.
  - destruct Hlt as [Hlt|[-> Hlt]]; [lia|]. exfalso.
    assert (Q2 : 2 ^ 52 = 4503599627370496) by reflexivity.
    assert (Zpos (digits2_pos m) <= 52).
    { change (Zpos (digits2_pos m)) with (Zdigits2 (Zpos m)).
      apply Zdigits2_le; [lia|]. rewrite Q2. exact Hlt. }
    lia.
  - assert (2 ^ Zpos (digits2_pos m) <= 2 ^ 53) by (apply Z.pow_le_mono_r; lia).
    lia.
Qed.

(** [Math.random() * 900000] stays at least one unit in the last place
    below 900000. *)
Lemma product_below (r : number) :
  unit_interval r ->
  below (mul r (of_Z 900000)) 7730941132799999 (-33).
Proof.
  intros Hr. rewrite of_Z_900000.
  destruct r as [s|s| |s m e].
  - simpl. exact I.
  - destruct Hr as (_ & Hle & Hlt). destruct s; [discriminate Hle|discriminate Hlt].
  - destruct Hr as (_ & Hle & _). discriminate Hle.
  - destruct s.
    { destruct Hr as (_ & Hle & _). discriminate Hle. }
    destruct (unit_interval_finite m e Hr) as [He Hm].
    unfold mul, SFmul, nine_hundred_thousand. cbn [xorb].
    destruct (Z.eq_dec e (-53)) as [->|Ne].
    + destruct (Z.eq_dec (Zpos m) (2 ^ 53 - 1)) as [Em|Nm].
      * change (2 ^ 53 - 1) with 9007199254740991 in Em.
        injection Em as ->. vm_compute. split; discriminate.
      * rewrite Pos2Z.inj_mul.
        change (2 ^ 53) with 9007199254740992 in *.
        apply round_below; try lia.
    + rewrite Pos2Z.inj_mul.
      apply round_below; try lia.
      replace (-33 - (e + -33)) with (54 + (- e - 54)) by lia.
      rewrite pow2_split by lia.
      pose proof (pow2_pos (- e - 54) ltac:(lia)).
      change (2 ^ 53) with 9007199254740992 in *.
      change (2 ^ 54) with 18014398509481984. nia.
Qed.

Lemma hundred_thousand_below : below hundred_thousand 858993459200000 (-33).
Proof. simpl. split; lia. Qed.

Lemma hundred_thousand_above : above hundred_thousand 100000 0.
Proof. simpl. split; lia. Qed.

(** [100000 + Math.random() * 900000] lies between 100000 and the last
    number before 1000000. *)
Lemma sum_bounds (r : number) :
  unit_interval r ->
  let s := add (of_Z 100000) (mul r (of_Z 900000)) in
  above s 100000 0 /\ below s 8589934591999999 (-33).
Proof.
  intros Hr s. subst s. rewrite of_Z_100000.
  pose proof (product_below r Hr) as Hp. split.
  - apply (add_above _ _ 100000 0 858993459200000 7730941132799999 (-33));
      try lia; auto using hundred_thousand_above, hundred_thousand_below.
  - change 8589934591999999 with (858993459200000 + 7730941132799999).
    apply add_below; try lia; auto using hundred_thousand_below.
Qed.

(** ** Printing *)

Lemma String_integral_of_Z (z : Z) :
  0 < z < 2 ^ 53 -> String_integral (of_Z z) = decimal z.
Proof.
  intros Hz. unfold of_Z. destruct z as [|p|p]; try lia.
  cbn [binary_normalize].
  destruct (binary_round_aligned false p 0) as (E & HE & ->).
  pose proof (pow2_pos (0 - E) ltac:(lia)) as PE.
  assert (Ha : above (binary_round_aux prec emax false (Zpos p * 2 ^ (0 - E)) E loc_Exact)
                 (Zpos p) 0).
  { apply (round_above _ _ (Zpos p) 0 (Zpos p) 0); try lia. }
  assert (Hb : below (binary_round_aux prec emax false (Zpos p * 2 ^ (0 - E)) E loc_Exact)
                 (Zpos p) 0).
  { apply round_below; try lia. }
  destruct (binary_round_aux _ _ _ _ _ _) as [s|s| |[|] m e]; simpl in Ha, Hb;
    try contradiction.
  destruct Ha as [A1 A2]. destruct Hb as [_ B2].
  simpl String_integral. f_equal.
  rewrite Z.shiftl_div_pow2 by lia.
  replace (Zpos m) with (Zpos p * 2 ^ (0 - e)) by lia.
  replace (- e) with (0 - e) by lia.
  apply Z.div_mul. pose proof (pow2_pos (0 - e) ltac:(lia)). lia.
Qed.

Lemma decimal_go_six (f : nat) (n : Z) (acc : string) :
  100000 <= n <= 999999 ->
  decimal_go (6 + f) n acc =
    String (digit_char (n / 100000))
      (String (digit_char (n / 10000 mod 10))
         (String (digit_char (n / 1000 mod 10))
            (String (digit_char (n / 100 mod 10))
               (String (digit_char (n / 10 mod 10))
                  (String (digit_char (n mod 10)) acc))))).
Proof.
  intros Hn. cbn [Nat.add decimal_go].
  assert (E1 : n / 10 / 10 = n / 100) by (rewrite Z.div_div by lia; reflexivity).
  assert (E2 : n / 100 / 10 = n / 1000) by (rewrite Z.div_div by lia; reflexivity).
  assert (E3 : n / 1000 / 10 = n / 10000) by (rewrite Z.div_div by lia; reflexivity).
  assert (E4 : n / 10000 / 10 = n / 100000) by (rewrite Z.div_div by lia; reflexivity).
  rewrite E1, E2, E3, E4.
  assert (B0 : (n <? 10) = false) by (apply Z.ltb_ge; lia).
  assert (B1 : (n / 10 <? 10) = false)
    by (apply Z.ltb_ge; apply Z.div_le_lower_bound; lia).
  assert (B2 : (n / 100 <? 10) = false)
    by (apply Z.ltb_ge; apply Z.div_le_lower_bound; lia).
  assert (B3 : (n / 1000 <? 10) = false)
    by (apply Z.ltb_ge; apply Z.div_le_lower_bound; lia).
  assert (B4 : (n / 10000 <? 10) = false)
    by (apply Z.ltb_ge; apply Z.div_le_lower_bound; lia).
  assert (B5 : (n / 100000 <? 10) = true)
    by (apply Z.ltb_lt; apply Z.div_lt_upper_bound; lia).
  rewrite B0, B1, B2, B3, B4, B5.
  rewrite (Z.mod_small (n / 100000) 10); [reflexivity|].
  split; [apply Z.div_pos; lia|apply Z.div_lt_upper_bound; lia].
Qed.

Lemma decimal_six (n : Z) :
  100000 <= n <= 999999 ->
  decimal n =
    String (digit_char (n / 100000))
      (String (digit_char (n / 10000 mod 10))
         (String (digit_char (n / 1000 mod 10))
            (String (digit_char (n / 100 mod 10))
               (String (digit_char (n / 10 mod 10))
                  (String (digit_char (n mod 10)) EmptyString))))).
Proof.
  intros Hn. unfold decimal.
  assert (16 <= Z.log2 n) by (apply Z.log2_le_pow2; lia).
  replace (S (Z.to_nat (Z.log2 n))) with (6 + (Z.to_nat (Z.log2 n) - 5))%nat by lia.
  apply decimal_go_six. exact Hn.
Qed.

Lemma digit_char_code (d : Z) :
  0 <= d <= 9 -> Z.of_nat (nat_of_ascii (digit_char d)) - 48 = d.
Proof.
  intros Hd. unfold digit_char. rewrite nat_ascii_embedding by lia. lia.
Qed.

Lemma digits_value_digit (d : Z) (s : string) (acc : Z) :
  0 <= d <= 9 ->
  digits_value (String (digit_char d) s) acc = digits_value s (10 * acc + d).
Proof.
  intros Hd. cbn [digits_value]. rewrite (digit_char_code d Hd).
  replace ((0 <=? d) && (d <=? 9)) with true; [reflexivity|].
  symmetry. apply andb_true_iff. split; apply Z.leb_le; lia.
Qed.

Lemma decimal_value_six (n : Z) :
  100000 <= n <= 999999 -> decimal_value (decimal n) = Some n.
Proof.
  intros Hn. rewrite (decimal_six n Hn). unfold decimal_value.
  assert (D5 : 1 <= n / 100000 <= 9).
  { split; [apply Z.div_le_lower_bound; lia|].
    assert (n / 100000 < 10) by (apply Z.div_lt_upper_bound; lia). lia. }
  rewrite !digits_value_digit
    by (try (apply Z.mod_pos_bound; lia); try (pose proof (Z.mod_pos_bound (n / 10000) 10);
        pose proof (Z.mod_pos_bound (n / 1000) 10); pose proof (Z.mod_pos_bound (n / 100) 10);
        pose proof (Z.mod_pos_bound (n / 10) 10); pose proof (Z.mod_pos_bound n 10); lia)).
  cbn [digits_value]. f_equal.
  pose proof (Z.div_mod n 10 ltac:(lia)).
  pose proof (Z.div_mod (n / 10) 10 ltac:(lia)).
  pose proof (Z.div_mod (n / 100) 10 ltac:(lia)).
  pose proof (Z.div_mod (n / 1000) 10 ltac:(lia)).
  pose proof (Z.div_mod (n / 10000) 10 ltac:(lia)).
  assert (E1 : n / 10 / 10 = n / 100) by (rewrite Z.div_div by lia; reflexivity).
  assert (E2 : n / 100 / 10 = n / 1000) by (rewrite Z.div_div by lia; reflexivity).
  assert (E3 : n / 1000 / 10 = n / 10000) by (rewrite Z.div_div by lia; reflexivity).
  assert (E4 : n / 10000 / 10 = n / 100000) by (rewrite Z.div_div by lia; reflexivity).
  rewrite E1 in *. rewrite E2 in *. rewrite E3 in *. rewrite E4 in *. lia.
Qed.

(** C9.  For every value [Math.random()] can return, a valid binary64
    number in [0, 1), [genCode] returns the decimal digits of an integer
    between 100000 and 999999: six characters, the first of which is not
    the digit zero. *)
Theorem genCode_six_digits (r : number) :
  unit_interval r ->
  exists n,
    100000 <= n <= 999999
    /\ genCode r = decimal n
    /\ decimal_value (genCode r) = Some n
    /\ String.length (genCode r) = 6%nat
    /\ exists d rest, genCode r = String (digit_char d) rest /\ 1 <= d <= 9.
Proof.
  intros Hr. unfold genCode.
  destruct (sum_bounds r Hr) as [Ha Hb].
  destruct (add (of_Z 100000) (mul r (of_Z 900000))) as [s|s| |[|] m e];
    simpl in Ha, Hb; try contradiction.
  destruct Ha as [_ A]. destruct Hb as [He B].
  assert (Hneg : (0 <=? e) = false) by (apply Z.leb_gt; lia).
  unfold Math_floor. rewrite Hneg. cbn [cond_Zopp].
  set (n := Z.shiftl (Zpos m) e).
  assert (Hn : 100000 <= n <= 999999).
  { subst n. rewrite Z.shiftl_div_pow2 by lia.
    replace (0 - e) with (- e) in A by lia.
    replace (- e) with (33 + (-33 - e)) in * by lia.
    rewrite pow2_split in * by lia.
    pose proof (pow2_pos (-33 - e) ltac:(lia)) as P.
    change (2 ^ 33) with 8589934592 in *.
    split.
    - apply Z.div_le_lower_bound; lia.
    - assert (Zpos m / (8589934592 * 2 ^ (-33 - e)) < 1000000); [|lia].
      apply Z.div_lt_upper_bound; lia. }
  exists n. split; [exact Hn|].
  assert (E : String_integral (binary_normalize prec emax n 0 false) = decimal n).
  { apply (String_integral_of_Z n). change (2 ^ 53) with 9007199254740992. lia. }
  rewrite E. split; [reflexivity|]. split; [apply decimal_value_six; exact Hn|].
  rewrite (decimal_six n Hn). split; [reflexivity|].
  eexists _, _. split; [reflexivity|].
  split; [apply Z.div_le_lower_bound; lia|].
  assert (n / 100000 < 10) by (apply Z.div_lt_upper_bound; lia). lia.
Qed.

(** ** Signs of zero and NaN in sums and products *)

Lemma target_min (q e : Z) : -1074 <= target q e.
Proof. unfold target. rewrite fexp_64. lia. Qed.

(** Cutting a positive mantissa at its target exponent leaves a positive
    mantissa when the exponent it comes from is a valid one. *)
Lemma cut_positive (M E : Z) :
  0 < M -> -1074 <= E -> 1 <= M / 2 ^ (target M E - E).
Proof.
  intros HM HE. pose proof (target_ge M E) as Hg.
  destruct (Z.eq_dec (target M E) E) as [->|N].
  { replace (E - E) with 0 by lia. rewrite Z.div_1_r. lia. }
  assert (Ht : target M E = Zdigits2 M + E - 53).
  { unfold target in *. rewrite fexp_64 in *. lia. }
  rewrite Ht. pose proof (Zdigits2_bounds M HM) as [D1 _].
  assert (Hd : 53 < Zdigits2 M) by lia.
  apply Z.div_le_lower_bound; [apply pow2_pos; lia|].
  rewrite Z.mul_1_r.
  eapply Z.le_trans; [|exact D1]. apply Z.pow_le_mono_r; lia.
Qed.

Lemma pack_positive (sx : bool) (q e1 : Z) :
  1 <= q -> -1074 <= e1 ->
  exists m e, pack sx q e1 = (if e <=? emax - prec then S754_finite sx m e
                              else S754_infinity sx)
              /\ -1074 <= e.
Proof.
  intros Hq He. unfold pack.
  pose proof (cut_positive q e1 ltac:(lia) He) as Hc.
  destruct (q / 2 ^ (target q e1 - e1)) as [|m|m]; try lia.
  exists m, (target q e1). split; [reflexivity|apply target_min].
Qed.

(** Rounding a positive mantissa from a valid exponent gives a non-zero
    number that is not NaN. *)
Lemma round_positive (sx : bool) (M E : Z) :
  0 < M -> -1074 <= E ->
  exists m e,
    binary_round_aux prec emax sx M E loc_Exact =
      (if e <=? emax - prec then S754_finite sx m e else S754_infinity sx)
    /\ -1074 <= e.
Proof.
  intros HM HE.
  destruct (binary_round_aux_exact sx M E HM) as (q & [Q1 _] & _ & ->).
  pose proof (cut_positive M E HM HE).
  pose proof (target_ge M E).
  apply pack_positive; lia.
Qed.

(** Rounding a positive mantissa never gives NaN, and gives exponents from
    the smallest one up. *)
Lemma round_regular (sx : bool) (M E : Z) :
  0 < M ->
  binary_round_aux prec emax sx M E loc_Exact <> S754_nan
  /\ wf (binary_round_aux prec emax sx M E loc_Exact).
Proof.
  intros HM.
  destruct (binary_round_aux_exact sx M E HM) as (q & [Q1 _] & _ & ->).
  assert (0 <= q).
  { assert (0 <= M / 2 ^ (target M E - E)); [|lia].
    apply Z.div_pos; [lia|]. apply pow2_pos. pose proof (target_ge M E). lia. }
  unfold pack.
  assert (0 <= q / 2 ^ (target q (target M E) - target M E)).
  { apply Z.div_pos; [lia|]. apply pow2_pos.
    pose proof (target_ge q (target M E)). lia. }
  destruct (q / 2 ^ (target q (target M E) - target M E)) as [|m|m]; try lia.
  - split; [discriminate|exact I].
  - destruct (_ <=? _); (split; [discriminate|]); simpl; auto. apply target_min.
Qed.

Lemma binary_round_aligned_valid (s : bool) (m : positive) (e : Z) :
  -1074 <= e ->
  exists E,
    -1074 <= E
    /\ binary_round prec emax s m e =
       binary_round_aux prec emax s (Zpos m * 2 ^ (e - E)) E loc_Exact
    /\ 0 < Zpos m * 2 ^ (e - E).
Proof.
  intros He. unfold binary_round.
  set (f := fexp prec emax (Zpos (digits2_pos m) + e)).
  assert (Hf : -1074 <= f) by (subst f; rewrite fexp_64; lia).
  destruct (Z_le_gt_dec e f) as [C|C].
  - rewrite shl_align_up by exact C. exists e. split; [lia|].
    replace (e - e) with 0 by lia. rewrite Z.mul_1_r. split; [reflexivity|lia].
  - destruct (shl_align_down m e f ltac:(lia)) as [A1 A2].
    destruct (shl_align m e f) as [mz ez]. simpl in A1, A2. subst ez.
    exists f. split; [lia|]. rewrite A1. split; [reflexivity|].
    pose proof (pow2_pos (e - f) ltac:(lia)). lia.
Qed.

Lemma mul_regular (x y : number) :
  wf (mul x y)
  /\ (x <> S754_nan -> isFinite y = true -> gt y zero = true -> mul x y <> S754_nan).
Proof.
  destruct x as [sx|sx| |sx mx ex]; destruct y as [sy|sy| |sy my ey];
    try solve [split; [exact I|]; simpl; intros; try discriminate; congruence].
  unfold mul, SFmul.
  destruct (round_regular (xorb sx sy) (Zpos (mx * my)) (ex + ey) ltac:(lia))
    as [R1 R2].
  split; [exact R2|]. intros _ _ _. exact R1.
Qed.

Lemma mul_comm (x y : number) : mul x y = mul y x.
Proof.
  destruct x as [sx|sx| |sx mx ex]; destruct y as [sy|sy| |sy my ey];
    simpl; try rewrite (xorb_comm sx sy); try reflexivity.
  rewrite (Pos.mul_comm mx my), (Z.add_comm ex ey). reflexivity.
Qed.

Lemma add_regular (x y : number) :
  wf x -> wf y ->
  wf (add x y) /\ (x <> S754_zero true -> add x y <> S754_zero true).
Proof.
  intros Hx Hy.
  destruct x as [sx|sx| |sx mx ex]; destruct y as [sy|sy| |sy my ey];
    try solve [split; [try exact I; try exact Hx; try exact Hy|];
               simpl; intros; try discriminate; try congruence];
    try solve [destruct sx, sy; split; simpl; intros; try exact I;
               try discriminate; congruence].
  unfold add, SFadd. simpl in Hx, Hy.
  set (ez := Z.min ex ey).
  set (Zs := cond_Zopp sx (Zpos (fst (shl_align mx ex ez)))
             + cond_Zopp sy (Zpos (fst (shl_align my ey ez)))).
  destruct Zs as [|M|M]; cbn [binary_normalize].
  - split; [exact I|]. intros _. discriminate.
  - destruct (binary_round_aligned_valid false M ez ltac:(lia)) as (E & HE & -> & HM).
    destruct (round_regular false _ E HM) as [_ R2].
    destruct (round_positive false _ E HM HE) as (m & e & Hr & _).
    split; [exact R2|]. intros _. rewrite Hr. destruct (_ <=? _); discriminate.
  - destruct (binary_round_aligned_valid true M ez ltac:(lia)) as (E & HE & -> & HM).
    destruct (round_regular true _ E HM) as [_ R2].
    destruct (round_positive true _ E HM HE) as (m & e & Hr & _).
    split; [exact R2|]. intros _. rewrite Hr. destruct (_ <=? _); discriminate.
Qed.

(** Adding [Number(x || 0)] is adding [x], unless [x] is NaN or the sum so
    far is [-0]. *)
Lemma add_num_or_zero (s x : number) :
  s <> S754_zero true -> x <> S754_nan ->
  add s (num_or_zero x) = add s x.
Proof.
  intros Hs Hx. destruct x as [sx|sx| |sx mx ex]; try reflexivity; try congruence.
  unfold num_or_zero, truthy, zero.
  destruct s as [[|]|ss| |ss ms es]; try reflexivity; try congruence;
    destruct sx; reflexivity.
Qed.

(** ** Line totals *)

Lemma scanTotal_fold (items : list SaleItem) :
  Forall (fun it => line_total it <> S754_nan /\ wf (line_total it)) items ->
  scanTotal items = fold_left (fun s it => add s (line_total it)) items zero.
Proof.
  unfold scanTotal.
  assert (G : forall acc, acc <> S754_zero true -> wf acc ->
            Forall (fun it => line_total it <> S754_nan /\ wf (line_total it)) items ->
            fold_left (fun s it => add s (num_or_zero (line_total it))) items acc =
            fold_left (fun s it => add s (line_total it)) items acc).
  { induction items as [|it items IH]; intros acc Ha Hw Hall; [reflexivity|].
    inversion Hall as [|? ? [N W] Hrest]; subst. simpl.
    rewrite (add_num_or_zero acc (line_total it) Ha N).
    destruct (add_regular acc (line_total it) Hw W) as [W' Z'].
    apply IH; auto. }
  apply G; [discriminate|exact I].
Qed.

Lemma appended_nothing P w w' : same_items w w' -> appended P w w'.
Proof. intros H. exists []. split; [rewrite app_nil_r; exact H|constructor]. Qed.

Lemma price_number_not_nan p : price_number p <> S754_nan.
Proof.
  unfold price_number, num_or_zero, zero.
  destruct (price p) as [[s|s| |s m e]|]; simpl; discriminate.
Qed.

(** [price_number] reads the [price] column as [resolved_from] says. *)
Lemma price_number_resolved p : resolved_from (price p) (price_number p).
Proof.
  unfold resolved_from, price_number, num_or_zero.
  destruct (price p) as [x|]; reflexivity.
Qed.

Lemma resolved_not_nan column unit : resolved_from column unit -> unit <> S754_nan.
Proof.
  unfold resolved_from, zero. intros H.
  destruct column as [[s|s| |s m e]|]; simpl in H; subst unit; discriminate.
Qed.

Lemma written_ok_total d r :
  written_ok d r -> line_total r <> S754_nan /\ wf (line_total r).
Proof.
  intros (E & _ & (p & _ & _ & Ep) & F & G). rewrite E.
  destruct (mul_regular (unit_price_at_time r) (qty r)) as [W N].
  split; [|exact W]. apply N; auto. exact (resolved_not_nan _ _ Ep).
Qed.

Lemma payload_written_ok b d sid rows :
  build_payload sid (priceMap_of b d) (parse_items b) = Ok rows ->
  Forall (written_ok d) rows.
Proof.
  intros H. apply build_payload_Ok in H.
  eapply List.Forall_impl; [|exact H].
  intros r (it & unit & Hin & Hu & ->).
  apply priceMap_of_Some in Hu. destruct Hu as (p & Hp & E1 & E2).
  apply List.filter_In in Hin. destruct Hin as [_ Hv].
  unfold valid_item in Hv. apply andb_true_iff in Hv. destruct Hv as [Hv G].
  apply andb_true_iff in Hv. destruct Hv as [_ F].
  unfold written_ok, item_row. cbn [line_total unit_price_at_time qty product_id].
  split; [reflexivity|]. split; [apply mul_comm|].
  split; [|auto].
  exists p. split; [exact Hp|]. split; [exact E1|].
  rewrite E2. apply price_number_resolved.
Qed.

(** The loop appends nothing or one payload. *)
Lemma attempts_append row items pm (P : SaleItem -> Prop) :
  (forall sid rows, build_payload sid pm items = Ok rows -> Forall P rows) ->
  forall n lastErr w,
    appended P w (snd (create_attempts row items pm n lastErr w)).
Proof.
  intros HP. induction n as [|n IH]; intros lastErr w.
  - apply appended_nothing. reflexivity.
  - destruct (hd None (faults w)) as [msg|] eqn:Hf.
    + rewrite (attempt_rejected_hd row items pm n lastErr w msg Hf).
      destruct (isDup msg).
      * destruct (IH (Some msg)
                    (called (InsertSale (ins_public_code (row (genCode (random w (draws w))))))
                       (Math_random w).2)) as (new & E & F).
        exists new. split; [exact E|exact F].
      * apply appended_nothing. reflexivity.
    + destruct (attempt_inserted_hd row items pm n lastErr w Hf) as (w1 & E1 & E2).
      rewrite E2.
      destruct (build_payload (next_id (db w)) pm items) as [payload|e] eqn:Eb.
      * unfold bind, insert_items, storage.
        destruct (hd None (faults w1)); simpl.
        -- apply appended_nothing. exact E1.
        -- exists payload. split; [rewrite E1; reflexivity|]. exact (HP _ _ Eb).
      * apply appended_nothing. exact E1.
Qed.

Lemma try_catch_appended P (m : M Response) (h : string -> M Response) w0 w :
  (forall e w', same_items w' (snd (h e w'))) ->
  same_items w0 w ->
  appended P w (snd (m w)) ->
  appended P w0 (snd (try_catch m h w)).
Proof.
  intros Hh H0 (new & E & F). unfold try_catch.
  destruct (m w) as [[resp|e] w1]; simpl in *.
  - exists new. rewrite E, H0. auto.
  - exists new. rewrite (Hh e w1), E, H0. auto.
Qed.

Lemma scan_create_appends b w :
  appended (written_ok (db w)) w (world_after (scan_create_POST b w)).
Proof.
  unfold world_after.
  destruct (list_eq_nil_dec (parse_items b)) as [Hnil|Hne].
  { rewrite (scan_create_no_items b w Hnil). apply appended_nothing. reflexivity. }
  destruct (hd None (faults w)) as [m|] eqn:Hf1.
  { rewrite (scan_create_read_rejected b w m Hne Hf1).
    apply appended_nothing. reflexivity. }
  destruct (maybeSingle (settings_rows (db w))) as [s|m] eqn:Hs.
  2:{ rewrite (scan_create_settings_error b w m Hne Hf1 Hs).
      apply appended_nothing. reflexivity. }
  destruct (scan_disabled s) eqn:Hd.
  { rewrite (scan_create_disabled b w s Hne Hf1 Hs Hd).
    apply appended_nothing. reflexivity. }
  destruct (hd None (tl (faults w))) as [m|] eqn:Hf2.
  { rewrite (scan_create_prices_rejected b w s m Hne Hs Hd Hf1 Hf2).
    apply appended_nothing. reflexivity. }
  rewrite (scan_create_enters_loop b w s Hne Hs Hd Hf1 Hf2).
  apply try_catch_appended; [reflexivity|reflexivity|].
  apply attempts_append. intros sid rows. apply payload_written_ok.
Qed.

Lemma pos_create_appends auth b w :
  appended (written_ok (db w)) w (world_after (pos_create_POST auth b w)).
Proof.
  unfold world_after.
  destruct (nonempty (str_or auth "")) eqn:Hu.
  2:{ rewrite (pos_create_unauthorized auth b w Hu). apply appended_nothing. reflexivity. }
  destruct (list_eq_nil_dec (parse_items b)) as [Hnil|Hne].
  { rewrite (pos_create_no_items auth b w Hu Hnil). apply appended_nothing. reflexivity. }
  destruct (hd None (faults w)) as [m|] eqn:Hf1.
  { rewrite (pos_create_prices_rejected auth b w m Hu Hne Hf1).
    apply appended_nothing. reflexivity. }
  rewrite (pos_create_enters_loop auth b w Hu Hne Hf1).
  apply try_catch_appended; [reflexivity|reflexivity|].
  apply attempts_append. intros sid rows. apply payload_written_ok.
Qed.

Lemma build_payload_Ok_map sid pm items rows :
  build_payload sid pm items = Ok rows ->
  map product_id rows = map pid items
  /\ map qty rows = map SaleItemInput.qty items
  /\ Forall (fun r => sale_id r = sid) rows.
Proof.
  revert rows. induction items as [|x items IH]; simpl; intros rows H.
  - injection H as <-. repeat split. constructor.
  - fold pid in H. destruct (pm !! pid x) as [unit|]; [|discriminate].
    destruct (build_payload sid pm items) as [rows'|e]; [|discriminate].
    injection H as <-. destruct (IH rows' eq_refl) as (I1 & I2 & I3).
    simpl. rewrite I1, I2. repeat split. constructor; [reflexivity|exact I3].
Qed.

(** A successful loop has written the payload of all items. *)
Lemma attempts_success row items pm :
  forall n lastErr w,
    is_success (fst (create_attempts row items pm n lastErr w)) ->
    exists sid rows,
      build_payload sid pm items = Ok rows
      /\ sale_items (db (snd (create_attempts row items pm n lastErr w))) =
           (sale_items (db w) ++ rows)%list.
Proof.
  induction n as [|n IH]; intros lastErr w.
  - simpl. intros [bd E]. discriminate.
  - destruct (hd None (faults w)) as [msg|] eqn:Hf.
    + rewrite (attempt_rejected_hd row items pm n lastErr w msg Hf).
      destruct (isDup msg).
      * intros H. destruct (IH _ _ H) as (sid & rows & E1 & E2).
        exists sid, rows. split; [exact E1|exact E2].
      * intros [bd E]. discriminate.
    + destruct (attempt_inserted_hd row items pm n lastErr w Hf) as (w1 & E1 & E2).
      rewrite E2.
      destruct (build_payload (next_id (db w)) pm items) as [payload|e] eqn:Eb.
      * unfold bind, insert_items, storage.
        destruct (hd None (faults w1)); simpl.
        -- intros [bd E]. discriminate.
        -- intros _. exists (next_id (db w)), payload. rewrite E1. auto.
      * intros [bd E]. discriminate.
Qed.

Lemma try_catch_success (m : M Response) (h : string -> M Response) w :
  (forall e w', ~ is_success (fst (h e w'))) ->
  (forall e w', same_items w' (snd (h e w'))) ->
  is_success (fst (try_catch m h w)) ->
  is_success (fst (m w)) /\ snd (try_catch m h w) = snd (m w).
Proof.
  intros Hh Hs. unfold try_catch. destruct (m w) as [[resp|e] w1]; simpl.
  - auto.
  - intros H. exfalso. exact (Hh e w1 H).
Qed.

Lemma scan_create_success b w :
  is_success (response (scan_create_POST b w)) ->
  exists sid rows,
    build_payload sid (priceMap_of b (db w)) (parse_items b) = Ok rows
    /\ sale_items (db (world_after (scan_create_POST b w))) =
         (sale_items (db w) ++ rows)%list.
Proof.
  unfold response, world_after.
  destruct (list_eq_nil_dec (parse_items b)) as [Hnil|Hne].
  { rewrite (scan_create_no_items b w Hnil). intros [bd E]. discriminate. }
  destruct (hd None (faults w)) as [m|] eqn:Hf1.
  { rewrite (scan_create_read_rejected b w m Hne Hf1). intros [bd E]. discriminate. }
  destruct (maybeSingle (settings_rows (db w))) as [s|m] eqn:Hs.
  2:{ rewrite (scan_create_settings_error b w m Hne Hf1 Hs). intros [bd E]. discriminate. }
  destruct (scan_disabled s) eqn:Hd.
  { rewrite (scan_create_disabled b w s Hne Hf1 Hs Hd). intros [bd E]. discriminate. }
  destruct (hd None (tl (faults w))) as [m|] eqn:Hf2.
  { rewrite (scan_create_prices_rejected b w s m Hne Hs Hd Hf1 Hf2).
    intros [bd E]. discriminate. }
  rewrite (scan_create_enters_loop b w s Hne Hs Hd Hf1 Hf2).
  intros H. apply try_catch_success in H.
  - destruct H as [H ->]. exact (attempts_success _ _ _ _ _ _ H).
  - intros e w' [bd E]. discriminate.
  - reflexivity.
Qed.

Lemma pos_create_success auth b w :
  is_success (response (pos_create_POST auth b w)) ->
  exists sid rows,
    build_payload sid (priceMap_of b (db w)) (parse_items b) = Ok rows
    /\ sale_items (db (world_after (pos_create_POST auth b w))) =
         (sale_items (db w) ++ rows)%list.
Proof.
  unfold response, world_after.
  destruct (nonempty (str_or auth "")) eqn:Hu.
  2:{ rewrite (pos_create_unauthorized auth b w Hu). intros [bd E]. discriminate. }
  destruct (list_eq_nil_dec (parse_items b)) as [Hnil|Hne].
  { rewrite (pos_create_no_items auth b w Hu Hnil). intros [bd E]. discriminate. }
  destruct (hd None (faults w)) as [m|] eqn:Hf1.
  { rewrite (pos_create_prices_rejected auth b w m Hu Hne Hf1).
    intros [bd E]. discriminate. }
  rewrite (pos_create_enters_loop auth b w Hu Hne Hf1).
  intros H. apply try_catch_success in H.
  - destruct H as [H ->]. exact (attempts_success _ _ _ _ _ _ H).
  - intros e w' [bd E]. discriminate.
  - reflexivity.
Qed.

Lemma rows_written_intro b w r :
  appended (written_ok (db w)) w (world_after r) ->
  (is_success (response r) ->
   exists sid rows,
     build_payload sid (priceMap_of b (db w)) (parse_items b) = Ok rows
     /\ sale_items (db (world_after r)) = (sale_items (db w) ++ rows)%list) ->
  (is_success (response r) -> parse_items b <> []) ->
  rows_written b w r.
Proof.
  intros (new & E & F) Hs Hne. exists new. split; [exact E|]. split; [exact F|].
  split.
  - apply scanTotal_fold. eapply List.Forall_impl; [|exact F].
    intros x. apply written_ok_total.
  - intros H. destruct (Hs H) as (sid & rows & Eb & E2).
    rewrite E in E2. apply app_inv_head in E2. subst rows.
    destruct (build_payload_Ok_map _ _ _ _ Eb) as (M1 & M2 & _).
    split; [exact M1|]. split; [exact M2|].
    intros ->. apply (Hne H). simpl in M1. symmetry in M1.
    apply map_eq_nil in M1. exact M1.
Qed.

(** C6.  Every [sale_items] row a create route writes has
    [line_total = unit_price_at_time * qty = qty * unit_price_at_time],
    where the unit price is the [price] column of a row of [products] for
    the item's product, read during the request (the price itself when it
    is a number other than [0] and [NaN]; [0] when the column is NULL, [0]
    or [NaN]), and the total the POS screen shows for the rows is the sum
    of their line totals.  A successful request has written one row per
    valid item. *)
Theorem line_totals (b : CreateBody) (w : World) :
  rows_written b w (scan_create_POST b w)
  /\ (forall auth, rows_written b w (pos_create_POST auth b w)).
Proof.
  split.
  - apply rows_written_intro.
    + apply scan_create_appends.
    + apply scan_create_success.
    + intros H Hnil. unfold response in H.
      rewrite (scan_create_no_items b w Hnil) in H. destruct H as [bd E]. discriminate.
  - intros auth. apply rows_written_intro.
    + apply pos_create_appends.
    + apply pos_create_success.
    + intros H Hnil. unfold response in H.
      destruct (nonempty (str_or auth "")) eqn:Hu.
      * rewrite (pos_create_no_items auth b w Hu Hnil) in H.
        destruct H as [bd E]. discriminate.
      * rewrite (pos_create_unauthorized auth b w Hu) in H.
        destruct H as [bd E]. discriminate.
Qed.

(* ===================================================================== *)
(** ** Scenarios *)
(* ===================================================================== *)

Example genCode_half : genCode Sample.half = "550000".
Proof. vm_compute. reflexivity. Qed.

Example genCode_zero : genCode (S754_zero false) = "100000".
Proof. vm_compute. reflexivity. Qed.

Example genCode_largest :
  genCode (S754_finite false 9007199254740991 (-53)) = "999999".
Proof. vm_compute. reflexivity. Qed.

(** Scenario A: two items at 10.00 give a pending sale with a line total of
    20.00. *)
Example scenario_A :
  response (scan_create_POST Sample.two_apples (Sample.world (Sample.shop true) []))
    = Ok (json (CodeBody "550000") 200)
  /\ sales (db Sample.after_scan) = [Sample.scan_sale]
  /\ map line_total (sale_items (db Sample.after_scan)) = [of_Z 20]
  /\ exists items,
       response (scan_lookup_GET (Some "550000") Sample.after_scan)
       = Ok (json (LookupBody "550000" "PENDING" "PENDING" false Sample.scan_sale items) 200).
Proof. repeat split. eexists. vm_compute. reflexivity. Qed.

(** Scenario B: the sale is confirmed once. *)
Example scenario_B :
  response (scan_confirm_POST (Some "staff-1") (Some "550000") Sample.after_scan)
    = Ok (json OkBody 200)
  /\ sales (db Sample.confirmed) = [Sample.confirmed_sale]
  /\ response (scan_confirm_POST (Some "staff-1") (Some "550000") Sample.confirmed)
     = Ok ALREADY_CONFIRMED.
Proof. repeat split. Qed.

(** Scenario C: no items. *)
Example scenario_C :
  scan_create_POST (Sample.cart []) (Sample.world (Sample.shop true) [])
  = (Ok INVALID_ITEMS, Sample.world (Sample.shop true) []).
Proof. reflexivity. Qed.

(** Scenario D: the scan channel is off. *)
Example scenario_D :
  response (scan_create_POST Sample.two_apples (Sample.world (Sample.shop false) []))
  = Ok SCAN_DISABLED.
Proof. reflexivity. Qed.

(** Scenario E: a code no sale has. *)
Example scenario_E :
  response (scan_lookup_GET (Some "0000") (Sample.world (Sample.shop true) []))
  = Ok CODE_NOT_FOUND.
Proof. reflexivity. Qed.

(** C1.  The failing input: the scan sale with code 550000 has been
    confirmed by staff-1 (status PAID, payment_status CONFIRMED), and
    staff-2 sends the code again.  /api/scan/confirm, whose guard is
    commented "prevent double-confirm", rejects the attempt with
    ALREADY_CONFIRMED (409) and leaves the database as it is.
    /api/pos/confirm-scan has no guard: it answers with success (200), not
    with ALREADY_CONFIRMED, and confirms the sale a second time, replacing
    the confirming identity by staff-2 and the payment status by
    "confirmed". *)
Theorem pos_confirm_scan_again :
  let again := pos_confirm_scan_POST (Some "staff-2") (Some "550000") Sample.confirmed in
  let guarded := scan_confirm_POST (Some "staff-2") (Some "550000") Sample.confirmed in
  sales (db Sample.confirmed) = [Sample.confirmed_sale]
  /\ source Sample.confirmed_sale = "CUSTOMER_SCAN"
  /\ status Sample.confirmed_sale = "PAID"
  /\ payment_status Sample.confirmed_sale = "CONFIRMED"
  /\ staff_id Sample.confirmed_sale = Some "staff-1"
  /\ response guarded = Ok ALREADY_CONFIRMED
  /\ db (world_after guarded) = db Sample.confirmed
  /\ response again = Ok (json (ConfirmedBody 1 "550000") 200)
  /\ response again <> Ok ALREADY_CONFIRMED
  /\ is_success (response again)
  /\ map (fun s => (public_code s, status s, payment_status s, staff_id s))
       (sales (db (world_after again)))
     = [("550000", "PAID", "confirmed", Some "staff-2")].
Proof.
  intros again guarded.
  assert (E : response again = Ok (json (ConfirmedBody 1 "550000") 200))
    by reflexivity.
  do 7 (split; [reflexivity|]).
  split; [exact E|]. split; [rewrite E; discriminate|].
  split; [exists (ConfirmedBody 1 "550000"); exact E|reflexivity].
Qed.

(* ===================================================================== *)
(** ** The claims at concrete inputs *)
(* ===================================================================== *)

Lemma confirm_at_most_once_witness :
  (sales_with_code (db Sample.confirmed) (trim (str_or (Some "550000") ""))
     = [Sample.confirmed_sale]
   /\ source Sample.confirmed_sale = "CUSTOMER_SCAN"
   /\ already_confirmed Sample.confirmed_sale = true
   /\ response (scan_confirm_POST (Some "staff-2") (Some "550000") Sample.confirmed)
      = Ok ALREADY_CONFIRMED)
  /\ (scan_confirm_POST (Some "staff-1") (Some "550000") Sample.after_scan
      = (Ok (json OkBody 200), Sample.confirmed)
      /\ ~ is_success
           (response (scan_confirm_POST (Some "staff-2") (Some " 550000 ")
                        Sample.confirmed))).
Proof.
  destruct confirm_at_most_once as [H1 H2]. split.
  - split; [reflexivity|]. split; [reflexivity|]. split; [reflexivity|].
    destruct (H1 (Some "staff-2") (Some "550000") Sample.confirmed Sample.confirmed_sale
                eq_refl eq_refl eq_refl eq_refl) as [H _].
    destruct (H eq_refl eq_refl) as [R _]. exact R.
  - split; [reflexivity|].
    destruct (H2 (Some "staff-1") (Some "550000") Sample.after_scan Sample.confirmed
                eq_refl (Some "staff-2") (Some " 550000 ") Sample.confirmed
                eq_refl eq_refl) as [H _].
    exact H.
Defined.

Lemma retry_bound_witness :
  (response (scan_create_POST Sample.two_apples
               (Sample.world (Sample.shop true)
                  (None :: None :: map Some (repeat Sample.collision 6))))
   = Ok (RETRY_EXHAUSTED (Some Sample.collision))
   /\ response (pos_create_POST (Some "staff-1") Sample.two_apples
                  (Sample.world (Sample.shop true)
                     (None :: map Some (repeat Sample.collision 6))))
      = Ok (RETRY_EXHAUSTED (Some Sample.collision)))
  /\ (response (scan_create_POST Sample.two_apples
                  (Sample.world (Sample.shop true)
                     (None :: None :: map Some (repeat Sample.collision 2)
                      ++ [Some Sample.outage])))
      = Ok (error_json Sample.outage 400)
      /\ response (pos_create_POST (Some "staff-1") Sample.two_apples
                     (Sample.world (Sample.shop true)
                        (None :: map Some (repeat Sample.collision 2)
                         ++ [Some Sample.outage])))
         = Ok (error_json Sample.outage 400)).
Proof.
  assert (N : parse_items Sample.two_apples <> []) by discriminate.
  split.
  - assert (D : Forall (fun m => isDup m = true) (repeat Sample.collision 6))
      by (repeat constructor).
    destruct (retry_bound (repeat Sample.collision 6) [] D) as [H _].
    destruct (H eq_refl) as [H1 H2].
    split.
    + destruct (H1 Sample.two_apples
                  (Sample.world (Sample.shop true)
                     (None :: None :: map Some (repeat Sample.collision 6)))
                  (Some (Sample.settings true)) N eq_refl eq_refl eq_refl) as [R _].
      exact R.
    + destruct (H2 (Some "staff-1") Sample.two_apples
                  (Sample.world (Sample.shop true)
                     (None :: map Some (repeat Sample.collision 6)))
                  eq_refl N eq_refl) as [R _].
      exact R.
  - assert (D : Forall (fun m => isDup m = true) (repeat Sample.collision 2))
      by (repeat constructor).
    destruct (retry_bound (repeat Sample.collision 2) [] D) as [_ H].
    assert (L : (length (repeat Sample.collision 2) < MAX_ATTEMPTS)%nat)
      by (unfold MAX_ATTEMPTS; simpl; lia).
    destruct (H Sample.outage L eq_refl) as [H1 H2].
    split.
    + destruct (H1 Sample.two_apples
                  (Sample.world (Sample.shop true)
                     (None :: None :: map Some (repeat Sample.collision 2)
                      ++ [Some Sample.outage]))
                  (Some (Sample.settings true)) N eq_refl eq_refl eq_refl) as [R _].
      exact R.
    + destruct (H2 (Some "staff-1") Sample.two_apples
                  (Sample.world (Sample.shop true)
                     (None :: map Some (repeat Sample.collision 2)
                      ++ [Some Sample.outage]))
                  eq_refl N eq_refl) as [R _].
      exact R.
Defined.

(** C3 as stated does not hold: the request carries an item whose quantity
    is zero, and the sale is created from the other item. *)
Lemma create_with_invalid_item_counterexample :
  In Sample.zero_qty (itemsRaw Sample.mixed)
  /\ gt (SaleItemInput.qty Sample.zero_qty) zero = false
  /\ response (scan_create_POST Sample.mixed (Sample.world (Sample.shop true) []))
     = Ok (json (CodeBody "550000") 200)
  /\ response (scan_create_POST Sample.mixed (Sample.world (Sample.shop true) []))
     <> Ok INVALID_ITEMS
  /\ map product_id
       (sale_items (db (world_after
          (scan_create_POST Sample.mixed (Sample.world (Sample.shop true) [])))))
     = ["A"].
Proof.
  split; [right; left; reflexivity|]. repeat split. discriminate.
Qed.

Lemma create_invalid_items_witness :
  (Forall (fun it => valid_item (normalize_item it) = false) (itemsRaw Sample.hopeless)
   /\ scan_create_POST Sample.hopeless (Sample.world (Sample.shop true) [])
      = (Ok INVALID_ITEMS, Sample.world (Sample.shop true) [])
   /\ pos_create_POST (Some "staff-1") Sample.hopeless (Sample.world (Sample.shop true) [])
      = (Ok INVALID_ITEMS, Sample.world (Sample.shop true) []))
  /\ (valid_item (normalize_item Sample.zero_qty) = false
      /\ scan_create_POST Sample.mixed
         = scan_create_POST (with_items Sample.mixed ([Sample.item "A" (of_Z 2)] ++ []))).
Proof.
  destruct (create_invalid_items Sample.hopeless) as [H1 _].
  destruct (create_invalid_items Sample.mixed) as [_ H2].
  split.
  - assert (F : Forall (fun it => valid_item (normalize_item it) = false)
                  (itemsRaw Sample.hopeless)) by (repeat constructor).
    split; [exact F|].
    destruct (H1 F (Sample.world (Sample.shop true) [])) as [R1 R2].
    split; [exact R1|]. apply R2. reflexivity.
  - split; [reflexivity|].
    destruct (H2 [Sample.item "A" (of_Z 2)] Sample.zero_qty [] eq_refl eq_refl)
      as [R _].
    exact R.
Defined.

(** C4 as stated does not hold: the product of the only item has no row in
    [products], the operation fails with MISSING_PRODUCT, and the sale that
    was inserted before the prices were looked at is there. *)
Lemma missing_product_orphan_counterexample :
  In Sample.unknown_item (parse_items Sample.unknown)
  /\ products_in (Sample.shop true) ["Z"] = []
  /\ response (scan_create_POST Sample.unknown (Sample.world (Sample.shop true) []))
     = Ok (MISSING_PRODUCT "Z")
  /\ sales (Sample.shop true) = []
  /\ map public_code
       (sales (db (world_after
          (scan_create_POST Sample.unknown (Sample.world (Sample.shop true) [])))))
     = ["550000"]
  /\ sale_items (db (world_after
       (scan_create_POST Sample.unknown (Sample.world (Sample.shop true) []))))
     = [].
Proof. split; [left; reflexivity|]. repeat split. Qed.

(** A request for an apple and for two products the shop does not have,
    Z before Y: both routes name Z. *)
Lemma missing_product_witness :
  let b := Sample.cart [Sample.item "A" (of_Z 1); Sample.unknown_item;
                        Sample.item "Y" (of_Z 1)] in
  let w := Sample.world (Sample.shop true) [] in
  In (Sample.item "Y" (of_Z 1)) (parse_items b)
  /\ (forall p, In p (products (db w)) -> prod_id p <> "Y")
  /\ ~ is_success (response (scan_create_POST b w))
  /\ (exists it,
        first_without_row (db w) (parse_items b) it
        /\ response (scan_create_POST b w) = Ok (MISSING_PRODUCT (pid it)))
  /\ (exists it,
        first_without_row (db w) (parse_items b) it
        /\ response (pos_create_POST (Some "staff-1") b w) = Ok (MISSING_PRODUCT (pid it)))
  /\ response (scan_create_POST b w) = Ok (MISSING_PRODUCT "Z")
  /\ response (pos_create_POST (Some "staff-1") b w) = Ok (MISSING_PRODUCT "Z").
Proof.
  intros b w.
  assert (I : In (Sample.item "Y" (of_Z 1)) (parse_items b))
    by (right; right; left; reflexivity).
  assert (N : forall p, In p (products (db w)) -> prod_id p <> "Y").
  { intros p [<-|[]]. discriminate. }
  split; [exact I|]. split; [exact N|].
  destruct (missing_product b (Sample.item "Y" (of_Z 1)) w I N) as [(H1 & _ & H2) H3].
  split; [exact H1|]. split; [|split; [|split; reflexivity]].
  - destruct (H2 (Some (Sample.settings true)) eq_refl eq_refl eq_refl eq_refl eq_refl)
      as (it & F & R & _).
    exists it. split; [exact F|exact R].
  - destruct (H3 (Some "staff-1")) as (_ & _ & H4).
    destruct (H4 eq_refl eq_refl eq_refl) as (it & F & R & _).
    exists it. split; [exact F|exact R].
Defined.

Lemma confirm_frame_witness :
  scan_confirm_POST (Some "staff-1") (Some "550000") Sample.after_scan
    = (Ok (json OkBody 200), Sample.confirmed)
  /\ List.NoDup (map id (sales (db Sample.after_scan)))
  /\ (exists s', In s' (sales (db Sample.confirmed)) /\ status s' = "PAID"
                 /\ staff_id s' = Some "staff-1")
  /\ response (scan_confirm_POST (Some "staff-1") (Some "123456") Sample.after_scan)
     = Ok CODE_NOT_FOUND.
Proof.
  assert (N : List.NoDup (map id (sales (db Sample.after_scan)))).
  { repeat constructor. intros []. }
  destruct confirm_frame as [H1 H2].
  split; [reflexivity|]. split; [exact N|]. split.
  - destruct (H1 (Some "staff-1") (Some "550000") Sample.after_scan Sample.confirmed
                eq_refl N)
      as (uid & s & s' & before & after & E & _ & _ & E2 & P1 & _ & P3 & _).
    exists s'. injection E as <-. split; [|split; assumption].
    rewrite E2. apply in_or_app. right. left. reflexivity.
  - destruct (H2 (Some "staff-1") (Some "123456") Sample.after_scan
                eq_refl eq_refl eq_refl eq_refl) as [R _].
    exact R.
Defined.

(** Two apples at 10.00: the row written carries the price of the product
    row as its unit price, and 20.00 as its line total. *)
Lemma line_totals_witness :
  rows_written Sample.two_apples (Sample.world (Sample.shop true) [])
    (scan_create_POST Sample.two_apples (Sample.world (Sample.shop true) []))
  /\ map price (products (Sample.shop true)) = [Some (of_Z 10)]
  /\ map (fun r => (product_id r, qty r, unit_price_at_time r, line_total r))
       (sale_items (db Sample.after_scan))
     = [("A", of_Z 2, of_Z 10, of_Z 20)]
  /\ scanTotal (sale_items (db Sample.after_scan)) = of_Z 20.
Proof.
  split.
  - exact (proj1 (line_totals Sample.two_apples (Sample.world (Sample.shop true) []))).
  - split; [reflexivity|]. split; vm_compute; reflexivity.
Defined.

Lemma lookup_paid_and_read_only_witness :
  sales_with_code (db Sample.confirmed) (trim (str_or (Some "550000") ""))
    = [Sample.confirmed_sale]
  /\ source Sample.confirmed_sale = "CUSTOMER_SCAN"
  /\ db (world_after (scan_lookup_GET (Some "550000") Sample.confirmed))
     = db Sample.confirmed
  /\ exists paid,
       response (scan_lookup_GET (Some "550000") Sample.confirmed)
       = Ok (json (LookupBody "550000" "CONFIRMED" "PAID" paid Sample.confirmed_sale
                     (items_of (db Sample.confirmed) Sample.confirmed_sale)) 200)
       /\ paid = true.
Proof.
  destruct lookup_paid_and_read_only as (H1 & _ & H3).
  split; [reflexivity|]. split; [reflexivity|]. split.
  - apply H1.
  - assert (L : (4 <= String.length (trim (str_or (Some "550000") "")))%nat)
      by (simpl; lia).
    destruct (H3 (Some "550000") Sample.confirmed Sample.confirmed_sale
                L eq_refl eq_refl eq_refl) as (paid & R & _ & E).
    exists paid. split; [exact R|]. apply E; reflexivity.
Defined.

Lemma scan_gating_witness :
  parse_items Sample.two_apples <> []
  /\ scan_disabled (Some (Sample.settings false)) = true
  /\ response (scan_create_POST Sample.two_apples (Sample.world (Sample.shop false) []))
     = Ok SCAN_DISABLED
  /\ pos_create_POST (Some "staff-1") Sample.two_apples
       (set_settings [] (Sample.world (Sample.shop false) []))
     = (response (pos_create_POST (Some "staff-1") Sample.two_apples
                    (Sample.world (Sample.shop false) [])),
        set_settings []
          (world_after (pos_create_POST (Some "staff-1") Sample.two_apples
                          (Sample.world (Sample.shop false) [])))).
Proof.
  destruct scan_gating as [H1 H2].
  assert (N : parse_items Sample.two_apples <> []) by discriminate.
  split; [exact N|]. split; [reflexivity|]. split.
  - destruct (H1 Sample.two_apples (Sample.world (Sample.shop false) [])
                (Some (Sample.settings false)) N eq_refl eq_refl eq_refl) as [R _].
    exact R.
  - destruct (H2 (Some "staff-1") Sample.two_apples
                (Sample.world (Sample.shop false) [])) as [_ R].
    apply R.
Defined.

Lemma genCode_six_digits_witness :
  unit_interval Sample.half
  /\ exists n, 100000 <= n <= 999999 /\ genCode Sample.half = decimal n.
Proof.
  assert (U : unit_interval Sample.half) by (repeat split).
  split; [exact U|].
  destruct (genCode_six_digits Sample.half U) as (n & B & E & _).
  exists n. split; [exact B|exact E].
Defined.

Lemma lookup_rejects_other_sources_witness :
  (4 <= String.length (trim (str_or (Some "550000") "")))%nat
  /\ sales_with_code (db Sample.after_manual) (trim (str_or (Some "550000") ""))
     = [Sample.manual_sale]
  /\ source Sample.manual_sale <> "CUSTOMER_SCAN"
  /\ response (scan_lookup_GET (Some "550000") Sample.after_manual)
     = Ok NOT_SCAN_CHECKOUT.
Proof.
  assert (L : (4 <= String.length (trim (str_or (Some "550000") "")))%nat)
    by (simpl; lia).
  assert (N : source Sample.manual_sale <> "CUSTOMER_SCAN") by discriminate.
  split; [exact L|]. split; [reflexivity|]. split; [exact N|].
  destruct (lookup_rejects_other_sources (Some "550000") Sample.after_manual
              Sample.manual_sale L eq_refl eq_refl N) as (_ & _ & R & _).
  exact R.
Defined.

(* ===================================================================== *)
(** ** Further properties of the routes and the pages *)
(* ===================================================================== *)

Ltac made :=
  unfold attempts_made;
  cbn [called Math_random ret snd inserted db random draws trace faults attempt_codes map];
  split; [reflexivity|];
  split; [lia|];
  split; [rewrite <- ?app_assoc; cbn [app]; rewrite ?app_nil_r; reflexivity|].

Lemma attempts_shape row items pm :
  carries_code row ->
  forall n lastErr w,
    exists k t,
      (k <= n)%nat
      /\ attempts_made row items pm k t w
           (snd (create_attempts row items pm n lastErr w)).
Proof.
  intros Hrow. induction n as [|n IH]; intros lastErr w.
  - exists 0%nat, []. split; [lia|]. simpl. made. left. auto.
  - destruct (hd None (faults w)) as [msg|] eqn:Hf.
    + rewrite (attempt_rejected_hd row items pm n lastErr w msg Hf). rewrite Hrow.
      destruct (isDup msg).
      * set (w1 := called _ _).
        destruct (IH (Some msg) w1) as (k & t & Hk & Hr & Hd & Ht & Ho).
        exists (S k), t. split; [lia|]. unfold attempts_made.
        rewrite Hr, Hd, Ht. subst w1. made.
        destruct Ho as [[-> E]|(new & Hk1 & Ha & Hb)].
        -- left. split; [reflexivity|exact E].
        -- right. exists new. split; [lia|].
           cbn [called Math_random snd random draws trace db] in Ha, Hb.
           replace (draws w + S k - 1)%nat with (S (draws w) + k - 1)%nat by lia.
           split; [exact Ha|exact Hb].
      * exists 1%nat, []. split; [lia|]. made. left. auto.
    + rewrite (attempt_inserted row items pm n lastErr w Hrow Hf).
      destruct (build_payload (next_id (db w)) pm items) as [payload|e] eqn:Eb.
      * unfold bind, insert_items, storage.
        destruct (hd None (faults (inserted row w))) eqn:Hf2;
          cbn [ret snd inserted db random draws trace faults].
        -- exists 1%nat, [InsertItems payload]. split; [lia|]. made.
           right. exists []. split; [lia|].
           replace (draws w + 1 - 1)%nat with (draws w) by lia.
           split.
           { unfold sale_added. cbn. rewrite app_nil_r. repeat split. }
           right. exists payload. auto.
        -- exists 1%nat, [InsertItems payload]. split; [lia|]. made.
           right. exists payload. split; [lia|].
           replace (draws w + 1 - 1)%nat with (draws w) by lia.
           split.
           { unfold sale_added. cbn. repeat split. }
           right. exists payload. auto.
      * exists 1%nat, []. split; [lia|]. made.
        right. exists []. split; [lia|].
        replace (draws w + 1 - 1)%nat with (draws w) by lia.
        split.
        { unfold sale_added. cbn. rewrite app_nil_r. repeat split. }
        left. eauto.
Qed.

Lemma try_catch_world (m : M Response) (h : string -> M Response) w :
  (forall e w', snd (h e w') = w') ->
  snd (try_catch m h w) = snd (m w).
Proof.
  intros Hh. unfold try_catch. destruct (m w) as [[r|e] w1]; [reflexivity|apply Hh].
Qed.

Lemma attempts_made_from row items pm k t w0 w w' reads :
  db w0 = db w -> random w0 = random w -> draws w0 = draws w ->
  trace w0 = (trace w ++ reads)%list ->
  attempts_made row items pm k t w0 w' ->
  random w' = random w
  /\ draws w' = (draws w + k)%nat
  /\ trace w' =
       (trace w ++ reads ++ map InsertSale (attempt_codes (random w) (draws w) k) ++ t)%list
  /\ loop_outcome row items pm k t w w'.
Proof.
  intros Ed Er Edr Et (H1 & H2 & H3 & H4).
  rewrite Er in H1, H3. rewrite Edr in H2, H3. rewrite Et in H3.
  rewrite <- app_assoc in H3.
  repeat (split; [assumption|]).
  unfold loop_outcome in *. rewrite Ed, Er, Edr in H4. exact H4.
Qed.

Lemma nothing_made row items pm w w' reads :
  db w' = db w -> random w' = random w -> draws w' = draws w ->
  trace w' = (trace w ++ reads)%list ->
  random w' = random w
  /\ draws w' = (draws w + 0)%nat
  /\ trace w' =
       (trace w ++ reads ++ map InsertSale (attempt_codes (random w) (draws w) 0) ++ [])%list
  /\ loop_outcome row items pm 0 [] w w'.
Proof.
  intros Ed Er Edr Et. split; [assumption|]. split; [lia|].
  split; [simpl; rewrite app_nil_r; assumption|]. left. auto.
Qed.

(** Every run of the scan route: which storage calls it makes and what it
    leaves in the database. *)
Lemma scan_create_shape b w :
  exists reads k t,
    (reads = [] \/ reads = [SelectSettings]
     \/ reads = [SelectSettings; SelectProducts (ids_of b)])
    /\ (k <= MAX_ATTEMPTS)%nat
    /\ (reads <> [SelectSettings; SelectProducts (ids_of b)] -> k = 0%nat)
    /\ let w' := world_after (scan_create_POST b w) in
       random w' = random w
       /\ draws w' = (draws w + k)%nat
       /\ trace w' =
            (trace w ++ reads
             ++ map InsertSale (attempt_codes (random w) (draws w) k) ++ t)%list
       /\ loop_outcome (scan_row (parse_payment_method b) (parse_momo_reference b))
            (parse_items b) (priceMap_of b (db w)) k t w w'.
Proof.
  unfold world_after.
  destruct (list_eq_nil_dec (parse_items b)) as [Hnil|Hne].
  { rewrite (scan_create_no_items b w Hnil). exists [], 0%nat, [].
    split; [auto|]. split; [lia|]. split; [reflexivity|].
    apply nothing_made; try reflexivity. simpl. rewrite app_nil_r. reflexivity. }
  destruct (hd None (faults w)) as [m|] eqn:Hf1.
  { rewrite (scan_create_read_rejected b w m Hne Hf1). exists [SelectSettings], 0%nat, [].
    split; [auto|]. split; [lia|]. split; [reflexivity|].
    apply nothing_made; reflexivity. }
  destruct (maybeSingle (settings_rows (db w))) as [s|m] eqn:Hs.
  2:{ rewrite (scan_create_settings_error b w m Hne Hf1 Hs).
      exists [SelectSettings], 0%nat, [].
      split; [auto|]. split; [lia|]. split; [reflexivity|].
      apply nothing_made; reflexivity. }
  destruct (scan_disabled s) eqn:Hd.
  { rewrite (scan_create_disabled b w s Hne Hf1 Hs Hd).
    exists [SelectSettings], 0%nat, [].
    split; [auto|]. split; [lia|]. split; [reflexivity|].
    apply nothing_made; reflexivity. }
  destruct (hd None (tl (faults w))) as [m|] eqn:Hf2.
  { rewrite (scan_create_prices_rejected b w s m Hne Hs Hd Hf1 Hf2).
    exists [SelectSettings; SelectProducts (ids_of b)], 0%nat, [].
    split; [auto|]. split; [lia|]. split; [reflexivity|].
    apply nothing_made; try reflexivity. simpl. rewrite <- app_assoc. reflexivity. }
  rewrite (scan_create_enters_loop b w s Hne Hs Hd Hf1 Hf2).
  rewrite try_catch_world by reflexivity.
  unfold scan_loop.
  destruct (attempts_shape _ (parse_items b) (priceMap_of b (db w))
              (scan_row_carries_code (parse_payment_method b) (parse_momo_reference b))
              MAX_ATTEMPTS None
              (called (SelectProducts (ids_of b)) (called SelectSettings w)))
    as (k & t & Hk & Hm).
  exists [SelectSettings; SelectProducts (ids_of b)], k, t.
  split; [auto|]. split; [exact Hk|]. split; [congruence|].
  eapply attempts_made_from; [..|exact Hm]; try reflexivity.
  simpl. rewrite <- app_assoc. reflexivity.
Qed.

Lemma pos_create_shape auth b w :
  exists reads k t,
    (reads = [] \/ reads = [SelectProducts (ids_of b)])
    /\ (k <= MAX_ATTEMPTS)%nat
    /\ (reads <> [SelectProducts (ids_of b)] -> k = 0%nat)
    /\ let w' := world_after (pos_create_POST auth b w) in
       random w' = random w
       /\ draws w' = (draws w + k)%nat
       /\ trace w' =
            (trace w ++ reads
             ++ map InsertSale (attempt_codes (random w) (draws w) k) ++ t)%list
       /\ loop_outcome
            (manual_row (str_or auth "") (parse_payment_method b) (parse_momo_reference b))
            (parse_items b) (priceMap_of b (db w)) k t w w'.
Proof.
  unfold world_after.
  destruct (nonempty (str_or auth "")) eqn:Hu.
  2:{ rewrite (pos_create_unauthorized auth b w Hu). exists [], 0%nat, [].
      split; [auto|]. split; [lia|]. split; [reflexivity|].
      apply nothing_made; try reflexivity. simpl. rewrite app_nil_r. reflexivity. }
  destruct (list_eq_nil_dec (parse_items b)) as [Hnil|Hne].
  { rewrite (pos_create_no_items auth b w Hu Hnil). exists [], 0%nat, [].
    split; [auto|]. split; [lia|]. split; [reflexivity|].
    apply nothing_made; try reflexivity. simpl. rewrite app_nil_r. reflexivity. }
  destruct (hd None (faults w)) as [m|] eqn:Hf1.
  { rewrite (pos_create_prices_rejected auth b w m Hu Hne Hf1).
    exists [SelectProducts (ids_of b)], 0%nat, [].
    split; [auto|]. split; [lia|]. split; [reflexivity|].
    apply nothing_made; reflexivity. }
  rewrite (pos_create_enters_loop auth b w Hu Hne Hf1).
  rewrite try_catch_world by reflexivity.
  unfold pos_loop.
  destruct (attempts_shape _ (parse_items b) (priceMap_of b (db w))
              (manual_row_carries_code (str_or auth "") (parse_payment_method b)
                 (parse_momo_reference b))
              MAX_ATTEMPTS None
              (called (SelectProducts (ids_of b)) w))
    as (k & t & Hk & Hm).
  exists [SelectProducts (ids_of b)], k, t.
  split; [auto|]. split; [exact Hk|]. split; [congruence|].
  eapply attempts_made_from; [..|exact Hm]; reflexivity.
Qed.

(** ** The path to success *)

Lemma attempts_commit msgs row items pm n lastErr w rest payload :
  Forall (fun m => isDup m = true) msgs ->
  carries_code row ->
  faults w = (map Some msgs ++ rest)%list ->
  hd None rest = None ->
  hd None (tl rest) = None ->
  build_payload (next_id (db w)) pm items = Ok payload ->
  create_attempts row items pm (length msgs + S n) lastErr w =
    (Ok (json (CodeBody (genCode (random w (draws w + length msgs)%nat))) 200),
     committed row payload (length msgs) (tl (tl rest)) w).
Proof.
  intros Hd Hrow Hf H1 H2 Hb.
  rewrite (attempts_skip msgs Hd row items pm (S n) lastErr w rest Hrow Hf).
  rewrite (attempt_inserted row items pm n _ (collided (length msgs) rest w) Hrow H1).
  cbn [collided db random draws]. rewrite Hb.
  unfold insert_items.
  erewrite bind_ok by (apply storage_ok; exact H2).
  unfold ret, committed. cbn [fst snd inserted collided db random draws trace faults].
  f_equal. f_equal.
  replace (S (length msgs)) with (length msgs + 1)%nat by lia.
  rewrite (attempt_codes_app (random w) (draws w) (length msgs) 1).
  rewrite map_app. cbn [attempt_codes map]. rewrite <- !app_assoc. reflexivity.
Qed.

Lemma priceMap_fold_In rows : forall (m : gmap string number) p,
  In p rows ->
  is_Some (fold_left (fun m r => <[prod_id r := price_number r]> m) rows m !! prod_id p).
Proof.
  induction rows as [|r rows IH]; intros m p Hp; [destruct Hp|].
  simpl. destruct Hp as [->|Hp]; [|apply IH; exact Hp].
  apply priceMap_fold_keeps. rewrite lookup_insert_eq. eauto.
Qed.

Lemma priceMap_of_known b d it :
  all_known b d = true -> In it (parse_items b) -> is_Some (priceMap_of b d !! pid it).
Proof.
  intros Hk Hin. unfold all_known in Hk. rewrite forallb_forall in Hk.
  specialize (Hk it Hin). apply existsb_exists in Hk. destruct Hk as (p & Hp & E).
  apply String.eqb_eq in E. rewrite <- E.
  apply priceMap_fold_In. unfold products_in. apply List.filter_In.
  split; [exact Hp|].
  apply bool_decide_eq_true. unfold ids_of. apply distinct_elem.
  rewrite E. apply list_elem_of_In. apply in_map. exact Hin.
Qed.

Lemma build_payload_total sid pm items :
  (forall it, In it items -> is_Some (pm !! pid it)) ->
  exists rows, build_payload sid pm items = Ok rows.
Proof.
  induction items as [|x items IH]; intros H; simpl; [eauto|].
  fold pid. destruct (H x (or_introl eq_refl)) as [u ->].
  destruct IH as [rows ->]; [intros it Hit; apply H; right; exact Hit|]. eauto.
Qed.

Lemma payload_known b d sid :
  all_known b d = true ->
  exists rows, build_payload sid (priceMap_of b d) (parse_items b) = Ok rows.
Proof.
  intros Hk. apply build_payload_total. intros it Hit.
  apply priceMap_of_known; assumption.
Qed.

Lemma accepted_S (n : nat) (l : list (option string)) :
  accepted (S n) l = true -> hd None l = None /\ accepted n (tl l) = true.
Proof. cbn [accepted]. destruct (hd None l); [discriminate|auto]. Qed.

Lemma accepted_le (n m : nat) : (n <= m)%nat ->
  forall l, accepted m l = true -> accepted n l = true.
Proof.
  revert m. induction n as [|n IH]; intros m Hle l H; [reflexivity|].
  destruct m as [|m]; [lia|].
  apply accepted_S in H. destruct H as [H1 H2].
  cbn [accepted]. rewrite H1. apply (IH m); [lia|exact H2].
Qed.

Lemma accepted_skipn (k n : nat) : forall l,
  accepted (k + n) l = true -> accepted n (skipn k l) = true.
Proof.
  induction k as [|k IH]; intros l H; [exact H|].
  apply accepted_S in H. destruct H as [_ H].
  destruct l as [|a l]; [|exact (IH l H)].
  cbn [skipn]. cbn [tl] in H. specialize (IH [] H). destruct k; exact IH.
Qed.

Lemma skipn_1 {A} (l : list A) : skipn 1 l = tl l.
Proof. destruct l; reflexivity. Qed.

Lemma skipn_2 {A} (l : list A) : skipn 2 l = tl (tl l).
Proof. destruct l as [|a [|b l]]; reflexivity. Qed.

Lemma scan_create_commits b w s msgs rest payload :
  parse_items b <> [] ->
  maybeSingle (settings_rows (db w)) = Data s ->
  scan_disabled s = false ->
  Forall (fun m => isDup m = true) msgs ->
  (length msgs < MAX_ATTEMPTS)%nat ->
  accepted 2 (faults w) = true ->
  skipn 2 (faults w) = (map Some msgs ++ rest)%list ->
  accepted 2 rest = true ->
  build_payload (next_id (db w)) (priceMap_of b (db w)) (parse_items b) = Ok payload ->
  scan_create_POST b w =
    (Ok (json (CodeBody (genCode (random w (draws w + length msgs)%nat))) 200),
     committed (scan_row (parse_payment_method b) (parse_momo_reference b)) payload
       (length msgs) (tl (tl rest))
       (called (SelectProducts (ids_of b)) (called SelectSettings w))).
Proof.
  intros Hne Hs Hd Hdup Hlen Ha Hf Hr Hb.
  apply accepted_S in Ha. destruct Ha as [Hf1 Ha].
  apply accepted_S in Ha. destruct Ha as [Hf2 _].
  apply accepted_S in Hr. destruct Hr as [H1 Hr].
  apply accepted_S in Hr. destruct Hr as [H2 _].
  rewrite skipn_2 in Hf.
  rewrite (scan_create_enters_loop b w s Hne Hs Hd Hf1 Hf2).
  unfold try_catch, scan_loop.
  replace MAX_ATTEMPTS with (length msgs + S (MAX_ATTEMPTS - length msgs - 1))%nat by lia.
  erewrite attempts_commit;
    [reflexivity|exact Hdup|apply scan_row_carries_code|exact Hf|exact H1|exact H2|exact Hb].
Qed.

Lemma pos_create_commits auth b w msgs rest payload :
  nonempty (str_or auth "") = true ->
  parse_items b <> [] ->
  Forall (fun m => isDup m = true) msgs ->
  (length msgs < MAX_ATTEMPTS)%nat ->
  accepted 1 (faults w) = true ->
  skipn 1 (faults w) = (map Some msgs ++ rest)%list ->
  accepted 2 rest = true ->
  build_payload (next_id (db w)) (priceMap_of b (db w)) (parse_items b) = Ok payload ->
  pos_create_POST auth b w =
    (Ok (json (CodeBody (genCode (random w (draws w + length msgs)%nat))) 200),
     committed (manual_row (str_or auth "") (parse_payment_method b) (parse_momo_reference b))
       payload (length msgs) (tl (tl rest))
       (called (SelectProducts (ids_of b)) w)).
Proof.
  intros Hu Hne Hdup Hlen Ha Hf Hr Hb.
  apply accepted_S in Ha. destruct Ha as [Hf1 _].
  apply accepted_S in Hr. destruct Hr as [H1 Hr].
  apply accepted_S in Hr. destruct Hr as [H2 _].
  rewrite skipn_1 in Hf.
  rewrite (pos_create_enters_loop auth b w Hu Hne Hf1).
  unfold try_catch, pos_loop.
  replace MAX_ATTEMPTS with (length msgs + S (MAX_ATTEMPTS - length msgs - 1))%nat by lia.
  erewrite attempts_commit;
    [reflexivity|exact Hdup|apply manual_row_carries_code|exact Hf|exact H1|exact H2|exact Hb].
Qed.

(** ** Trimming *)

Lemma append_cons (x : ascii) (a b : string) : String x a ++ b = String x (a ++ b).
Proof. reflexivity. Qed.

Lemma append_assoc (a b c : string) : (a ++ b) ++ c = a ++ (b ++ c).
Proof.
  induction a as [|x a IH]; [reflexivity|]. rewrite !append_cons, IH. reflexivity.
Qed.

Lemma rev_app_append (s : string) : forall acc,
  String.rev_app s acc = String.rev_app s EmptyString ++ acc.
Proof.
  induction s as [|x s IH]; intros acc; [reflexivity|].
  cbn [String.rev_app]. rewrite (IH (String x acc)), (IH (String x EmptyString)).
  rewrite append_assoc. reflexivity.
Qed.

Lemma rev_cons (x : ascii) (s : string) :
  String.rev (String x s) = String.rev s ++ String x EmptyString.
Proof. unfold String.rev. cbn [String.rev_app]. apply rev_app_append. Qed.

Lemma rev_snoc (s : string) (c : ascii) :
  String.rev (s ++ String c EmptyString) = String c (String.rev s).
Proof.
  induction s as [|x s IH]; [reflexivity|].
  rewrite append_cons, !rev_cons, IH. reflexivity.
Qed.

Lemma rev_rev (s : string) : String.rev (String.rev s) = s.
Proof.
  induction s as [|x s IH]; [reflexivity|].
  rewrite rev_cons, rev_snoc, IH. reflexivity.
Qed.

Lemma trimStart_snoc (s : string) (c : ascii) :
  is_space c = false ->
  trimStart (s ++ String c EmptyString) = trimStart s ++ String c EmptyString.
Proof.
  intros Hc. induction s as [|x s IH].
  - change (EmptyString ++ String c EmptyString) with (String c EmptyString).
    cbn [trimStart]. rewrite Hc. reflexivity.
  - rewrite append_cons. cbn [trimStart].
    destruct (is_space x); [exact IH|reflexivity].
Qed.

(** [trimEnd] leaves a leading character that is not white space where it is. *)
Lemma trimEnd_cons (c : ascii) (s : string) :
  is_space c = false -> trimEnd (String c s) = String c (trimEnd s).
Proof.
  intros Hc. unfold trimEnd.
  rewrite rev_cons, (trimStart_snoc _ c Hc). apply rev_snoc.
Qed.

Lemma trimStart_clean (s : string) : starts_clean (trimStart s).
Proof.
  induction s as [|c s IH]; [exact I|].
  cbn [trimStart]. destruct (is_space c) eqn:E; [exact IH|exact E].
Qed.

Lemma trimStart_id (s : string) : starts_clean s -> trimStart s = s.
Proof. destruct s as [|c s]; [reflexivity|]. simpl. intros ->. reflexivity. Qed.

Lemma trimEnd_clean (s : string) : starts_clean s -> starts_clean (trimEnd s).
Proof.
  destruct s as [|c s]; [intros _; exact I|].
  intros Hc. simpl in Hc. rewrite (trimEnd_cons c s Hc). exact Hc.
Qed.

Lemma trimEnd_trimEnd (s : string) : trimEnd (trimEnd s) = trimEnd s.
Proof.
  unfold trimEnd. rewrite rev_rev.
  rewrite (trimStart_id _ (trimStart_clean _)). reflexivity.
Qed.

Lemma trim_trim (s : string) : trim (trim s) = trim s.
Proof.
  unfold trim.
  rewrite (trimStart_id (trimEnd (trimStart s)))
    by (apply trimEnd_clean, trimStart_clean).
  apply trimEnd_trimEnd.
Qed.

Lemma trim_no_space (s : string) : no_space s = true -> trim s = s.
Proof.
  intros H. unfold trim.
  assert (E : trimEnd s = s).
  { induction s as [|c s IH]; [reflexivity|].
    simpl in H. apply andb_true_iff in H. destruct H as [Hc Hs].
    apply negb_true_iff in Hc. rewrite (trimEnd_cons c s Hc), (IH Hs). reflexivity. }
  rewrite trimStart_id; [exact E|].
  destruct s as [|c s]; [exact I|]. simpl in *.
  apply andb_true_iff in H. destruct H as [Hc _]. apply negb_true_iff in Hc. exact Hc.
Qed.

Lemma digit_not_space (d : Z) : 0 <= d <= 9 -> is_space (digit_char d) = false.
Proof.
  intros Hd. unfold is_space, digit_char. rewrite nat_ascii_embedding by lia.
  assert (H : exists k, (k <= 9)%nat /\ Z.to_nat d = k) by (exists (Z.to_nat d); lia).
  destruct H as (k & Hk & ->).
  do 10 (destruct k as [|k]; [reflexivity|]). lia.
Qed.

Lemma genCode_decimal (r : number) :
  unit_interval r ->
  exists n, 100000 <= n <= 999999 /\ genCode r = decimal n.
Proof.
  intros Hr. unfold genCode.
  destruct (sum_bounds r Hr) as [Ha Hb].
  destruct (add (of_Z 100000) (mul r (of_Z 900000))) as [s|s| |[|] m e];
    simpl in Ha, Hb; try contradiction.
  destruct Ha as [_ A]. destruct Hb as [He B].
  assert (Hneg : (0 <=? e) = false) by (apply Z.leb_gt; lia).
  unfold Math_floor. rewrite Hneg. cbn [cond_Zopp].
  set (n := Z.shiftl (Zpos m) e).
  assert (Hn : 100000 <= n <= 999999).
  { subst n. rewrite Z.shiftl_div_pow2 by lia.
    replace (0 - e) with (- e) in A by lia.
    replace (- e) with (33 + (-33 - e)) in * by lia.
    rewrite pow2_split in * by lia.
    pose proof (pow2_pos (-33 - e) ltac:(lia)) as P.
    change (2 ^ 33) with 8589934592 in *.
    split.
    - apply Z.div_le_lower_bound; lia.
    - assert (Zpos m / (8589934592 * 2 ^ (-33 - e)) < 1000000); [|lia].
      apply Z.div_lt_upper_bound; lia. }
  exists n. split; [exact Hn|].
  apply (String_integral_of_Z n). change (2 ^ 53) with 9007199254740992. lia.
Qed.

(** A generated code is what the lookup and confirm routes make of it: it
    has no white space to trim and at least four characters. *)
Lemma genCode_canonical (r : number) :
  unit_interval r ->
  trim (str_or (Some (genCode r)) "") = genCode r
  /\ String.length (genCode r) = 6%nat
  /\ nonempty (genCode r) = true.
Proof.
  intros Hr. destruct (genCode_decimal r Hr) as (n & Hn & ->).
  rewrite (decimal_six n Hn).
  assert (D5 : 0 <= n / 100000 <= 9).
  { split; [apply Z.div_le_lower_bound; lia|].
    assert (n / 100000 < 10) by (apply Z.div_lt_upper_bound; lia). lia. }
  pose proof (Z.mod_pos_bound (n / 10000) 10 ltac:(lia)).
  pose proof (Z.mod_pos_bound (n / 1000) 10 ltac:(lia)).
  pose proof (Z.mod_pos_bound (n / 100) 10 ltac:(lia)).
  pose proof (Z.mod_pos_bound (n / 10) 10 ltac:(lia)).
  pose proof (Z.mod_pos_bound n 10 ltac:(lia)).
  split; [|split; reflexivity].
  cbn [str_or nonempty]. apply trim_no_space. cbn [no_space].
  rewrite !digit_not_space by lia. reflexivity.
Qed.

(** ** Creating a sale and reading it back *)

Lemma sales_with_code_committed row payload k rest w :
  carries_code row ->
  sales_with_code (db w) (genCode (random w (draws w + k)%nat)) = [] ->
  sales_with_code (db (committed row payload k rest w))
    (genCode (random w (draws w + k)%nat)) =
    [new_sale (db w) (row (genCode (random w (draws w + k)%nat)))].
Proof.
  intros Hrow Hfresh. unfold sales_with_code, committed in *. cbn [db sales].
  rewrite List.filter_app, Hfresh. cbn [List.filter new_sale public_code app].
  rewrite Hrow, String.eqb_refl. reflexivity.
Qed.

Lemma filter_all {A} (p : A -> bool) (l : list A) :
  Forall (fun x => p x = true) l -> List.filter p l = l.
Proof.
  induction 1 as [|x l Hx _ IH]; [reflexivity|]. simpl. rewrite Hx, IH. reflexivity.
Qed.

Lemma filter_none {A} (p : A -> bool) (l : list A) :
  Forall (fun x => p x = false) l -> List.filter p l = [].
Proof.
  induction 1 as [|x l Hx _ IH]; [reflexivity|]. simpl. rewrite Hx, IH. reflexivity.
Qed.

Lemma items_of_committed row payload k rest w pm items :
  Forall (fun it => sale_id it <> next_id (db w)) (sale_items (db w)) ->
  build_payload (next_id (db w)) pm items = Ok payload ->
  map fst (items_of (db (committed row payload k rest w))
             (new_sale (db w) (row (genCode (random w (draws w + k)%nat))))) = payload.
Proof.
  intros Hold Hb. unfold items_of, committed. cbn [db sale_items new_sale id products].
  rewrite map_map. cbn [fst]. rewrite map_id.
  rewrite List.filter_app.
  rewrite (filter_none _ (sale_items (db w))).
  - apply filter_all. apply build_payload_Ok_map in Hb. destruct Hb as (_ & _ & Hb).
    eapply List.Forall_impl; [|exact Hb]. intros r ->. apply Z.eqb_refl.
  - eapply List.Forall_impl; [|exact Hold]. intros r Hr. apply Z.eqb_neq. exact Hr.
Qed.

Lemma create_then_lookup (b : CreateBody) (w : World) (s : option ShopSettings)
    (msgs : list string) (rest : list (option string)) :
  let code := genCode (random w (draws w + length msgs)%nat) in
  let sale :=
    new_sale (db w) (scan_row (parse_payment_method b) (parse_momo_reference b) code) in
  let created := scan_create_POST b w in
  parse_items b <> [] ->
  maybeSingle (settings_rows (db w)) = Data s ->
  scan_disabled s = false ->
  all_known b (db w) = true ->
  Forall (fun m => isDup m = true) msgs ->
  (length msgs < MAX_ATTEMPTS)%nat ->
  accepted 2 (faults w) = true ->
  skipn 2 (faults w) = (map Some msgs ++ rest)%list ->
  accepted 3 rest = true ->
  unit_interval (random w (draws w + length msgs)%nat) ->
  sales_with_code (db w) code = [] ->
  Forall (fun it => sale_id it <> next_id (db w)) (sale_items (db w)) ->
  exists payload,
    build_payload (next_id (db w)) (priceMap_of b (db w)) (parse_items b) = Ok payload
    /\ response created = Ok (json (CodeBody code) 200)
    /\ response (scan_lookup_GET (Some code) (world_after created)) =
         Ok (json (LookupBody code "PENDING" "PENDING" false sale
                     (items_of (db (world_after created)) sale)) 200)
    /\ map fst (items_of (db (world_after created)) sale) = payload.
Proof.
  intros code sale created Hne Hs Hd Hk Hdup Hlen Ha Hf Hacc Hr Hfresh Hold.
  destruct (payload_known b (db w) (next_id (db w)) Hk) as [payload Hb].
  exists payload. split; [exact Hb|].
  assert (Hacc2 : accepted 2 rest = true) by (apply (accepted_le 2 3); [lia|exact Hacc]).
  assert (H3 : hd None (tl (tl rest)) = None).
  { apply accepted_S in Hacc. destruct Hacc as [_ Hacc].
    apply accepted_S in Hacc. destruct Hacc as [_ Hacc].
    apply accepted_S in Hacc. tauto. }
  subst created.
  rewrite (scan_create_commits b w s msgs rest payload
             Hne Hs Hd Hdup Hlen Ha Hf Hacc2 Hb).
  fold code. cbn [response world_after fst snd].
  split; [reflexivity|].
  destruct (genCode_canonical _ Hr) as (Et & El & _). fold code in Et, El.
  set (row := scan_row (parse_payment_method b) (parse_momo_reference b)).
  set (w0 := called (SelectProducts (ids_of b)) (called SelectSettings w)).
  assert (Hrow : carries_code row) by apply scan_row_carries_code.
  pose proof (sales_with_code_committed row payload (length msgs) (tl (tl rest)) w0
                Hrow Hfresh) as Hone.
  fold code in Hone.
  rewrite (lookup_found (Some code) _ sale);
    [|rewrite Et, El; lia|exact H3|rewrite Et; exact Hone].
  split; [reflexivity|].
  exact (items_of_committed row payload (length msgs) (tl (tl rest)) w0 _ _ Hold Hb).
Qed.

Lemma lines_of_payload sid pm (items : list SaleItemInput.t)
    (shown : list (SaleItem * option Product)) :
  build_payload sid pm items = Ok (map fst shown) ->
  map (fun r => (product_id (fst r), qty (fst r))) shown =
    map (fun it => (pid it, SaleItemInput.qty it)) items.
Proof.
  intros Hb. apply build_payload_Ok_map in Hb. destruct Hb as (E1 & E2 & _).
  rewrite !map_map in E1, E2. revert shown E1 E2.
  induction items as [|x l IH]; intros [|y l'] E1 E2; try discriminate; [reflexivity|].
  simpl in *. injection E1 as E1 E1'. injection E2 as E2 E2'.
  rewrite E1, E2, (IH l' E1' E2'). reflexivity.
Qed.

(** X5.  A scan sale that was created, on the first attempt or after
    collisions, can be looked up by the code the route answered with: the
    lookup shows it pending and unpaid, with one item for each item of the
    request, in order, with the product and the quantity asked for. *)
Theorem scan_create_then_lookup (b : CreateBody) (w : World) (s : option ShopSettings)
    (msgs : list string) (rest : list (option string)) :
  let code := genCode (random w (draws w + length msgs)%nat) in
  let sale :=
    new_sale (db w) (scan_row (parse_payment_method b) (parse_momo_reference b) code) in
  let created := scan_create_POST b w in
  parse_items b <> [] ->
  maybeSingle (settings_rows (db w)) = Data s ->
  scan_disabled s = false ->
  all_known b (db w) = true ->
  Forall (fun m => isDup m = true) msgs ->
  (length msgs < MAX_ATTEMPTS)%nat ->
  accepted 2 (faults w) = true ->
  skipn 2 (faults w) = (map Some msgs ++ rest)%list ->
  accepted 3 rest = true ->
  unit_interval (random w (draws w + length msgs)%nat) ->
  sales_with_code (db w) code = [] ->
  Forall (fun it => sale_id it <> next_id (db w)) (sale_items (db w)) ->
  response created = Ok (json (CodeBody code) 200)
  /\ exists items,
       response (scan_lookup_GET (Some code) (world_after created)) =
         Ok (json (LookupBody code "PENDING" "PENDING" false sale items) 200)
       /\ build_payload (next_id (db w)) (priceMap_of b (db w)) (parse_items b) =
            Ok (map fst items)
       /\ map (fun r => (product_id (fst r), qty (fst r))) items =
            map (fun it => (pid it, SaleItemInput.qty it)) (parse_items b).
Proof.
  intros code sale created Hne Hs Hd Hk Hdup Hlen Ha Hf Hacc Hr Hfresh Hold.
  destruct (create_then_lookup b w s msgs rest Hne Hs Hd Hk Hdup Hlen Ha Hf Hacc Hr
              Hfresh Hold) as (payload & Hb & R & L & Hi).
  split; [exact R|].
  exists (items_of (db (world_after created)) sale).
  split; [exact L|].
  fold created sale in Hi. rewrite <- Hi in Hb.
  split; [exact Hb|].
  exact (lines_of_payload _ _ _ _ Hb).
Qed.

(** X6.  A sale entered at the till is stored as paid, with the signed-in user
    as staff, and its code is no scan code: the lookup answers
    NOT_SCAN_CHECKOUT and the confirmation NOT_SCAN_SOURCE, and the
    confirmation leaves the database as it is. *)
Theorem manual_sale_is_final (auth staff : option string) (b : CreateBody) (w : World)
    (msgs : list string) (rest : list (option string)) :
  let code := genCode (random w (draws w + length msgs)%nat) in
  let sale :=
    new_sale (db w)
      (manual_row (str_or auth "") (parse_payment_method b) (parse_momo_reference b) code) in
  let created := pos_create_POST auth b w in
  nonempty (str_or auth "") = true ->
  nonempty (str_or staff "") = true ->
  parse_items b <> [] ->
  all_known b (db w) = true ->
  Forall (fun m => isDup m = true) msgs ->
  (length msgs < MAX_ATTEMPTS)%nat ->
  accepted 1 (faults w) = true ->
  skipn 1 (faults w) = (map Some msgs ++ rest)%list ->
  accepted 3 rest = true ->
  unit_interval (random w (draws w + length msgs)%nat) ->
  sales_with_code (db w) code = [] ->
  response created = Ok (json (CodeBody code) 200)
  /\ sales (db (world_after created)) = (sales (db w) ++ [sale])%list
  /\ status sale = "PAID" /\ payment_status sale = "CONFIRMED"
  /\ staff_id sale = auth
  /\ response (scan_lookup_GET (Some code) (world_after created)) = Ok NOT_SCAN_CHECKOUT
  /\ response (scan_confirm_POST staff (Some code) (world_after created))
       = Ok NOT_SCAN_SOURCE
  /\ db (world_after (scan_confirm_POST staff (Some code) (world_after created)))
       = db (world_after created).
Proof.
  intros code sale created Hu Hst Hne Hk Hdup Hlen Ha Hf Hacc Hr Hfresh.
  destruct (payload_known b (db w) (next_id (db w)) Hk) as [payload Hb].
  assert (Hacc2 : accepted 2 rest = true).
  { apply accepted_S in Hacc. destruct Hacc as [H1 Hacc].
    apply accepted_S in Hacc. destruct Hacc as [H2 _].
    cbn [accepted]. rewrite H1, H2. reflexivity. }
  assert (H3 : hd None (tl (tl rest)) = None).
  { apply accepted_S in Hacc. destruct Hacc as [_ Hacc].
    apply accepted_S in Hacc. destruct Hacc as [_ Hacc].
    apply accepted_S in Hacc. tauto. }
  subst created.
  rewrite (pos_create_commits auth b w msgs rest payload
             Hu Hne Hdup Hlen Ha Hf Hacc2 Hb).
  fold code. cbn [response world_after fst snd].
  split; [reflexivity|]. split; [reflexivity|].
  split; [reflexivity|]. split; [reflexivity|].
  split.
  { cbn [sale new_sale staff_id manual_row ins_staff_id].
    destruct auth as [[|c u]|]; [discriminate|reflexivity|discriminate]. }
  destruct (genCode_canonical _ Hr) as (Et & El & Hn). fold code in Et, El, Hn.
  set (row := manual_row (str_or auth "") (parse_payment_method b) (parse_momo_reference b)).
  set (w0 := called (SelectProducts (ids_of b)) w).
  assert (Hrow : carries_code row) by apply manual_row_carries_code.
  pose proof (sales_with_code_committed row payload (length msgs) (tl (tl rest)) w0
                Hrow Hfresh) as Hone.
  fold code in Hone.
  rewrite (lookup_found (Some code) _ sale);
    [|rewrite Et, El; lia|exact H3|rewrite Et; exact Hone].
  rewrite (confirm_found staff (Some code) _ sale Hst);
    [|rewrite Et; exact Hn|exact H3|rewrite Et; exact Hone].
  split; [reflexivity|]. split; reflexivity.
Qed.

(** ** From pending to paid *)

Lemma sales_with_code_updated d c u s :
  sales_with_code d c = [s] ->
  sales_with_code
    (with_sales d (map (fun r => if id r =? id s then apply_update u r else r) (sales d))) c
  = [apply_update u s].
Proof.
  intros Hs. unfold sales_with_code in *. cbn [with_sales sales].
  rewrite filter_map_same.
  - rewrite Hs. cbn [map]. rewrite Z.eqb_refl. reflexivity.
  - intros r. destruct (id r =? id s); reflexivity.
Qed.

Lemma sales_with_code_public_code d c s :
  sales_with_code d c = [s] -> public_code s = c.
Proof.
  intros H. assert (Hin : In s (sales_with_code d c)) by (rewrite H; left; reflexivity).
  apply List.filter_In in Hin. destruct Hin as [_ E]. apply String.eqb_eq in E. exact E.
Qed.

Lemma str_or_trimmed (c : string) (v : option string) :
  c = trim (str_or v "") -> nonempty c = true -> trim (str_or (Some c) "") = c.
Proof.
  intros -> Hn. cbn [str_or]. rewrite Hn. apply trim_trim.
Qed.

(** X8.  At the till: staff look a pending scan sale up by the code typed in,
    see it unpaid, and confirm it with the code of the sale shown.  The
    confirmation succeeds, and the next lookup, the customer's poll
    included, answers [paid = true] for the same sale with the same items. *)
Theorem counter_flow (auth typed : option string) (w : World) (s : Sale) :
  let c := trim (str_or typed "") in
  let looked := scan_lookup_GET typed w in
  let confirmed := scan_confirm_POST auth (Some (public_code s)) (world_after looked) in
  let s' := apply_update (confirmation (str_or auth "")) s in
  nonempty (str_or auth "") = true ->
  (4 <= String.length c)%nat ->
  sales_with_code (db w) c = [s] ->
  source s = "CUSTOMER_SCAN" ->
  already_confirmed s = false ->
  accepted 4 (faults w) = true ->
  response looked =
    Ok (json (LookupBody (public_code s) (payment_status s) (status s) false
                s (items_of (db w) s)) 200)
  /\ response confirmed = Ok (json OkBody 200)
  /\ response (scan_lookup_GET typed (world_after confirmed)) =
       Ok (json (LookupBody (public_code s) "CONFIRMED" "PAID" true
                   s' (items_of (db w) s)) 200)
  /\ staff_id s' = Some (str_or auth "").
Proof.
  intros c looked confirmed s' Hu Hlen Hs Hsrc Ha Hacc.
  apply accepted_S in Hacc. destruct Hacc as [Hf1 Hacc].
  apply accepted_S in Hacc. destruct Hacc as [Hf2 Hacc].
  apply accepted_S in Hacc. destruct Hacc as [Hf3 Hacc].
  apply accepted_S in Hacc. destruct Hacc as [Hf4 _].
  assert (Hc : nonempty c = true) by (destruct c; [simpl in Hlen; lia|reflexivity]).
  pose proof (sales_with_code_public_code _ _ _ Hs) as Hpc.
  assert (Ht : trim (str_or (Some (public_code s)) "") = c)
    by (rewrite Hpc; apply (str_or_trimmed c typed eq_refl Hc)).
  subst confirmed looked.
  rewrite (lookup_found typed w s Hlen Hf1 Hs).
  rewrite Hsrc. change (String.eqb "CUSTOMER_SCAN" "CUSTOMER_SCAN") with true.
  cbn iota. cbn [response world_after fst snd].
  split.
  { unfold already_confirmed in Ha. rewrite orb_comm in Ha. rewrite Ha. reflexivity. }
  rewrite (confirm_found auth (Some (public_code s)) _ s Hu);
    [|rewrite Ht; exact Hc|exact Hf2|rewrite Ht; exact Hs].
  rewrite Hsrc, Ha. change (String.eqb "CUSTOMER_SCAN" "CUSTOMER_SCAN") with true.
  cbn [negb faults]. rewrite Hf3. cbn [fst snd].
  split; [reflexivity|].
  rewrite (lookup_found typed _ s' Hlen);
    [|exact Hf4|apply sales_with_code_updated; exact Hs].
  change (source s') with (source s). rewrite Hsrc.
  split; reflexivity.
Qed.

(** ** The two status columns *)

Lemma confirm_db auth code w :
  db (world_after (scan_confirm_POST auth code w)) = db w
  \/ exists s,
       In s (sales (db w))
       /\ db (world_after (scan_confirm_POST auth code w)) =
          with_sales (db w)
            (map (fun r => if id r =? id s
                           then apply_update (confirmation (str_or auth "")) r else r)
                 (sales (db w))).
Proof.
  unfold world_after.
  destruct (nonempty (str_or auth "")) eqn:Hu.
  2:{ left. unfold scan_confirm_POST, try_catch. rewrite Hu. reflexivity. }
  destruct (nonempty (trim (str_or code ""))) eqn:Hc.
  2:{ left. unfold scan_confirm_POST, try_catch. rewrite Hu, Hc. reflexivity. }
  destruct (hd None (faults w)) as [msg|] eqn:Hf.
  { left. unfold scan_confirm_POST, try_catch, select_sale. rewrite Hu, Hc.
    cbn [negb].
    erewrite bind_ok by (apply storage_rejected; eassumption). reflexivity. }
  destruct (sales_with_code (db w) (trim (str_or code ""))) as [|s [|s2 rest]] eqn:Hs.
  - left. rewrite (confirm_not_found auth code w Hu Hc Hf Hs). reflexivity.
  - rewrite (confirm_found auth code w s Hu Hc Hf Hs).
    destruct (negb (String.eqb (source s) "CUSTOMER_SCAN")); [left; reflexivity|].
    destruct (already_confirmed s); [left; reflexivity|].
    destruct (hd None (tl (faults w))); [left; reflexivity|].
    right. exists s. split; [|reflexivity].
    assert (H : In s (sales_with_code (db w) (trim (str_or code ""))))
      by (rewrite Hs; left; reflexivity).
    apply List.filter_In in H. tauto.
  - left. unfold scan_confirm_POST, try_catch, select_sale. rewrite Hu, Hc.
    cbn [negb].
    erewrite bind_ok by (apply storage_ok; assumption).
    unfold read; cbn [fst snd]. rewrite Hs. reflexivity.
Qed.

Lemma pos_confirm_db auth code w :
  db (world_after (pos_confirm_scan_POST auth code w)) = db w
  \/ exists uid c,
       db (world_after (pos_confirm_scan_POST auth code w)) =
       with_sales (db w)
         (map (fun r => if String.eqb (public_code r) c
                        then apply_update (pos_confirmation uid) r else r)
              (sales (db w))).
Proof.
  unfold world_after, pos_confirm_scan_POST.
  destruct auth as [uid|]; [|left; reflexivity].
  destruct (nonempty (trim (str_or code ""))); [|left; reflexivity].
  cbn [negb]. unfold update_sale_by_code, bind, storage.
  destruct (hd None (faults w)); [left; reflexivity|].
  destruct (maybeSingle (sales_with_code (db w) (trim (str_or code "")))) as [[s|]|m];
    [|left; reflexivity|left; reflexivity].
  right. exists uid, (trim (str_or code "")). reflexivity.
Qed.

Lemma coherent_map (f : Sale -> Sale) (p : Sale -> bool) (l : list Sale) :
  (forall r, coherent (f r) = true) ->
  Forall (fun r => coherent r = true) l ->
  Forall (fun r => coherent r = true) (map (fun r => if p r then f r else r) l).
Proof.
  intros Hf H. induction H as [|r l Hr _ IH]; [constructor|].
  simpl. constructor; [|exact IH]. destruct (p r); [apply Hf|exact Hr].
Qed.

Lemma loop_outcome_coherent row items pm k t w w' :
  (forall c, coherent (new_sale (db w) (row c)) = true) ->
  loop_outcome row items pm k t w w' ->
  Forall (fun r => coherent r = true) (sales (db w)) ->
  Forall (fun r => coherent r = true) (sales (db w')).
Proof.
  intros Hrow [[_ E]|(new & _ & (E & _) & _)] H.
  - rewrite E. exact H.
  - rewrite E. apply Forall_app. split; [exact H|]. constructor; [apply Hrow|constructor].
Qed.

(** X11.  The status columns agree on every sale the routes write: each route
    keeps them in agreement on all of [sales]. *)
Theorem statuses_stay_coherent (w : World) :
  Forall (fun r => coherent r = true) (sales (db w)) ->
  (forall b,
     Forall (fun r => coherent r = true)
       (sales (db (world_after (scan_create_POST b w)))))
  /\ (forall auth b,
        Forall (fun r => coherent r = true)
          (sales (db (world_after (pos_create_POST auth b w)))))
  /\ (forall param,
        Forall (fun r => coherent r = true)
          (sales (db (world_after (scan_lookup_GET param w)))))
  /\ (forall auth code,
        Forall (fun r => coherent r = true)
          (sales (db (world_after (scan_confirm_POST auth code w)))))
  /\ (forall auth code,
        Forall (fun r => coherent r = true)
          (sales (db (world_after (pos_confirm_scan_POST auth code w))))).
Proof.
  intros H. repeat split.
  - intros b. destruct (scan_create_shape b w) as (reads & k & t & _ & _ & _ & Hs).
    destruct Hs as (_ & _ & _ & Ho).
    eapply loop_outcome_coherent; [|exact Ho|exact H]. intros c. reflexivity.
  - intros auth b.
    destruct (pos_create_shape auth b w) as (reads & k & t & _ & _ & _ & Hs).
    destruct Hs as (_ & _ & _ & Ho).
    eapply loop_outcome_coherent; [|exact Ho|exact H]. intros c. reflexivity.
  - intros param. unfold world_after. rewrite (lookup_same_db param w). exact H.
  - intros auth code. destruct (confirm_db auth code w) as [E|(s & _ & E)]; rewrite E.
    + exact H.
    + cbn [with_sales sales]. apply coherent_map; [intros r; reflexivity|exact H].
  - intros auth code.
    destruct (pos_confirm_db auth code w) as [E|(uid & c & E)]; rewrite E.
    + exact H.
    + cbn [with_sales sales]. apply coherent_map; [intros r; reflexivity|exact H].
Qed.

(** ** What the customer's screen makes of a lookup *)

Lemma lookup_inv param w :
  exists r,
    response (scan_lookup_GET param w) = Ok r
    /\ ((exists e st, r = error_json e st /\ res_ok r = false)
        \/ exists s,
             In s (sales (db w))
             /\ source s = "CUSTOMER_SCAN"
             /\ public_code s = trim (str_or param "")
             /\ r = json (LookupBody (public_code s) (payment_status s) (status s)
                            (String.eqb (toUpperCase (payment_status s)) "CONFIRMED"
                             || String.eqb (toUpperCase (status s)) "PAID")
                            s (items_of (db w) s)) 200).
Proof.
  unfold response.
  destruct (negb (nonempty (trim (str_or param "")))
            || Nat.ltb (String.length (trim (str_or param ""))) 4) eqn:Hc.
  { unfold scan_lookup_GET, try_catch. rewrite Hc.
    eexists. split; [reflexivity|]. left. eexists _, _. split; reflexivity. }
  apply orb_false_iff in Hc. destruct Hc as [_ Hlen]. apply Nat.ltb_ge in Hlen.
  destruct (hd None (faults w)) as [msg|] eqn:Hf.
  { unfold scan_lookup_GET, try_catch, select_sale_with_items.
    destruct (negb _ || _); [eexists; split; [reflexivity|]; left; eexists _, _; split; reflexivity|].
    erewrite bind_ok by (apply storage_rejected; eassumption).
    eexists. split; [reflexivity|]. left. eexists _, _. split; reflexivity. }
  destruct (sales_with_code (db w) (trim (str_or param ""))) as [|s [|s2 rest]] eqn:Hs.
  - unfold scan_lookup_GET, try_catch, select_sale_with_items.
    destruct (negb _ || _); [eexists; split; [reflexivity|]; left; eexists _, _; split; reflexivity|].
    erewrite bind_ok by (apply storage_ok; assumption).
    unfold read; cbn [fst snd]. rewrite Hs.
    eexists. split; [reflexivity|]. left. eexists _, _. split; reflexivity.
  - rewrite (lookup_found param w s Hlen Hf Hs). cbn [fst].
    eexists. split; [reflexivity|].
    destruct (String.eqb (source s) "CUSTOMER_SCAN") eqn:Hsrc.
    + right. exists s.
      assert (H : In s (sales_with_code (db w) (trim (str_or param ""))))
        by (rewrite Hs; left; reflexivity).
      apply List.filter_In in H. destruct H as [Hin Hcode].
      apply String.eqb_eq in Hsrc, Hcode. auto.
    + left. eexists _, _. split; reflexivity.
  - unfold scan_lookup_GET, try_catch, select_sale_with_items.
    destruct (negb _ || _); [eexists; split; [reflexivity|]; left; eexists _, _; split; reflexivity|].
    erewrite bind_ok by (apply storage_ok; assumption).
    unfold read; cbn [fst snd]. rewrite Hs.
    eexists. split; [reflexivity|]. left. eexists _, _. split; reflexivity.
Qed.

Lemma coherent_cases (s : Sale) :
  coherent s = true ->
  (status s = "PENDING" /\ payment_status s = "PENDING")
  \/ (status s = "PAID" /\ payment_status s = "CONFIRMED")
  \/ (status s = "PAID" /\ payment_status s = "confirmed").
Proof.
  unfold coherent. intros H. apply orb_true_iff in H. destruct H as [H|H];
    apply andb_true_iff in H; destruct H as [H1 H2].
  - apply String.eqb_eq in H1, H2. auto.
  - apply String.eqb_eq in H1. apply orb_true_iff in H2.
    destruct H2 as [H2|H2]; apply String.eqb_eq in H2; auto.
Qed.

(** X12.  The scan page polls the lookup and shows [paid], [pending] or
    [unknown].  On every sale whose status columns agree it shows [paid]
    exactly when the lookup answers [paid = true], [pending] when it answers
    [paid = false], and [unknown] when the lookup fails. *)
Theorem tick_follows_paid (param : option string) (w : World) :
  Forall (fun r => coherent r = true) (sales (db w)) ->
  exists r,
    response (scan_lookup_GET param w) = Ok r
    /\ match body r with
       | LookupBody _ _ _ paid _ _ =>
           tick r = if paid then StatePaid else StatePending
       | _ => tick r = StateUnknown
       end.
Proof.
  intros H. destruct (lookup_inv param w) as (r & E & [(e & st & -> & Hok)|(s & Hin & _ & _ & ->)]).
  - exists (error_json e st). split; [exact E|].
    cbn [body error_json json]. unfold tick. rewrite Hok. reflexivity.
  - eexists. split; [exact E|]. cbn [body json].
    rewrite List.Forall_forall in H. specialize (H s Hin).
    destruct (coherent_cases s H) as [[-> ->]|[[-> ->]|[-> ->]]]; reflexivity.
Qed.

(** ** What a create route does, whatever the storage layer does *)

Lemma budget_intro max_reads reads k t row items pm w w' :
  (length reads <= max_reads)%nat ->
  Forall reads_only reads ->
  (k <= MAX_ATTEMPTS)%nat ->
  draws w' = (draws w + k)%nat ->
  trace w' =
    (trace w ++ reads
     ++ map InsertSale (attempt_codes (random w) (draws w) k) ++ t)%list ->
  loop_outcome row items pm k t w w' ->
  within_budget max_reads w w'.
Proof.
  intros Hr Hro Hk Hd Ht Ho. exists reads, k, t.
  repeat (split; [assumption|]).
  destruct Ho as [[-> _]|(new & _ & _ & [(-> & _)|(payload & _ & -> & _)])]; eauto.
Qed.

(** X2.  Every run of a create route stays within its budget of storage calls:
    the scan route makes at most two reads and the till route at most one,
    then at most six inserts of a sale, each with the code of a fresh random
    draw, then at most one insert of items. *)
Theorem create_call_budget (b : CreateBody) (w : World) :
  within_budget 2 w (world_after (scan_create_POST b w))
  /\ forall auth, within_budget 1 w (world_after (pos_create_POST auth b w)).
Proof.
  split.
  - destruct (scan_create_shape b w) as (reads & k & t & Hr & Hk & _ & Hs).
    destruct Hs as (_ & Hd & Ht & Ho).
    eapply (budget_intro 2 reads); eauto.
    + destruct Hr as [-> | [-> | ->]]; simpl; lia.
    + destruct Hr as [-> | [-> | ->]]; repeat constructor.
  - intros auth.
    destruct (pos_create_shape auth b w) as (reads & k & t & Hr & Hk & _ & Hs).
    destruct Hs as (_ & Hd & Ht & Ho).
    eapply (budget_intro 1 reads); eauto.
    + destruct Hr as [-> | ->]; simpl; lia.
    + destruct Hr as [-> | ->]; repeat constructor.
Qed.

Lemma momo_reference_rule (b : CreateBody) (m : string) :
  parse_momo_reference b = Some m ->
  parse_payment_method b = "MOMO" /\ nonempty m = true /\ trim m = m.
Proof.
  unfold parse_momo_reference.
  destruct (String.eqb (parse_payment_method b) "MOMO") eqn:E1; [|discriminate].
  destruct (nonempty (trim (str_or (body_momo_reference b) ""))) eqn:E2; [|discriminate].
  cbn [andb]. intros H. injection H as <-.
  apply String.eqb_eq in E1. split; [exact E1|]. split; [exact E2|apply trim_trim].
Qed.

Lemma outcome_one_sale (P : Sale -> Prop) row b k t w w' :
  (forall c, P (new_sale (db w) (row c))) ->
  (forall c, id (new_sale (db w) (row c)) = next_id (db w)) ->
  loop_outcome row (parse_items b) (priceMap_of b (db w)) k t w w' ->
  one_sale_or_nothing P b w w'.
Proof.
  intros HP Hid [[_ E]|(new & _ & Ha & Hn)]; [left; exact E|].
  right. eexists _, new. split; [exact Ha|]. split; [apply HP|].
  rewrite Hid.
  destruct Hn as [(_ & -> & _)|(payload & Hb & _ & [-> | ->])]; auto.
Qed.

(** X1.  Every run of a create route leaves the database as it was or appends
    exactly one sale: the scan route a pending CUSTOMER_SCAN sale without
    staff, the till route a paid STAFF_MANUAL sale of the signed-in user.
    The sale has the payment method of the request, a momo reference only
    with the method MOMO, and either no items or the whole payload of the
    request; no other row of any table changes. *)
Theorem create_writes_one_sale (b : CreateBody) (w : World) :
  one_sale_or_nothing
    (created_by "CUSTOMER_SCAN" "PENDING" "PENDING" None b (db w)) b
    w (world_after (scan_create_POST b w))
  /\ forall auth,
       one_sale_or_nothing
         (created_by "STAFF_MANUAL" "PAID" "CONFIRMED" (Some (str_or auth "")) b (db w)) b
         w (world_after (pos_create_POST auth b w)).
Proof.
  split.
  - destruct (scan_create_shape b w) as (reads & k & t & _ & _ & _ & Hs).
    destruct Hs as (_ & _ & _ & Ho).
    eapply outcome_one_sale; [| |exact Ho]; [|reflexivity].
    intros c. unfold created_by. cbn. repeat (split; [reflexivity|]).
    apply momo_reference_rule.
  - intros auth.
    destruct (pos_create_shape auth b w) as (reads & k & t & _ & _ & _ & Hs).
    destruct Hs as (_ & _ & _ & Ho).
    eapply outcome_one_sale; [| |exact Ho]; [|reflexivity].
    intros c. unfold created_by. cbn. repeat (split; [reflexivity|]).
    apply momo_reference_rule.
Qed.

(** ** A sale whose items were rejected *)

Lemma attempts_items_rejected msgs row items pm n lastErr w rest payload m :
  Forall (fun m => isDup m = true) msgs ->
  carries_code row ->
  faults w = (map Some msgs ++ None :: Some m :: rest)%list ->
  build_payload (next_id (db w)) pm items = Ok payload ->
  create_attempts row items pm (length msgs + S n) lastErr w =
    (Ok (ITEMS_INSERT_FAILED m),
     orphaned row [InsertItems payload] (length msgs) rest w).
Proof.
  intros Hd Hrow Hf Hb.
  rewrite (attempts_skip msgs Hd row items pm (S n) lastErr w _ Hrow Hf).
  rewrite (attempt_inserted row items pm n _
             (collided (length msgs) (None :: Some m :: rest) w) Hrow eq_refl).
  cbn [collided db random draws]. rewrite Hb.
  unfold insert_items.
  erewrite bind_ok by (apply storage_rejected; reflexivity).
  unfold ret, orphaned. cbn [fst snd inserted collided db random draws trace faults tl].
  f_equal. f_equal.
  replace (S (length msgs)) with (length msgs + 1)%nat by lia.
  rewrite (attempt_codes_app (random w) (draws w) (length msgs) 1).
  rewrite map_app. cbn [attempt_codes map]. rewrite <- !app_assoc. reflexivity.
Qed.

(** X4.  When the storage layer takes the sale and rejects its items, both
    create routes answer ITEMS_INSERT_FAILED with the message of the
    rejection, and the sale stays in [sales] without a row in [sale_items]. *)
Theorem items_insert_failure (b : CreateBody) (w : World) (msgs : list string)
    (m : string) (rest : list (option string)) :
  let row_scan := scan_row (parse_payment_method b) (parse_momo_reference b) in
  parse_items b <> [] ->
  all_known b (db w) = true ->
  Forall (fun m => isDup m = true) msgs ->
  (length msgs < MAX_ATTEMPTS)%nat ->
  (forall s,
     maybeSingle (settings_rows (db w)) = Data s ->
     scan_disabled s = false ->
     accepted 2 (faults w) = true ->
     skipn 2 (faults w) = (map Some msgs ++ None :: Some m :: rest)%list ->
     exists payload,
       scan_create_POST b w =
         (Ok (ITEMS_INSERT_FAILED m),
          orphaned row_scan [InsertItems payload] (length msgs) rest
            (called (SelectProducts (ids_of b)) (called SelectSettings w))))
  /\ (forall auth,
        nonempty (str_or auth "") = true ->
        accepted 1 (faults w) = true ->
        skipn 1 (faults w) = (map Some msgs ++ None :: Some m :: rest)%list ->
        exists payload,
          pos_create_POST auth b w =
            (Ok (ITEMS_INSERT_FAILED m),
             orphaned
               (manual_row (str_or auth "") (parse_payment_method b)
                  (parse_momo_reference b))
               [InsertItems payload] (length msgs) rest
               (called (SelectProducts (ids_of b)) w))).
Proof.
  intros row_scan Hne Hk Hdup Hlen.
  destruct (payload_known b (db w) (next_id (db w)) Hk) as [payload Hb].
  split.
  - intros s Hs Hd Ha Hf. exists payload.
    apply accepted_S in Ha. destruct Ha as [Hf1 Ha].
    apply accepted_S in Ha. destruct Ha as [Hf2 _].
    rewrite skipn_2 in Hf.
    rewrite (scan_create_enters_loop b w s Hne Hs Hd Hf1 Hf2).
    unfold try_catch, scan_loop.
    replace MAX_ATTEMPTS with (length msgs + S (MAX_ATTEMPTS - length msgs - 1))%nat by lia.
    erewrite attempts_items_rejected;
      [reflexivity|exact Hdup|apply scan_row_carries_code|exact Hf|exact Hb].
  - intros auth Hu Ha Hf. exists payload.
    apply accepted_S in Ha. destruct Ha as [Hf1 _].
    rewrite skipn_1 in Hf.
    rewrite (pos_create_enters_loop auth b w Hu Hne Hf1).
    unfold try_catch, pos_loop.
    replace MAX_ATTEMPTS with (length msgs + S (MAX_ATTEMPTS - length msgs - 1))%nat by lia.
    erewrite attempts_items_rejected;
      [reflexivity|exact Hdup|apply manual_row_carries_code|exact Hf|exact Hb].
Qed.

(** ** Requests that never reach the storage layer *)

(** X14.  Without a signed-in user the till route and both confirmation routes
    answer 401 and leave the world as it is: no storage call, no random
    draw.  The same holds for a lookup whose code, once trimmed, has fewer
    than four characters, which is answered with INVALID_CODE, and for a
    confirmation without a code. *)
Theorem rejected_before_storage (w : World) :
  (forall auth b, nonempty (str_or auth "") = false ->
     pos_create_POST auth b w = (Ok UNAUTHORIZED, w))
  /\ (forall auth code, nonempty (str_or auth "") = false ->
        scan_confirm_POST auth code w = (Ok UNAUTHORIZED, w))
  /\ (forall code, pos_confirm_scan_POST None code w = (Ok UNAUTHORIZED, w))
  /\ (forall param, (String.length (trim (str_or param "")) < 4)%nat ->
        scan_lookup_GET param w = (Ok INVALID_CODE, w))
  /\ (forall auth code, nonempty (str_or auth "") = true ->
        trim (str_or code "") = "" ->
        scan_confirm_POST auth code w = (Ok (error_json "Missing code." 400), w)).
Proof.
  repeat split.
  - intros auth b Hu. unfold pos_create_POST, try_catch. rewrite Hu. reflexivity.
  - intros auth code Hu. unfold scan_confirm_POST, try_catch. rewrite Hu. reflexivity.
  - intros param Hlen. unfold scan_lookup_GET, try_catch.
    apply Nat.ltb_lt in Hlen. rewrite Hlen, orb_true_r. reflexivity.
  - intros auth code Hu Hc. unfold scan_confirm_POST, try_catch. rewrite Hu, Hc.
    reflexivity.
Qed.

(** ** When a confirmation succeeds *)

(** X9.  The confirm route answers with success exactly when the caller is
    signed in, the code is not empty, both storage calls go through, and
    exactly one sale carries the code, that sale being a scan sale that is
    neither paid nor confirmed.  After any other answer the database is as
    it was. *)
Theorem confirm_succeeds_iff (auth code : option string) (w : World) :
  (response (scan_confirm_POST auth code w) = Ok (json OkBody 200)
   <-> (nonempty (str_or auth "") = true
        /\ nonempty (trim (str_or code "")) = true
        /\ hd None (faults w) = None
        /\ hd None (tl (faults w)) = None
        /\ exists s,
             sales_with_code (db w) (trim (str_or code "")) = [s]
             /\ source s = "CUSTOMER_SCAN"
             /\ already_confirmed s = false))
  /\ (response (scan_confirm_POST auth code w) <> Ok (json OkBody 200) ->
      db (world_after (scan_confirm_POST auth code w)) = db w).
Proof.
  unfold response, world_after.
  destruct (nonempty (str_or auth "")) eqn:Hu.
  2:{ unfold scan_confirm_POST, try_catch. rewrite Hu. cbn [negb fst snd ret].
      split; [split; [discriminate|intros (H & _); discriminate]|reflexivity]. }
  destruct (nonempty (trim (str_or code ""))) eqn:Hc.
  2:{ unfold scan_confirm_POST, try_catch. rewrite Hu, Hc. cbn [negb fst snd ret].
      split; [split; [discriminate|intros (_ & H & _); discriminate]|reflexivity]. }
  destruct (hd None (faults w)) as [msg|] eqn:Hf.
  { unfold scan_confirm_POST, try_catch, select_sale. rewrite Hu, Hc. cbn [negb].
    erewrite bind_ok by (apply storage_rejected; eassumption). cbn [fst snd ret].
    split; [split; [discriminate|intros (_ & _ & H & _); discriminate]|reflexivity]. }
  destruct (sales_with_code (db w) (trim (str_or code ""))) as [|s [|s2 rest]] eqn:Hs.
  - rewrite (confirm_not_found auth code w Hu Hc Hf Hs). cbn [fst snd].
    split; [split; [discriminate|intros (_ & _ & _ & _ & s & H & _); discriminate]
           |reflexivity].
  - rewrite (confirm_found auth code w s Hu Hc Hf Hs).
    destruct (String.eqb (source s) "CUSTOMER_SCAN") eqn:Hsrc; cbn [negb].
    2:{ cbn [fst snd]. split; [split; [discriminate|]|reflexivity].
        intros (_ & _ & _ & _ & s0 & H & H' & _). injection H as <-.
        rewrite H' in Hsrc. discriminate. }
    destruct (already_confirmed s) eqn:Ha.
    { cbn [fst snd]. split; [split; [discriminate|]|reflexivity].
      intros (_ & _ & _ & _ & s0 & H & _ & H'). injection H as <-. congruence. }
    destruct (hd None (tl (faults w))) eqn:Hf2; cbn [fst snd].
    { split; [split; [discriminate|intros (_ & _ & _ & H & _); discriminate]
             |reflexivity]. }
    apply String.eqb_eq in Hsrc.
    split; [split; [intros _; repeat (split; [reflexivity|]); eauto|reflexivity]|].
    intros H. contradiction.
  - unfold scan_confirm_POST, try_catch, select_sale. rewrite Hu, Hc. cbn [negb].
    erewrite bind_ok by (apply storage_ok; assumption).
    unfold read; cbn [fst snd]. rewrite Hs. cbn [maybeSingle ret fst snd].
    split; [split; [discriminate|intros (_ & _ & _ & _ & s0 & H & _); discriminate]
           |reflexivity].
Qed.

(** ** The items of a request *)

Lemma num_or_zero_idem (x : number) : num_or_zero (num_or_zero x) = num_or_zero x.
Proof. destruct x; reflexivity. Qed.

Lemma str_or_some_empty (s : string) : str_or (Some s) "" = s.
Proof. destruct s; reflexivity. Qed.

Lemma normalize_item_idem (it : SaleItemInput.t) :
  normalize_item (normalize_item it) = normalize_item it.
Proof.
  unfold normalize_item. cbn [SaleItemInput.product_id SaleItemInput.qty].
  rewrite !str_or_some_empty, trim_trim, num_or_zero_idem. reflexivity.
Qed.

Lemma valid_clean (it : SaleItemInput.t) :
  valid_item (normalize_item it) = true -> clean_item (normalize_item it).
Proof.
  unfold valid_item, clean_item, pid. intros H.
  apply andb_true_iff in H. destruct H as [H H3].
  apply andb_true_iff in H. destruct H as [H1 H2].
  repeat split; try assumption.
  unfold normalize_item. cbn [SaleItemInput.product_id].
  rewrite str_or_some_empty. apply trim_trim.
Qed.

Lemma clean_normal (it : SaleItemInput.t) :
  clean_item it -> normalize_item it = it /\ valid_item it = true.
Proof.
  unfold clean_item, pid. intros (H1 & H2 & H3 & H4). split.
  - destruct it as [p q]. unfold normalize_item.
    cbn [SaleItemInput.product_id SaleItemInput.qty] in *.
    rewrite str_or_some_empty, H2. f_equal.
    destruct q as [sg|sg| |sg m e]; try reflexivity; discriminate.
  - unfold valid_item. rewrite H1, H3, H4. reflexivity.
Qed.

Lemma parse_items_of_clean (b : CreateBody) (l : list SaleItemInput.t) :
  Forall clean_item l -> parse_items (with_items b l) = l.
Proof.
  unfold parse_items, with_items, itemsRaw. cbn [body_items].
  induction 1 as [|it l Hit _ IH]; [reflexivity|].
  destruct (clean_normal it Hit) as [E V].
  cbn [map List.filter]. rewrite E, V, IH. reflexivity.
Qed.

Lemma parse_items_are_clean (b : CreateBody) : Forall clean_item (parse_items b).
Proof.
  unfold parse_items. induction (itemsRaw b) as [|it l IH]; [constructor|].
  cbn [map List.filter]. destruct (valid_item (normalize_item it)) eqn:E; [|exact IH].
  constructor; [apply valid_clean; exact E|exact IH].
Qed.

(** X15.  The items a create route works on are clean: every one has a product
    id that is trimmed and not empty and a finite, positive quantity.  A
    list of clean items passes through unchanged, in order and with its
    duplicates, so parsing what was parsed changes nothing. *)
Theorem parse_items_keeps_clean (b : CreateBody) :
  Forall clean_item (parse_items b)
  /\ (forall l, Forall clean_item l -> parse_items (with_items b l) = l)
  /\ parse_items (with_items b (parse_items b)) = parse_items b.
Proof.
  split; [apply parse_items_are_clean|]. split.
  - intros l. apply parse_items_of_clean.
  - apply parse_items_of_clean, parse_items_are_clean.
Qed.

Lemma distinct_fold_NoDup (l : list string) : forall acc : list string,
  List.NoDup acc ->
  List.NoDup (fold_left (fun (acc : list string) x =>
                           if bool_decide (x ∈ acc) then acc else (acc ++ [x])%list) l acc).
Proof.
  induction l as [|a l IH]; intros acc H; [exact H|].
  simpl. apply IH. destruct (bool_decide (a ∈ acc)) eqn:E; [exact H|].
  apply bool_decide_eq_false in E.
  apply List.NoDup_app; [exact H|repeat constructor; intros []|].
  intros x Hx [<-|[]]. apply E. apply list_elem_of_In. exact Hx.
Qed.

(** X16.  The price query names every product of the request once: the ids it
    asks for have no duplicates, and they are the product ids of the parsed
    items. *)
Theorem ids_of_each_once (b : CreateBody) :
  List.NoDup (ids_of b)
  /\ forall x, In x (ids_of b) <-> exists it, In it (parse_items b) /\ pid it = x.
Proof.
  split.
  - apply distinct_fold_NoDup. constructor.
  - intros x. unfold ids_of. rewrite <- list_elem_of_In, distinct_elem, list_elem_of_In.
    rewrite in_map_iff. unfold pid. split; intros (it & H1 & H2); exists it; auto.
Qed.

(** ** Lookup and the products table *)

(** X13.  What the lookup shows of a sale, its quantities, unit prices and line
    totals, is what [sale_items] holds: replacing the [products] table
    changes the answer only in the products embedded for display. *)
Theorem lookup_shows_the_snapshot (param : option string) (l : list Product) (w : World) :
  exists r r',
    response (scan_lookup_GET param w) = Ok r
    /\ response (scan_lookup_GET param (set_products l w)) = Ok r'
    /\ without_products r = without_products r'.
Proof.
  unfold response, scan_lookup_GET, try_catch.
  destruct (negb (nonempty (trim (str_or param "")))
            || Nat.ltb (String.length (trim (str_or param ""))) 4).
  { eexists _, _. split; [reflexivity|]. split; reflexivity. }
  unfold select_sale_with_items, bind, storage, read.
  cbn [set_products faults db].
  destruct (hd None (faults w)).
  { eexists _, _. split; [reflexivity|]. split; reflexivity. }
  unfold sales_with_code. cbn [sales].
  destruct (List.filter _ (sales (db w))) as [|s [|s2 rest]]; cbn [maybeSingle fst snd].
  - eexists _, _. split; [reflexivity|]. split; reflexivity.
  - destruct (negb (String.eqb (source s) "CUSTOMER_SCAN")).
    + eexists _, _. split; [reflexivity|]. split; reflexivity.
    + eexists _, _. split; [reflexivity|]. split; [reflexivity|].
      unfold without_products, items_of. cbn [body json http_status sale_items products].
      rewrite !map_map. reflexivity.
  - eexists _, _. split; [reflexivity|]. split; reflexivity.
Qed.

(** ** The confirmation of the till's own route *)

(** X10.  [/api/pos/confirm-scan], as far as the code of the route goes (it
    runs under the caller's row-level security), has no guard on the source
    or the state of a sale: when one sale carries the code, the route
    answers with success and sets that sale to PAID and confirmed with the
    caller as staff, whatever the sale was before; no other sale and no
    other column changes.  When no sale carries the code the answer is 404
    and nothing changes. *)
Theorem pos_confirm_scan_is_unguarded (uid : string) (code : option string) (w : World) :
  let c := trim (str_or code "") in
  let r := pos_confirm_scan_POST (Some uid) code w in
  nonempty c = true ->
  hd None (faults w) = None ->
  (forall s, sales_with_code (db w) c = [s] ->
     response r = Ok (json (ConfirmedBody (id s) (public_code s)) 200)
     /\ db (world_after r) =
        with_sales (db w)
          (map (fun x => if String.eqb (public_code x) c
                         then apply_update (pos_confirmation uid) x else x)
               (sales (db w)))
     /\ sales_with_code (db (world_after r)) c = [apply_update (pos_confirmation uid) s])
  /\ (sales_with_code (db w) c = [] ->
      response r = Ok (error_json "Invalid code." 404) /\ db (world_after r) = db w).
Proof.
  intros c r Hc Hf. subst r. unfold response, world_after, pos_confirm_scan_POST.
  fold c. rewrite Hc. cbn [negb]. unfold update_sale_by_code.
  erewrite bind_ok by (apply storage_ok; exact Hf).
  split.
  - intros s Hs. rewrite Hs. cbn [maybeSingle fst snd ret db id public_code apply_update].
    split; [reflexivity|]. split; [reflexivity|].
    unfold sales_with_code in *. cbn [with_sales sales].
    rewrite filter_map_same.
    + rewrite Hs. cbn [map].
      assert (E : String.eqb (public_code s) c = true).
      { assert (Hin : In s (List.filter (fun s => String.eqb (public_code s) c)
                              (sales (db w)))) by (rewrite Hs; left; reflexivity).
        apply List.filter_In in Hin. tauto. }
      rewrite E. reflexivity.
    + intros x. destruct (String.eqb (public_code x) c) eqn:E; [|exact E].
      cbn [apply_update public_code]. exact E.
  - intros Hs. rewrite Hs. split; reflexivity.
Qed.

(** ** What the pages send *)

Lemma cart_lines_all (l : list CartItem) :
  Forall (fun it => cart_product it <> None) l ->
  cart_lines l = Some (map line_of l).
Proof.
  induction 1 as [|it l Hit _ IH]; [reflexivity|].
  cbn [cart_lines map]. rewrite IH. unfold cart_line, line_of.
  destruct (cart_product it); [reflexivity|contradiction].
Qed.

Lemma cart_lines_some (l : list CartItem) (lines : list SaleItemInput.t) :
  cart_lines l = Some lines -> lines = map line_of l.
Proof.
  revert lines. induction l as [|it l IH]; intros lines H.
  - injection H as <-. reflexivity.
  - cbn [cart_lines] in H. unfold cart_line in H.
    destruct (cart_product it) as [p|] eqn:E; [|discriminate].
    destruct (cart_lines l) as [ls|]; [|discriminate].
    injection H as <-. cbn [map]. rewrite <- (IH ls eq_refl).
    unfold line_of. rewrite E. reflexivity.
Qed.

Lemma cart_lines_undefined (l : list CartItem) (it : CartItem) :
  In it l -> cart_product it = None -> cart_lines l = None.
Proof.
  induction l as [|x l IH]; intros Hin Hn; [destruct Hin|].
  cbn [cart_lines]. destruct Hin as [->|Hin].
  - unfold cart_line. rewrite Hn. reflexivity.
  - rewrite (IH Hin Hn). destruct (cart_line x); reflexivity.
Qed.

Lemma submission_read (payMethod : PayMethod) (momoRef : string)
    (cart : Cart) (b : CreateBody) :
  submission payMethod momoRef cart = Request b ->
  Object_values cart <> []
  /\ b = {| body_payment_method := Some (payMethod_string payMethod);
            body_momo_reference :=
              match payMethod with
              | MOMO => if nonempty (trim momoRef) then Some (trim momoRef) else None
              | CASH => None
              end;
            body_items := Some (map line_of (Object_values cart)) |}.
Proof.
  unfold submission. intros H.
  destruct (Nat.eqb (length (Object_values cart)) 0) eqn:El; [discriminate|].
  destruct (cart_lines (Object_values cart)) as [lines|] eqn:E; [|discriminate].
  apply cart_lines_some in E. subst lines. injection H as <-.
  split; [|reflexivity]. intros Hn. rewrite Hn in El. discriminate.
Qed.

Lemma momo_reference_read (payMethod : PayMethod) (momoRef : string)
    (items : option (list SaleItemInput.t)) :
  let sent :=
    match payMethod with
    | MOMO => if nonempty (trim momoRef) then Some (trim momoRef) else None
    | CASH => None
    end in
  parse_momo_reference
    {| body_payment_method := Some (payMethod_string payMethod);
       body_momo_reference := sent; body_items := items |} = sent.
Proof.
  destruct payMethod; [reflexivity|].
  unfold parse_momo_reference. cbn [body_momo_reference body_payment_method].
  change (String.eqb (parse_payment_method _) "MOMO") with true. cbn [andb].
  destruct (nonempty (trim momoRef)) eqn:En.
  - cbn [str_or]. rewrite En, trim_trim, En. reflexivity.
  - reflexivity.
Qed.

(** X17.  The body the pages send is read by the create routes as it was meant:
    the payment method is the one chosen, the momo reference is the trimmed
    text of the field when the method is MOMO and the field is not blank,
    and absent otherwise, the items sent are the lines of the cart, and
    when every line has a trimmed product id and a finite, positive
    quantity the routes work on exactly these items. *)
Theorem submission_is_read_back (payMethod : PayMethod) (momoRef : string)
    (cart : Cart) (b : CreateBody) :
  submission payMethod momoRef cart = Request b ->
  parse_payment_method b = payMethod_string payMethod
  /\ parse_momo_reference b =
       match payMethod with
       | MOMO => if nonempty (trim momoRef) then Some (trim momoRef) else None
       | CASH => None
       end
  /\ body_items b = Some (map line_of (Object_values cart))
  /\ Object_values cart <> []
  /\ (Forall clean_item (map line_of (Object_values cart)) ->
      parse_items b = map line_of (Object_values cart)).
Proof.
  intros H. destruct (submission_read payMethod momoRef cart b H) as [Hv ->].
  split; [destruct payMethod; reflexivity|].
  split; [apply momo_reference_read|].
  split; [reflexivity|]. split; [exact Hv|].
  intros Hc.
  match goal with |- parse_items ?b = ?l => change b with (with_items b l) end.
  apply parse_items_of_clean. exact Hc.
Qed.

(** ** The cart *)

Lemma gt_zero_cases (x : number) :
  gt x zero = true ->
  x = S754_infinity false \/ exists m e, x = S754_finite false m e.
Proof.
  destruct x as [s|[|]| |[|] m e]; try discriminate; eauto.
Qed.

Lemma add_positive_sign (x y : number) :
  wf x -> wf y -> gt x zero = true -> gt y zero = true ->
  gt (add x y) zero = true /\ wf (add x y).
Proof.
  intros Wx Wy Hx Hy. split; [|apply add_regular; assumption].
  destruct (gt_zero_cases x Hx) as [->|(mx & ex & ->)];
    destruct (gt_zero_cases y Hy) as [->|(my & ey & ->)]; try reflexivity.
  simpl in Wx, Wy. unfold add, SFadd. cbn [cond_Zopp].
  set (ez := Z.min ex ey).
  destruct (Z.pos (fst (shl_align mx ex ez)) + Z.pos (fst (shl_align my ey ez)))
    as [|M|M] eqn:EM; try lia.
  cbn [binary_normalize].
  destruct (binary_round_aligned_valid false M ez ltac:(lia)) as (E & HE & -> & HM).
  destruct (round_positive false _ E HM HE) as (m & e & -> & _).
  destruct (_ <=? _); reflexivity.
Qed.

Lemma one_positive : gt (of_Z 1) zero = true /\ wf (of_Z 1).
Proof. rewrite of_Z_1. split; [reflexivity|simpl; lia]. Qed.

Lemma not_le_gt (q : number) :
  q <> S754_nan -> SFleb q zero = false -> gt q zero = true.
Proof.
  intros Hn Hle. destruct q as [s|[|]| |[|] m e]; try reflexivity; try discriminate.
  contradiction.
Qed.

Lemma cart_get_In (id : string) (c : Cart) (it : CartItem) :
  cart_get id c = Some it -> In (id, it) c.
Proof.
  unfold cart_get. destruct (List.find _ c) as [kv|] eqn:E; [|discriminate].
  intros H. injection H as <-. apply List.find_some in E. destruct E as [Hin Hk].
  apply String.eqb_eq in Hk. destruct kv as [k v]. simpl in *. subst k. exact Hin.
Qed.

Lemma cart_get_None (id : string) (c : Cart) :
  cart_get id c = None -> ~ In id (map fst c).
Proof.
  unfold cart_get. destruct (List.find _ c) as [kv|] eqn:E; [discriminate|].
  intros _ Hin. apply in_map_iff in Hin. destruct Hin as (kv & Hk & Hin).
  apply (List.find_none _ _ E) in Hin. rewrite Hk, String.eqb_refl in Hin. discriminate.
Qed.

Lemma cart_set_keys (id : string) (v : CartItem) (c : Cart) :
  (In id (map fst c) -> map fst (cart_set id v c) = map fst c)
  /\ (~ In id (map fst c) -> map fst (cart_set id v c) = (map fst c ++ [id])%list).
Proof.
  induction c as [|kv c [IH1 IH2]]; [split; [intros []|reflexivity]|].
  cbn [cart_set map]. destruct (String.eqb (fst kv) id) eqn:E.
  - apply String.eqb_eq in E. split; [reflexivity|].
    intros H. exfalso. apply H. left. exact E.
  - apply String.eqb_neq in E. cbn [map]. split.
    + intros [H|H]; [contradiction|]. rewrite (IH1 H). reflexivity.
    + intros H. rewrite IH2; [reflexivity|]. intros H'. apply H. right. exact H'.
Qed.

Lemma cart_set_In (id : string) (v : CartItem) (c : Cart) kv :
  In kv (cart_set id v c) -> kv = (id, v) \/ In kv c.
Proof.
  induction c as [|x c IH]; cbn [cart_set].
  - intros [<-|[]]. left. reflexivity.
  - destruct (String.eqb (fst x) id) eqn:E.
    + apply String.eqb_eq in E. intros [<-|H]; [left; rewrite E; reflexivity|].
      right. right. exact H.
    + intros [<-|H]; [right; left; reflexivity|].
      destruct (IH H) as [->|H']; [left; reflexivity|right; right; exact H'].
Qed.

Lemma cart_set_has (id : string) (v : CartItem) (c : Cart) : In (id, v) (cart_set id v c).
Proof.
  induction c as [|x c IH]; cbn [cart_set]; [left; reflexivity|].
  destruct (String.eqb (fst x) id) eqn:E.
  - apply String.eqb_eq in E. left. rewrite E. reflexivity.
  - right. exact IH.
Qed.

Lemma cart_set_ok (id : string) (v : CartItem) (c : Cart) :
  cart_ok c ->
  (exists p, cart_product v = Some p /\ pp_id p = id
             /\ gt (cart_qty v) zero = true /\ wf (cart_qty v)) ->
  cart_ok (cart_set id v c).
Proof.
  intros [Hnd Hall] Hv. split.
  - destruct (cart_set_keys id v c) as [K1 K2].
    destruct (in_dec string_dec id (map fst c)) as [D|D]; [rewrite (K1 D); exact Hnd|].
    rewrite (K2 D).
    apply List.NoDup_app; [exact Hnd|repeat constructor; intros []|].
    intros a Ha [<-|[]]. contradiction.
  - apply List.Forall_forall. intros kv Hin.
    destruct (cart_set_In _ _ _ _ Hin) as [->|Hin']; [exact Hv|].
    rewrite List.Forall_forall in Hall. exact (Hall kv Hin').
Qed.

Lemma NoDup_map_filter {A B} (f : A -> B) (p : A -> bool) (l : list A) :
  List.NoDup (map f l) -> List.NoDup (map f (List.filter p l)).
Proof.
  induction l as [|a l IH]; intros H; [constructor|].
  simpl in H. inversion H as [|x xs Hx Hxs]; subst.
  cbn [List.filter]. destruct (p a); [|exact (IH Hxs)].
  cbn [map]. constructor; [|exact (IH Hxs)].
  intros Hin. apply Hx. apply in_map_iff in Hin. destruct Hin as (y & E & Hy).
  apply List.filter_In in Hy. rewrite <- E. apply in_map. tauto.
Qed.

Lemma cart_delete_ok (id : string) (c : Cart) : cart_ok c -> cart_ok (cart_delete id c).
Proof.
  intros [Hnd Hall]. split.
  - apply NoDup_map_filter. exact Hnd.
  - apply List.Forall_forall. intros kv Hin. apply List.filter_In in Hin.
    rewrite List.Forall_forall in Hall. apply Hall. tauto.
Qed.

Lemma cart_delete_gone (id : string) (c : Cart) : cart_get id (cart_delete id c) = None.
Proof.
  unfold cart_get, cart_delete.
  destruct (List.find _ (List.filter _ c)) as [kv|] eqn:E; [|reflexivity].
  apply List.find_some in E. destruct E as [Hin Hk].
  apply List.filter_In in Hin. destruct Hin as [_ Hn]. rewrite Hk in Hn. discriminate.
Qed.

Lemma cart_ok_entry (c : Cart) (id : string) (it : CartItem) :
  cart_ok c -> cart_get id c = Some it ->
  exists p, cart_product it = Some p /\ pp_id p = id
            /\ gt (cart_qty it) zero = true /\ wf (cart_qty it).
Proof.
  intros [_ Hall] Hg. apply cart_get_In in Hg.
  rewrite List.Forall_forall in Hall. exact (Hall _ Hg).
Qed.

Lemma insert_by_index_perm (n : Z) (v : CartItem) (l : list (Z * CartItem)) :
  Permutation (map snd (insert_by_index n v l)) (v :: map snd l).
Proof.
  induction l as [|mx l IH]; [reflexivity|].
  cbn [insert_by_index]. destruct (n <? fst mx); [reflexivity|].
  cbn [map]. rewrite IH. apply perm_swap.
Qed.

Lemma Object_values_perm (c : Cart) : Permutation (Object_values c) (map snd c).
Proof.
  unfold Object_values. induction c as [|kv c IH]; [reflexivity|].
  cbn [indexed named fold_right List.filter map].
  fold (indexed c). fold (named c).
  destruct (array_index (fst kv)) as [n|].
  - rewrite insert_by_index_perm. cbn [app]. constructor. exact IH.
  - cbn [map]. rewrite <- Permutation_middle. constructor. exact IH.
Qed.

Lemma cart_get_set_eq (id : string) (v : CartItem) (c : Cart) :
  cart_get id (cart_set id v c) = Some v.
Proof.
  unfold cart_get. induction c as [|kv c IH]; cbn [cart_set List.find fst].
  - rewrite String.eqb_refl. reflexivity.
  - destruct (String.eqb (fst kv) id) eqn:E; cbn [List.find fst].
    + rewrite E. reflexivity.
    + rewrite E. exact IH.
Qed.

Lemma cart_get_set_ne (id id' : string) (v : CartItem) (c : Cart) :
  id' <> id -> cart_get id' (cart_set id v c) = cart_get id' c.
Proof.
  intros Hne. unfold cart_get. induction c as [|kv c IH]; cbn [cart_set List.find fst].
  - apply String.eqb_neq in Hne. rewrite String.eqb_sym, Hne. reflexivity.
  - destruct (String.eqb (fst kv) id) eqn:E; cbn [List.find fst].
    + apply String.eqb_eq in E. rewrite E.
      apply String.eqb_neq in Hne. rewrite String.eqb_sym, Hne. reflexivity.
    + destruct (String.eqb (fst kv) id'); [reflexivity|exact IH].
Qed.

Lemma cart_get_delete_ne (id id' : string) (c : Cart) :
  id' <> id -> cart_get id' (cart_delete id c) = cart_get id' c.
Proof.
  intros Hne. unfold cart_get, cart_delete.
  induction c as [|kv c IH]; [reflexivity|].
  cbn [List.filter List.find]. destruct (String.eqb (fst kv) id) eqn:E; cbn [negb].
  - apply String.eqb_eq in E.
    assert (N : String.eqb (fst kv) id' = false)
      by (apply String.eqb_neq; congruence).
    rewrite N. exact IH.
  - cbn [List.find]. destruct (String.eqb (fst kv) id'); [reflexivity|exact IH].
Qed.

(** X18.  The cart is a map from product ids to lines.  After [add] the line of
    the product holds the product and one more than before, or one for a
    product that was not in the cart; after [setQty] with a quantity that
    is zero or negative, or [removeItem], the line is gone, and after
    [setQty] with any other quantity the line holds that quantity.  No
    operation changes the line of another product. *)
Theorem cart_lines_after (c : Cart) :
  (forall p,
     cart_get (pp_id p) (add_to_cart p c) =
       Some {| cart_product := Some p;
               cart_qty := add (match cart_get (pp_id p) c with
                                | Some it => num_or_zero (cart_qty it)
                                | None => zero
                                end) (of_Z 1) |}
     /\ forall id, id <> pp_id p -> cart_get id (add_to_cart p c) = cart_get id c)
  /\ (forall id q,
        id <> "__proto__" ->
        (SFleb q zero = true -> cart_get id (setQty id q c) = None)
        /\ (SFleb q zero = false ->
            exists it, cart_get id (setQty id q c) = Some it /\ cart_qty it = q)
        /\ forall id', id' <> id -> cart_get id' (setQty id q c) = cart_get id' c)
  /\ (forall id,
        cart_get id (removeItem id c) = None
        /\ forall id', id' <> id -> cart_get id' (removeItem id c) = cart_get id' c).
Proof.
  split; [|split].
  - intros p. split; [apply cart_get_set_eq|].
    intros id Hne. apply cart_get_set_ne. exact Hne.
  - intros id q _. unfold setQty. split; [|split].
    + intros ->. apply cart_delete_gone.
    + intros ->. eexists. split; [apply cart_get_set_eq|reflexivity].
    + intros id' Hne. destruct (SFleb q zero).
      * apply cart_get_delete_ne. exact Hne.
      * apply cart_get_set_ne. exact Hne.
  - intros id. split; [apply cart_delete_gone|].
    intros id' Hne. apply cart_get_delete_ne. exact Hne.
Qed.

Lemma cart_ok_nil : cart_ok [].
Proof. split; constructor. Qed.

(** X19.  The pages keep the cart in order.  It starts empty, and [add],
    [setQty] for a line of the cart, [removeItem] and clearing keep every
    product in at most one line, every line under the id of its product,
    and every quantity positive. *)
Theorem cart_stays_ok :
  cart_ok []
  /\ forall op c, cart_ok c -> op_ok op c -> cart_ok (apply_op op c).
Proof.
  split; [apply cart_ok_nil|].
  intros op c Hc Hop. destruct op as [p|id q|id|]; cbn [apply_op].
  - unfold add_to_cart. apply cart_set_ok; [exact Hc|].
    exists p. split; [reflexivity|]. split; [reflexivity|]. cbn [cart_qty].
    destruct (cart_get (pp_id p) c) as [it|] eqn:G.
    + destruct (cart_ok_entry c _ it Hc G) as (p' & _ & _ & Hq & Hw).
      assert (E : num_or_zero (cart_qty it) = cart_qty it).
      { destruct (gt_zero_cases _ Hq) as [->|(m & e & ->)]; reflexivity. }
      rewrite E. destruct one_positive as [O1 O2].
      apply add_positive_sign; assumption.
    + rewrite of_Z_1. split; [reflexivity|simpl; lia].
  - unfold setQty. destruct (SFleb q zero) eqn:L; [apply cart_delete_ok; exact Hc|].
    cbn [op_ok] in Hop. destruct Hop as (Wq & Nq & [H|H]); [congruence|].
    destruct (cart_get id c) as [it|] eqn:G; [|contradiction].
    destruct (cart_ok_entry c _ it Hc G) as (p & Hp & Hid & _).
    apply cart_set_ok; [exact Hc|].
    exists p. cbn [cart_product cart_qty]. split; [exact Hp|]. split; [exact Hid|].
    split; [apply not_le_gt; assumption|exact Wq].
  - apply cart_delete_ok. exact Hc.
  - apply cart_ok_nil.
Qed.

Lemma cart_ok_keys (c : Cart) :
  cart_ok c -> map (fun kv => pid (line_of (snd kv))) c = map fst c.
Proof.
  intros [_ Hall]. induction Hall as [|kv c (p & Hp & Hid & _) _ IH]; [reflexivity|].
  cbn [map]. rewrite IH. unfold pid, line_of. cbn [SaleItemInput.product_id].
  rewrite Hp, Hid. reflexivity.
Qed.

Lemma cart_sent (c : Cart) :
  cart_ok c -> c <> [] ->
  Object_values c <> []
  /\ cart_lines (Object_values c) = Some (map line_of (Object_values c))
  /\ Permutation (map pid (map line_of (Object_values c))) (map fst c).
Proof.
  intros Hc Hne.
  pose proof (Object_values_perm c) as HP.
  split; [|split].
  - intros E. rewrite E in HP. apply Permutation_nil in HP.
    destruct c; [contradiction|discriminate].
  - apply cart_lines_all. apply List.Forall_forall. intros it Hin.
    apply (Permutation_in _ HP) in Hin. apply in_map_iff in Hin.
    destruct Hin as (kv & <- & Hin). destruct Hc as [_ Hall].
    rewrite List.Forall_forall in Hall. destruct (Hall kv Hin) as (p & -> & _).
    discriminate.
  - rewrite map_map. rewrite <- (cart_ok_keys c Hc).
    rewrite <- (map_map snd (fun it => pid (line_of it))).
    apply Permutation_map. exact HP.
Qed.

Lemma submission_of_lines (payMethod : PayMethod) (momoRef : string) (c : Cart) :
  Object_values c <> [] ->
  cart_lines (Object_values c) = Some (map line_of (Object_values c)) ->
  exists b,
    submission payMethod momoRef c = Request b
    /\ body_items b = Some (map line_of (Object_values c)).
Proof.
  intros Hv Hl. unfold submission. rewrite Hl.
  destruct (Nat.eqb (length (Object_values c)) 0) eqn:El.
  { apply length_zero_nil in El. contradiction. }
  eexists. split; reflexivity.
Qed.

(** X20.  A cart in order that is not empty is sent, and the request has one
    item for each line of the cart: no product twice, every quantity
    positive. *)
Theorem cart_is_sent (payMethod : PayMethod) (momoRef : string) (c : Cart) :
  cart_ok c -> c <> [] ->
  let lines := map line_of (Object_values c) in
  (exists b, submission payMethod momoRef c = Request b /\ body_items b = Some lines)
  /\ Permutation (map pid lines) (map fst c)
  /\ List.NoDup (map pid lines)
  /\ Forall (fun l => gt (SaleItemInput.qty l) zero = true) lines.
Proof.
  intros Hc Hne lines.
  destruct (cart_sent c Hc Hne) as (Hv & Hl & Hkeys). fold lines in Hkeys.
  split; [apply submission_of_lines; assumption|].
  split; [exact Hkeys|]. split.
  - apply (Permutation_NoDup (Permutation_sym Hkeys)). apply Hc.
  - subst lines. apply List.Forall_forall. intros l Hin.
    apply in_map_iff in Hin. destruct Hin as (it & <- & Hin).
    apply (Permutation_in _ (Object_values_perm c)) in Hin. apply in_map_iff in Hin.
    destruct Hin as (kv & <- & Hin). destruct Hc as [_ Hall].
    rewrite List.Forall_forall in Hall. destruct (Hall kv Hin) as (p & _ & _ & Hq & _).
    exact Hq.
Qed.

(** X21.  [setQty] for an id the cart does not have, with a quantity that is
    not zero or negative, makes a line without a product, and a cart with
    such a line is never sent: building the request throws. *)
Theorem setQty_of_absent_line (payMethod : PayMethod) (momoRef : string)
    (id : string) (q : number) (c : Cart) :
  id <> "__proto__" ->
  cart_get id c = None ->
  SFleb q zero = false ->
  cart_get id (setQty id q c) = Some {| cart_product := None; cart_qty := q |}
  /\ submission payMethod momoRef (setQty id q c) = PageError.
Proof.
  intros _ Hg Hq. unfold setQty. rewrite Hq, Hg.
  split; [apply cart_get_set_eq|].
  set (v := {| cart_product := None; cart_qty := q |}).
  assert (Hin : In v (Object_values (cart_set id v c))).
  { apply (Permutation_in _ (Permutation_sym (Object_values_perm _))).
    apply in_map_iff. exists (id, v). split; [reflexivity|apply cart_set_has]. }
  unfold submission.
  destruct (Nat.eqb (length (Object_values (cart_set id v c))) 0) eqn:El.
  { apply length_zero_nil in El. rewrite El in Hin. destruct Hin. }
  rewrite (cart_lines_undefined _ v Hin eq_refl). reflexivity.
Qed.

(** ** From the cart to the till *)

(** X22.  What the customer put in the cart is what staff see at the till.  A
    cart in order whose lines have trimmed product ids and finite
    quantities is sent; when the scan route stores it, the lookup by the
    code it answered with shows a pending sale with the payment method
    chosen and one item for each line of the cart, with the product and the
    quantity of the line, and no product twice. *)
Theorem cart_reaches_the_till (payMethod : PayMethod) (momoRef : string) (cart : Cart)
    (w : World) (s : option ShopSettings) (msgs : list string)
    (rest : list (option string)) :
  let lines := map line_of (Object_values cart) in
  let code := genCode (random w (draws w + length msgs)%nat) in
  cart_ok cart -> cart <> [] ->
  Forall clean_item lines ->
  exists b,
    submission payMethod momoRef cart = Request b
    /\ (maybeSingle (settings_rows (db w)) = Data s ->
        scan_disabled s = false ->
        all_known b (db w) = true ->
        Forall (fun m => isDup m = true) msgs ->
        (length msgs < MAX_ATTEMPTS)%nat ->
        accepted 2 (faults w) = true ->
        skipn 2 (faults w) = (map Some msgs ++ rest)%list ->
        accepted 3 rest = true ->
        unit_interval (random w (draws w + length msgs)%nat) ->
        sales_with_code (db w) code = [] ->
        Forall (fun it => sale_id it <> next_id (db w)) (sale_items (db w)) ->
        response (scan_create_POST b w) = Ok (json (CodeBody code) 200)
        /\ exists sale items,
             response (scan_lookup_GET (Some code) (world_after (scan_create_POST b w))) =
               Ok (json (LookupBody code "PENDING" "PENDING" false sale items) 200)
             /\ payment_method sale = payMethod_string payMethod
             /\ map (fun r => (product_id (fst r), qty (fst r))) items =
                  map (fun l => (pid l, SaleItemInput.qty l)) lines
             /\ List.NoDup (map (fun r => product_id (fst r)) items)).
Proof.
  intros lines code Hok Hne Hclean.
  destruct (cart_sent cart Hok Hne) as (Hv & Hl & Hkeys). fold lines in Hl, Hkeys.
  destruct (submission_of_lines payMethod momoRef cart Hv Hl) as (b & Hb & _).
  destruct (submission_read payMethod momoRef cart b Hb) as [_ Eb].
  assert (Hp : parse_items b = lines).
  { rewrite Eb.
    match goal with |- parse_items ?b = ?l => change b with (with_items b l) end.
    apply parse_items_of_clean. exact Hclean. }
  assert (Hpm : parse_payment_method b = payMethod_string payMethod)
    by (rewrite Eb; destruct payMethod; reflexivity).
  exists b. split; [exact Hb|].
  intros Hs Hd Hk Hdup Hlen Ha Hf Hacc Hr Hfresh Hold.
  assert (Hitems : parse_items b <> []).
  { rewrite Hp. subst lines. intros E. apply map_eq_nil in E. contradiction. }
  destruct (create_then_lookup b w s msgs rest Hitems Hs Hd Hk Hdup Hlen Ha Hf Hacc Hr
              Hfresh Hold) as (payload & Hpay & R & L & Hi).
  split; [exact R|]. eexists _, _. split; [exact L|].
  split; [cbn [new_sale payment_method scan_row ins_payment_method]; exact Hpm|].
  rewrite <- Hi in Hpay. pose proof (lines_of_payload _ _ _ _ Hpay) as M.
  rewrite Hp in M. split; [exact M|].
  match goal with
  | |- List.NoDup (map _ ?items) =>
      assert (E : map (fun r => product_id (fst r)) items = map pid lines)
  end.
  { match goal with
    | |- map _ ?items = _ =>
        transitivity (map fst (map (fun r => (product_id (fst r), qty (fst r))) items))
    end.
    - rewrite map_map. reflexivity.
    - rewrite M, map_map. reflexivity. }
  rewrite E. apply (Permutation_NoDup (Permutation_sym Hkeys)). apply Hok.
Qed.

(** Without agreement of the status columns the page and the lookup can
    differ: a sale marked PAID whose payment is still PENDING is paid for
    the lookup and pending for the page. *)
Example tick_needs_coherence :
  let s := {| id := 1; public_code := "550000"; source := "CUSTOMER_SCAN";
              status := "PAID"; payment_method := "CASH"; payment_status := "PENDING";
              momo_reference := None; staff_id := None; note := "";
              created_at := 0 |} in
  tick (json (LookupBody "550000" (payment_status s) (status s) true s []) 200)
  = StatePending.
Proof. reflexivity. Qed.

(** ** What the answer of a create route says about the database *)

Lemma not_success_error msg st : st <> 200 -> ~ is_success (Ok (error_json msg st)).
Proof.
  intros Hst [bd E]. unfold error_json, json in E. injection E as E1 E2. congruence.
Qed.

Lemma attempts_answer row items pm :
  carries_code row ->
  forall n lastErr w,
    let r := create_attempts row items pm n lastErr w in
    (exists code new,
       fst r = Ok (json (CodeBody code) 200)
       /\ sale_added (new_sale (db w) (row code)) new (db w) (db (snd r))
       /\ build_payload (next_id (db w)) pm items = Ok new)
    \/ (~ is_success (fst r) /\ sale_items (db (snd r)) = sale_items (db w)).
Proof.
  intros Hrow. induction n as [|n IH]; intros lastErr w r; subst r.
  - right. split; [|reflexivity]. intros [bd E]. discriminate.
  - destruct (hd None (faults w)) as [msg|] eqn:Hf.
    + rewrite (attempt_rejected_hd row items pm n lastErr w msg Hf).
      destruct (isDup msg).
      * exact (IH (Some msg) _).
      * right. split; [|reflexivity]. intros [bd E]. discriminate.
    + rewrite (attempt_inserted row items pm n lastErr w Hrow Hf).
      destruct (build_payload (next_id (db w)) pm items) as [payload|e] eqn:Eb.
      * unfold bind, insert_items, storage.
        destruct (hd None (faults (inserted row w))) eqn:Hf2;
          cbn [ret fst snd inserted db sale_items].
        -- right. split; [|reflexivity]. intros [bd E]. discriminate.
        -- left. exists (genCode (random w (draws w))), payload.
           split; [reflexivity|]. split; [|reflexivity].
           unfold sale_added. cbn. repeat split.
      * right. split; [|reflexivity]. intros [bd E]. discriminate.
Qed.

Lemma answer_all_or_no_items row b (h : string -> M Response) w0 w :
  carries_code row ->
  (forall c, id (new_sale (db w) (row c)) = next_id (db w)) ->
  db w0 = db w ->
  (forall e w', ~ is_success (fst (h e w')) /\ snd (h e w') = w') ->
  parse_items b <> [] ->
  all_or_no_items b w
    (try_catch (create_attempts row (parse_items b) (priceMap_of b (db w))
                  MAX_ATTEMPTS None) h w0).
Proof.
  intros Hrow Hid Hdb Hh Hne. unfold all_or_no_items, response, world_after.
  pose proof (attempts_answer row (parse_items b) (priceMap_of b (db w)) Hrow
                MAX_ATTEMPTS None w0) as H.
  cbv zeta in H. rewrite Hdb in H. unfold try_catch.
  destruct (create_attempts row (parse_items b) (priceMap_of b (db w))
              MAX_ATTEMPTS None w0) as [[resp|e] w1]; cbn [fst snd] in *.
  - destruct H as [(code & new & E & Ha & Hb)|[Hn Hi]].
    + split; [|intros Hn; exfalso; apply Hn; rewrite E; eexists; reflexivity].
      intros _. exists (new_sale (db w) (row code)), new.
      cbn [new_sale public_code]. rewrite Hrow.
      split; [exact E|]. split; [exact Ha|]. split; [reflexivity|].
      change (id (new_sale (db w) (row code))) with (next_id (db w)).
      split; [exact Hb|].
      apply build_payload_Ok_map in Hb. destruct Hb as (E1 & _ & _).
      assert (L : length new = length (parse_items b)).
      { rewrite <- (length_map product_id new), E1, length_map. reflexivity. }
      split; [exact L|]. intros ->. destruct (parse_items b); [contradiction|discriminate].
    + split; [intros Hs; contradiction|]. intros _. exact Hi.
  - destruct H as [(code & new & E & _)|[_ Hi]]; [discriminate|].
    destruct (Hh e w1) as [Hn Hw]. rewrite Hw.
    split; [intros Hs; contradiction|]. intros _. exact Hi.
Qed.

(** X3.  The answer of a create route tells what was stored.  A success carries
    the code of the one sale that was added, and all items of the request
    were stored with it; after any other answer [sale_items] is as it was. *)
Theorem create_success_is_complete (b : CreateBody) (w : World) :
  all_or_no_items b w (scan_create_POST b w)
  /\ forall auth, all_or_no_items b w (pos_create_POST auth b w).
Proof.
  assert (Early : forall r st msg w',
            r = (Ok (error_json msg st), w') -> st <> 200 ->
            sale_items (db w') = sale_items (db w) ->
            all_or_no_items b w r).
  { intros r st msg w' -> Hst Hi. unfold all_or_no_items, response, world_after.
    cbn [fst snd]. split; [|intros _; exact Hi].
    intros Hs. exfalso. exact (not_success_error msg st Hst Hs). }
  split.
  - destruct (list_eq_nil_dec (parse_items b)) as [Hnil|Hne].
    { eapply Early; [apply (scan_create_no_items b w Hnil)|lia|reflexivity]. }
    destruct (hd None (faults w)) as [m|] eqn:Hf1.
    { eapply Early; [apply (scan_create_read_rejected b w m Hne Hf1)|lia|reflexivity]. }
    destruct (maybeSingle (settings_rows (db w))) as [s|m] eqn:Hs.
    2:{ eapply Early; [apply (scan_create_settings_error b w m Hne Hf1 Hs)|lia|reflexivity]. }
    destruct (scan_disabled s) eqn:Hd.
    { eapply Early; [apply (scan_create_disabled b w s Hne Hf1 Hs Hd)|lia|reflexivity]. }
    destruct (hd None (tl (faults w))) as [m|] eqn:Hf2.
    { eapply Early;
        [apply (scan_create_prices_rejected b w s m Hne Hs Hd Hf1 Hf2)|lia|reflexivity]. }
    rewrite (scan_create_enters_loop b w s Hne Hs Hd Hf1 Hf2). unfold scan_loop.
    apply answer_all_or_no_items;
      [apply scan_row_carries_code|intros c; reflexivity|reflexivity| |exact Hne].
    intros e w'. split; [apply not_success_error; lia|reflexivity].
  - intros auth.
    destruct (nonempty (str_or auth "")) eqn:Hu.
    2:{ eapply Early; [apply (pos_create_unauthorized auth b w Hu)|lia|reflexivity]. }
    destruct (list_eq_nil_dec (parse_items b)) as [Hnil|Hne].
    { eapply Early; [apply (pos_create_no_items auth b w Hu Hnil)|lia|reflexivity]. }
    destruct (hd None (faults w)) as [m|] eqn:Hf1.
    { eapply Early;
        [apply (pos_create_prices_rejected auth b w m Hu Hne Hf1)|lia|reflexivity]. }
    rewrite (pos_create_enters_loop auth b w Hu Hne Hf1). unfold pos_loop.
    apply answer_all_or_no_items;
      [apply manual_row_carries_code|intros c; reflexivity|reflexivity| |exact Hne].
    intros e w'. split; [apply not_success_error; lia|reflexivity].
Qed.

(** ** Submitting a request twice *)

(** X7.  Creation is not idempotent: when the same request is sent twice
    and the storage layer accepts the calls, the two codes drawn being
    different and carried by no sale yet, two sales are stored, each found
    by its own code, and the items of the request are stored twice, each
    set under the id of its sale. *)
Theorem create_twice_creates_two (b : CreateBody) (w : World) (s : option ShopSettings) :
  let first := scan_create_POST b w in
  let second := scan_create_POST b (world_after first) in
  let code1 := genCode (random w (draws w)) in
  let code2 := genCode (random w (S (draws w))) in
  parse_items b <> [] ->
  maybeSingle (settings_rows (db w)) = Data s ->
  scan_disabled s = false ->
  all_known b (db w) = true ->
  sales_with_code (db w) code1 = [] ->
  sales_with_code (db w) code2 = [] ->
  code1 <> code2 ->
  accepted 8 (faults w) = true ->
  exists s1 s2 rows1 rows2,
    response first = Ok (json (CodeBody code1) 200)
    /\ response second = Ok (json (CodeBody code2) 200)
    /\ sales (db (world_after second)) = (sales (db w) ++ [s1; s2])%list
    /\ sales_with_code (db (world_after second)) code1 = [s1]
    /\ sales_with_code (db (world_after second)) code2 = [s2]
    /\ sale_items (db (world_after second)) = (sale_items (db w) ++ rows1 ++ rows2)%list
    /\ Forall (fun r => sale_id r = id s1) rows1
    /\ Forall (fun r => sale_id r = id s2) rows2
    /\ map product_id rows1 = map pid (parse_items b)
    /\ map product_id rows2 = map pid (parse_items b)
    /\ map qty rows1 = map SaleItemInput.qty (parse_items b)
    /\ map qty rows2 = map SaleItemInput.qty (parse_items b).
Proof.
  intros first second code1 code2 Hne Hs Hd Hk Hc1 Hc2 Hdiff Hacc.
  set (row := scan_row (parse_payment_method b) (parse_momo_reference b)).
  destruct (payload_known b (db w) (next_id (db w)) Hk) as [rows1 Hb1].
  destruct (payload_known b (db w) (next_id (db w) + 1) Hk) as [rows2 Hb2].
  pose proof (accepted_le 2 8 ltac:(lia) _ Hacc) as A1.
  pose proof (accepted_le 2 6 ltac:(lia) _ (accepted_skipn 2 6 _ Hacc)) as A2.
  pose proof (accepted_skipn 4 4 _ Hacc) as A3.
  assert (E1 : first =
            (Ok (json (CodeBody (genCode (random w (draws w + 0)%nat))) 200),
             committed row rows1 0 (tl (tl (skipn 2 (faults w))))
               (called (SelectProducts (ids_of b)) (called SelectSettings w)))).
  { exact (scan_create_commits b w s [] (skipn 2 (faults w)) rows1
             Hne Hs Hd (List.Forall_nil _) ltac:(simpl; unfold MAX_ATTEMPTS; lia)
             A1 eq_refl A2 Hb1). }
  set (w1 := committed row rows1 0 (tl (tl (skipn 2 (faults w))))
               (called (SelectProducts (ids_of b)) (called SelectSettings w))) in E1.
  assert (F1 : faults w1 = skipn 4 (faults w)).
  { subst w1. cbn [committed faults]. rewrite <- skipn_2, skipn_skipn. reflexivity. }
  assert (E2 : scan_create_POST b w1 =
            (Ok (json (CodeBody (genCode (random w1 (draws w1 + 0)%nat))) 200),
             committed row rows2 0 (tl (tl (skipn 2 (faults w1))))
               (called (SelectProducts (ids_of b)) (called SelectSettings w1)))).
  { apply (scan_create_commits b w1 s [] (skipn 2 (faults w1)) rows2
             Hne Hs Hd (List.Forall_nil _) ltac:(simpl; unfold MAX_ATTEMPTS; lia)).
    - rewrite F1. apply (accepted_le 2 4); [lia|exact A3].
    - reflexivity.
    - rewrite F1. apply (accepted_skipn 2 2). exact A3.
    - exact Hb2. }
  subst second. rewrite E1. cbn [world_after snd response fst]. rewrite E2.
  unfold world_after, response. cbn [fst snd].
  exists (new_sale (db w) (row code1)), (new_sale (db w1) (row code2)), rows1, rows2.
  apply build_payload_Ok_map in Hb1, Hb2.
  destruct Hb1 as (M1 & Q1 & G1). destruct Hb2 as (M2 & Q2 & G2).
  assert (S : sales (db (committed row rows2 0 (tl (tl (skipn 2 (faults w1))))
                           (called (SelectProducts (ids_of b)) (called SelectSettings w1))))
              = (sales (db w) ++ [new_sale (db w) (row code1); new_sale (db w1) (row code2)])%list).
  { clear F1 E1 E2. subst w1 code1 code2.
    cbn [committed called db random draws sales].
    rewrite ?Nat.add_0_r, <- ?app_assoc. reflexivity. }
  assert (W : forall c,
             sales_with_code (db w) c = [] ->
             sales_with_code
               (db (committed row rows2 0 (tl (tl (skipn 2 (faults w1))))
                      (called (SelectProducts (ids_of b)) (called SelectSettings w1)))) c
             = List.filter (fun x => String.eqb (public_code x) c)
                 [new_sale (db w) (row code1); new_sale (db w1) (row code2)]).
  { intros c Hc. unfold sales_with_code in *. rewrite S, List.filter_app, Hc. reflexivity. }
  split.
  { subst code1. rewrite Nat.add_0_r. reflexivity. }
  split.
  { clear F1 E1 E2. subst w1 code2. cbn [committed called random draws].
    rewrite ?Nat.add_0_r. reflexivity. }
  split; [exact S|].
  split.
  { rewrite (W code1 Hc1). cbn [List.filter new_sale public_code row scan_row ins_public_code].
    rewrite String.eqb_refl.
    destruct (String.eqb_spec code2 code1) as [E|_]; [|reflexivity].
    exfalso. apply Hdiff. symmetry. exact E. }
  split.
  { rewrite (W code2 Hc2). cbn [List.filter new_sale public_code row scan_row ins_public_code].
    rewrite String.eqb_refl.
    destruct (String.eqb_spec code1 code2) as [E|_]; [|reflexivity].
    exfalso. exact (Hdiff E). }
  split.
  { clear F1 E1 E2 S W. subst w1.
    cbn [committed called db sale_items]. rewrite <- ?app_assoc. reflexivity. }
  split; [exact G1|].
  split.
  { clear F1 E1 E2 S W. subst w1. cbn [new_sale id committed called db next_id]. exact G2. }
  split; [exact M1|]. split; [exact M2|]. split; [exact Q1|exact Q2].
Qed.

(** ** Staff e-mail addresses *)

Lemma is_space_lower (c : ascii) : is_space (lower_char c) = is_space c.
Proof. destruct c as [[] [] [] [] [] [] [] []]; reflexivity. Qed.

Lemma lower_lower (c : ascii) : lower_char (lower_char c) = lower_char c.
Proof. destruct c as [[] [] [] [] [] [] [] []]; reflexivity. Qed.

Lemma lower_upper (c : ascii) : lower_char (upper_char c) = lower_char c.
Proof. destruct c as [[] [] [] [] [] [] [] []]; reflexivity. Qed.

Lemma remove_spaces_app (a b : string) :
  remove_spaces (a ++ b) = remove_spaces a ++ remove_spaces b.
Proof.
  induction a as [|c a IH]; [reflexivity|].
  rewrite append_cons. cbn [remove_spaces].
  destruct (is_space c); [exact IH|]. rewrite append_cons, IH. reflexivity.
Qed.

Lemma append_empty_r (s : string) : s ++ EmptyString = s.
Proof. induction s as [|c s IH]; [reflexivity|]. rewrite append_cons, IH. reflexivity. Qed.

Lemma remove_spaces_rev (s : string) :
  remove_spaces (String.rev s) = String.rev (remove_spaces s).
Proof.
  induction s as [|c s IH]; [reflexivity|].
  rewrite rev_cons, remove_spaces_app, IH. cbn [remove_spaces].
  destruct (is_space c).
  - apply append_empty_r.
  - rewrite rev_cons. reflexivity.
Qed.

Lemma remove_spaces_trimStart (s : string) : remove_spaces (trimStart s) = remove_spaces s.
Proof.
  induction s as [|c s IH]; [reflexivity|].
  cbn [trimStart remove_spaces]. destruct (is_space c) eqn:E; [exact IH|].
  cbn [remove_spaces]. rewrite E. reflexivity.
Qed.

Lemma remove_spaces_trim (s : string) : remove_spaces (trim s) = remove_spaces s.
Proof.
  unfold trim, trimEnd.
  rewrite remove_spaces_rev, remove_spaces_trimStart, remove_spaces_rev, rev_rev.
  apply remove_spaces_trimStart.
Qed.

Lemma remove_spaces_lower (s : string) :
  remove_spaces (toLowerCase s) = toLowerCase (remove_spaces s).
Proof.
  unfold toLowerCase. induction s as [|c s IH]; [reflexivity|].
  cbn [map_chars remove_spaces]. rewrite is_space_lower.
  destruct (is_space c); [exact IH|]. cbn [map_chars]. rewrite IH. reflexivity.
Qed.

Lemma remove_spaces_clean (s : string) : no_space (remove_spaces s) = true.
Proof.
  induction s as [|c s IH]; [reflexivity|].
  cbn [remove_spaces]. destruct (is_space c) eqn:E; [exact IH|].
  cbn [no_space]. rewrite E, IH. reflexivity.
Qed.

Lemma toLowerCase_idem (s : string) : toLowerCase (toLowerCase s) = toLowerCase s.
Proof.
  unfold toLowerCase. induction s as [|c s IH]; [reflexivity|].
  cbn [map_chars]. rewrite lower_lower, IH. reflexivity.
Qed.

Lemma toLowerCase_upper (s : string) : toLowerCase (toUpperCase s) = toLowerCase s.
Proof.
  unfold toLowerCase, toUpperCase. induction s as [|c s IH]; [reflexivity|].
  cbn [map_chars]. rewrite lower_upper, IH. reflexivity.
Qed.

Lemma toLowerCase_app (a b : string) :
  toLowerCase (a ++ b) = toLowerCase a ++ toLowerCase b.
Proof.
  unfold toLowerCase. induction a as [|c a IH]; [reflexivity|].
  rewrite append_cons. cbn [map_chars]. rewrite append_cons, IH. reflexivity.
Qed.

Lemma is_ascii_lower (c : ascii) : is_ascii (lower_char c) = is_ascii c.
Proof. destruct c as [[] [] [] [] [] [] [] []]; reflexivity. Qed.

Lemma is_ascii_upper (c : ascii) : is_ascii (upper_char c) = is_ascii c.
Proof. destruct c as [[] [] [] [] [] [] [] []]; reflexivity. Qed.

Lemma is_space_ascii (c : ascii) : is_space c = true -> is_ascii c = true.
Proof. destruct c as [[] [] [] [] [] [] [] []]; intros H; try reflexivity; discriminate H. Qed.

Lemma ascii_only_lower (s : string) : ascii_only (toLowerCase s) = ascii_only s.
Proof.
  unfold toLowerCase. induction s as [|c s IH]; [reflexivity|].
  cbn [map_chars ascii_only]. rewrite is_ascii_lower, IH. reflexivity.
Qed.

Lemma ascii_only_upper (s : string) : ascii_only (toUpperCase s) = ascii_only s.
Proof.
  unfold toUpperCase. induction s as [|c s IH]; [reflexivity|].
  cbn [map_chars ascii_only]. rewrite is_ascii_upper, IH. reflexivity.
Qed.

Lemma ascii_only_app (a b : string) :
  ascii_only (a ++ b) = ascii_only a && ascii_only b.
Proof.
  induction a as [|c a IH]; [reflexivity|].
  rewrite append_cons. cbn [ascii_only]. rewrite IH, andb_assoc. reflexivity.
Qed.

Lemma ascii_only_remove_spaces (s : string) :
  ascii_only s = true -> ascii_only (remove_spaces s) = true.
Proof.
  induction s as [|c s IH]; [reflexivity|].
  cbn [ascii_only remove_spaces]. intros H. apply andb_true_iff in H.
  destruct H as [Hc Hs]. destruct (is_space c); [exact (IH Hs)|].
  cbn [ascii_only]. rewrite Hc. exact (IH Hs).
Qed.

Lemma staffEmail_normal (u : string) :
  ascii_only u = true ->
  staffEmailFromUsername u = Some (toLowerCase (remove_spaces u) ++ "@staff.local").
Proof.
  intros H. unfold staffEmailFromUsername. rewrite H.
  rewrite remove_spaces_lower, remove_spaces_trim. reflexivity.
Qed.

(** X23.  For a username of ASCII characters, the e-mail address is its
    letters in lower case, without any white space, followed by
    [@staff.local]: the part before the [@] has no white space and no
    upper-case letter, and such user names that differ in the case of
    letters or in white space, anywhere, have the same address. *)
Theorem staffEmail_ignores_case_and_spaces (u : string) :
  ascii_only u = true ->
  (exists l,
     staffEmailFromUsername u = Some (l ++ "@staff.local")
     /\ l = toLowerCase (remove_spaces u)
     /\ ascii_only l = true
     /\ no_space l = true
     /\ toLowerCase l = l)
  /\ staffEmailFromUsername (toUpperCase u) = staffEmailFromUsername u
  /\ staffEmailFromUsername (toLowerCase u) = staffEmailFromUsername u
  /\ (forall a b c, is_space c = true -> u = a ++ b ->
        staffEmailFromUsername (a ++ String c b) = staffEmailFromUsername u).
Proof.
  intros Hu.
  split.
  { exists (toLowerCase (remove_spaces u)).
    split; [apply staffEmail_normal; exact Hu|]. split; [reflexivity|].
    split; [rewrite ascii_only_lower; apply ascii_only_remove_spaces; exact Hu|].
    split; [|apply toLowerCase_idem].
    rewrite <- remove_spaces_lower. apply remove_spaces_clean. }
  split.
  { rewrite !staffEmail_normal by (rewrite ?ascii_only_upper; exact Hu).
    rewrite <- !remove_spaces_lower, toLowerCase_upper. reflexivity. }
  split.
  { rewrite !staffEmail_normal by (rewrite ?ascii_only_lower; exact Hu).
    rewrite <- !remove_spaces_lower, toLowerCase_idem. reflexivity. }
  intros a b c Hc E.
  assert (Hu' : ascii_only (a ++ String c b) = true).
  { rewrite E, ascii_only_app in Hu. apply andb_true_iff in Hu. destruct Hu as [Ha Hb].
    rewrite ascii_only_app. cbn [ascii_only].
    rewrite Ha, Hb, (is_space_ascii c Hc). reflexivity. }
  rewrite (staffEmail_normal _ Hu'), (staffEmail_normal _ Hu), E, !remove_spaces_app.
  cbn [remove_spaces]. rewrite Hc. reflexivity.
Qed.

(** ** The theorems at concrete inputs *)

Lemma scan_create_then_lookup_witness :
  let w := Sample.world (Sample.shop true) [None; None; Some Sample.collision] in
  let created := scan_create_POST Sample.two_apples w in
  response created = Ok (json (CodeBody (genCode Sample.half)) 200)
  /\ exists sale items,
       response (scan_lookup_GET (Some (genCode Sample.half)) (world_after created)) =
         Ok (json (LookupBody (genCode Sample.half) "PENDING" "PENDING" false sale items) 200)
       /\ map (fun r => (product_id (fst r), qty (fst r))) items = [("A", of_Z 2)].
Proof.
  intros w created.
  assert (U : unit_interval Sample.half) by (repeat split).
  destruct (scan_create_then_lookup Sample.two_apples w (Some (Sample.settings true))
              [Sample.collision] []
              ltac:(discriminate) eq_refl eq_refl eq_refl
              ltac:(repeat constructor)
              ltac:(unfold MAX_ATTEMPTS; simpl; lia)
              eq_refl eq_refl eq_refl U eq_refl (List.Forall_nil _))
    as (R & items & L & _ & E).
  split; [exact R|]. eexists _, items. split; [exact L|exact E].
Defined.

Lemma manual_sale_is_final_witness :
  let w := Sample.world (Sample.shop true) [] in
  let created := pos_create_POST (Some "staff-1") Sample.two_apples w in
  response created = Ok (json (CodeBody (genCode Sample.half)) 200)
  /\ response (scan_lookup_GET (Some (genCode Sample.half)) (world_after created))
     = Ok NOT_SCAN_CHECKOUT
  /\ response (scan_confirm_POST (Some "staff-2") (Some (genCode Sample.half))
                 (world_after created))
     = Ok NOT_SCAN_SOURCE.
Proof.
  intros w created.
  assert (U : unit_interval Sample.half) by (repeat split).
  destruct (manual_sale_is_final (Some "staff-1") (Some "staff-2") Sample.two_apples w
              [] []
              eq_refl eq_refl ltac:(discriminate) eq_refl (List.Forall_nil _)
              ltac:(unfold MAX_ATTEMPTS; simpl; lia)
              eq_refl eq_refl eq_refl U eq_refl)
    as (R & _ & _ & _ & _ & L & C & _).
  split; [exact R|]. split; [exact L|exact C].
Defined.

Lemma items_insert_failure_witness :
  let w := Sample.world (Sample.shop true) [None; None; None; Some Sample.outage] in
  response (scan_create_POST Sample.two_apples w) = Ok (ITEMS_INSERT_FAILED Sample.outage)
  /\ length (sales (db (world_after (scan_create_POST Sample.two_apples w)))) = 1%nat
  /\ sale_items (db (world_after (scan_create_POST Sample.two_apples w))) = [].
Proof.
  intros w.
  destruct (items_insert_failure Sample.two_apples w [] Sample.outage []
              ltac:(discriminate) eq_refl (List.Forall_nil _)
              ltac:(unfold MAX_ATTEMPTS; simpl; lia)) as [H _].
  destruct (H (Some (Sample.settings true)) eq_refl eq_refl eq_refl eq_refl)
    as [payload E].
  rewrite E. split; [reflexivity|]. split; reflexivity.
Defined.

Lemma counter_flow_witness :
  sales_with_code (db Sample.after_scan) (trim (str_or (Some " 550000 ") ""))
    = [Sample.scan_sale]
  /\ response (scan_confirm_POST (Some "staff-1") (Some "550000")
                 (world_after (scan_lookup_GET (Some " 550000 ") Sample.after_scan)))
     = Ok (json OkBody 200)
  /\ exists s' items,
       response
         (scan_lookup_GET (Some " 550000 ")
            (world_after
               (scan_confirm_POST (Some "staff-1") (Some "550000")
                  (world_after (scan_lookup_GET (Some " 550000 ") Sample.after_scan)))))
       = Ok (json (LookupBody "550000" "CONFIRMED" "PAID" true s' items) 200).
Proof.
  destruct (counter_flow (Some "staff-1") (Some " 550000 ") Sample.after_scan
              Sample.scan_sale
              eq_refl ltac:(simpl; lia) eq_refl eq_refl eq_refl eq_refl)
    as (_ & C & L & _).
  split; [reflexivity|]. split; [exact C|]. eexists _, _. exact L.
Defined.

Lemma confirm_succeeds_iff_witness :
  response (scan_confirm_POST (Some "staff-1") (Some "550000") Sample.after_scan)
    = Ok (json OkBody 200)
  /\ db (world_after (scan_confirm_POST (Some "staff-2") (Some "550000") Sample.confirmed))
     = db Sample.confirmed.
Proof.
  split.
  - apply (proj1 (confirm_succeeds_iff (Some "staff-1") (Some "550000") Sample.after_scan)).
    repeat (split; [reflexivity|]). exists Sample.scan_sale.
    split; [reflexivity|]. split; reflexivity.
  - apply (proj2 (confirm_succeeds_iff (Some "staff-2") (Some "550000") Sample.confirmed)).
    discriminate.
Defined.

Lemma statuses_stay_coherent_witness :
  Forall (fun r => coherent r = true) (sales (db Sample.after_scan))
  /\ Forall (fun r => coherent r = true)
       (sales (db (world_after
                     (pos_confirm_scan_POST (Some "staff-1") (Some "550000")
                        Sample.after_scan)))).
Proof.
  assert (H : Forall (fun r => coherent r = true) (sales (db Sample.after_scan)))
    by (repeat constructor).
  split; [exact H|].
  destruct (statuses_stay_coherent Sample.after_scan H) as (_ & _ & _ & _ & P).
  apply P.
Defined.

Lemma tick_follows_paid_witness :
  Forall (fun r => coherent r = true) (sales (db Sample.confirmed))
  /\ exists r,
       response (scan_lookup_GET (Some "550000") Sample.confirmed) = Ok r
       /\ tick r = StatePaid.
Proof.
  assert (H : Forall (fun r => coherent r = true) (sales (db Sample.confirmed)))
    by (repeat constructor).
  split; [exact H|].
  destruct (tick_follows_paid (Some "550000") Sample.confirmed H) as (r & E & T).
  exists r. split; [exact E|].
  assert (E' : response (scan_lookup_GET (Some "550000") Sample.confirmed)
               = Ok (json (LookupBody "550000" "CONFIRMED" "PAID" true
                             Sample.confirmed_sale
                             (items_of (db Sample.confirmed) Sample.confirmed_sale)) 200))
    by reflexivity.
  rewrite E' in E. injection E as <-. exact T.
Defined.

Lemma rejected_before_storage_witness :
  pos_create_POST None Sample.two_apples Sample.after_scan
    = (Ok UNAUTHORIZED, Sample.after_scan)
  /\ scan_lookup_GET (Some " 55 ") Sample.after_scan = (Ok INVALID_CODE, Sample.after_scan).
Proof.
  destruct (rejected_before_storage Sample.after_scan) as (H1 & _ & _ & H4 & _).
  split.
  - exact (H1 None Sample.two_apples eq_refl).
  - apply (H4 (Some " 55 ")). simpl. lia.
Defined.

Lemma parse_items_keeps_clean_witness :
  Forall clean_item [Sample.item "A" (of_Z 2); Sample.item "A" (of_Z 1)]
  /\ parse_items (with_items Sample.mixed [Sample.item "A" (of_Z 2); Sample.item "A" (of_Z 1)])
     = [Sample.item "A" (of_Z 2); Sample.item "A" (of_Z 1)].
Proof.
  assert (H : Forall clean_item [Sample.item "A" (of_Z 2); Sample.item "A" (of_Z 1)])
    by (repeat constructor).
  split; [exact H|].
  destruct (parse_items_keeps_clean Sample.mixed) as (_ & P & _).
  exact (P _ H).
Defined.

Lemma ids_of_each_once_witness :
  In "A" (ids_of (Sample.cart [Sample.item "A" (of_Z 2); Sample.item " A" (of_Z 1)]))
  /\ length (ids_of (Sample.cart [Sample.item "A" (of_Z 2); Sample.item " A" (of_Z 1)]))
     = 1%nat.
Proof.
  destruct (ids_of_each_once
              (Sample.cart [Sample.item "A" (of_Z 2); Sample.item " A" (of_Z 1)]))
    as [_ H].
  split; [|reflexivity].
  apply H. exists (Sample.item "A" (of_Z 2)). split; [left; reflexivity|reflexivity].
Defined.

Lemma pos_confirm_scan_is_unguarded_witness :
  sales_with_code (db Sample.after_manual) (trim (str_or (Some "550000") ""))
    = [Sample.manual_sale]
  /\ response (pos_confirm_scan_POST (Some "staff-2") (Some "550000") Sample.after_manual)
     = Ok (json (ConfirmedBody 1 "550000") 200)
  /\ sales_with_code
       (db (world_after
              (pos_confirm_scan_POST (Some "staff-2") (Some "550000") Sample.after_manual)))
       "550000"
     = [apply_update (pos_confirmation "staff-2") Sample.manual_sale].
Proof.
  destruct (pos_confirm_scan_is_unguarded "staff-2" (Some "550000") Sample.after_manual
              eq_refl eq_refl) as [H _].
  destruct (H Sample.manual_sale eq_refl) as (R & _ & S).
  split; [reflexivity|]. split; [exact R|exact S].
Defined.

Lemma submission_is_read_back_witness :
  let apple := {| pp_id := "A"; pp_name := "Apple"; pp_price := of_Z 10;
                  pp_sku := None |} in
  let cart := add_to_cart apple [] in
  exists b,
    submission MOMO " 0244 " cart = Request b
    /\ parse_payment_method b = "MOMO"
    /\ parse_momo_reference b = Some "0244"
    /\ body_items b = Some [Sample.item "A" (of_Z 1)].
Proof.
  intros apple cart. eexists. split; [reflexivity|].
  match goal with
  | |- parse_payment_method ?b = _ /\ _ =>
      destruct (submission_is_read_back MOMO " 0244 " cart b eq_refl)
        as (P & M & I & _)
  end.
  split; [exact P|]. split; [exact M|exact I].
Defined.

Lemma cart_lines_after_witness :
  let apple := {| pp_id := "A"; pp_name := "Apple"; pp_price := of_Z 10;
                  pp_sku := None |} in
  let pear := {| pp_id := "P"; pp_name := "Pear"; pp_price := of_Z 4;
                 pp_sku := None |} in
  cart_get "A" (add_to_cart pear (add_to_cart apple [])) =
    cart_get "A" (add_to_cart apple [])
  /\ cart_get "P" (removeItem "P" (add_to_cart pear (add_to_cart apple []))) = None.
Proof.
  intros apple pear. split.
  - destruct (cart_lines_after (add_to_cart apple [])) as (H & _ & _).
    destruct (H pear) as [_ H']. apply (H' "A"). discriminate.
  - destruct (cart_lines_after (add_to_cart pear (add_to_cart apple []))) as (_ & _ & H).
    destruct (H "P") as [H' _]. exact H'.
Defined.

Lemma cart_stays_ok_witness :
  let apple := {| pp_id := "A"; pp_name := "Apple"; pp_price := of_Z 10;
                  pp_sku := None |} in
  let cart := add_to_cart apple (add_to_cart apple []) in
  op_ok (OpSetQty "A" (of_Z 3)) cart
  /\ cart_ok (setQty "A" (of_Z 3) cart).
Proof.
  intros apple cart. destruct cart_stays_ok as [E S].
  assert (O : op_ok (OpSetQty "A" (of_Z 3)) cart).
  { split; [vm_compute; discriminate|]. split; [discriminate|]. right. discriminate. }
  split; [exact O|].
  apply (S (OpSetQty "A" (of_Z 3)) cart); [|exact O].
  apply (S (OpAdd apple) (add_to_cart apple [])); [|exact I].
  apply (S (OpAdd apple) []); [exact E|exact I].
Defined.

Lemma cart_is_sent_witness :
  let apple := {| pp_id := "A"; pp_name := "Apple"; pp_price := of_Z 10;
                  pp_sku := None |} in
  let cart := [("A", {| cart_product := Some apple; cart_qty := of_Z 2 |})] in
  cart_ok cart
  /\ exists b,
       submission CASH "" cart = Request b
       /\ body_items b = Some [Sample.item "A" (of_Z 2)].
Proof.
  intros apple cart.
  assert (H : cart_ok cart).
  { split; [repeat constructor; intros []|].
    repeat constructor. exists apple. split; [reflexivity|]. split; [reflexivity|].
    split; [reflexivity|vm_compute; discriminate]. }
  split; [exact H|].
  destruct (cart_is_sent CASH "" cart H ltac:(discriminate)) as [(b & E & I) _].
  exists b. split; [exact E|exact I].
Defined.

Lemma setQty_of_absent_line_witness :
  cart_get "A" [] = None
  /\ SFleb (of_Z 2) zero = false
  /\ submission CASH "" (setQty "A" (of_Z 2) []) = PageError.
Proof.
  split; [reflexivity|]. split; [reflexivity|].
  destruct (setQty_of_absent_line CASH "" "A" (of_Z 2) [] ltac:(discriminate)
              eq_refl eq_refl) as [_ H].
  exact H.
Defined.

(** Two apples, sent twice, in a shop where the first draw gives the code
    550000 and the second the code 100000. *)
Lemma create_twice_creates_two_witness :
  let w := {| db := Sample.shop true; faults := [];
              random := fun n => match n with O => Sample.half | S _ => zero end;
              draws := 0; trace := [] |} in
  let twice := world_after
                 (scan_create_POST Sample.two_apples
                    (world_after (scan_create_POST Sample.two_apples w))) in
  genCode Sample.half <> genCode zero
  /\ exists s1 s2,
       sales (db twice) = [s1; s2]
       /\ sales_with_code (db twice) (genCode Sample.half) = [s1]
       /\ sales_with_code (db twice) (genCode zero) = [s2]
       /\ length (sale_items (db twice)) = 2%nat.
Proof.
  intros w twice.
  assert (D : genCode Sample.half <> genCode zero).
  { intros H. vm_compute in H. discriminate H. }
  split; [exact D|].
  destruct (create_twice_creates_two Sample.two_apples w (Some (Sample.settings true))
              ltac:(discriminate) eq_refl eq_refl eq_refl eq_refl eq_refl D eq_refl)
    as (s1 & s2 & r1 & r2 & _ & _ & S & K1 & K2 & I & _ & _ & M1 & M2 & _).
  exists s1, s2. split; [exact S|]. split; [exact K1|]. split; [exact K2|].
  fold twice in I. rewrite I. cbn [app sale_items db w Sample.shop].
  rewrite length_app, <- (length_map product_id r1), <- (length_map product_id r2), M1, M2.
  reflexivity.
Defined.

Lemma create_success_is_complete_witness :
  let w := Sample.world (Sample.shop true) [] in
  is_success (response (scan_create_POST Sample.two_apples w))
  /\ exists s new,
       sale_added s new (db w) (db (world_after (scan_create_POST Sample.two_apples w)))
       /\ length new = 1%nat.
Proof.
  intros w.
  assert (S : is_success (response (scan_create_POST Sample.two_apples w)))
    by (eexists; reflexivity).
  split; [exact S|].
  destruct (create_success_is_complete Sample.two_apples w) as [[H _] _].
  destruct (H S) as (s & new & _ & A & _ & _ & L & _).
  exists s, new. split; [exact A|exact L].
Defined.

Lemma staffEmail_ignores_case_and_spaces_witness :
  ascii_only "AmaK" = true
  /\ staffEmailFromUsername " Ama  K " = Some "amak@staff.local"
  /\ staffEmailFromUsername "AMAK" = staffEmailFromUsername "AmaK"
  /\ staffEmailFromUsername ("Ama" ++ String " " "K") = staffEmailFromUsername "AmaK".
Proof.
  split; [reflexivity|]. split; [reflexivity|].
  destruct (staffEmail_ignores_case_and_spaces "AmaK" eq_refl) as (_ & U & _ & H).
  split; [exact U|].
  exact (H "Ama" "K" " "%char eq_refl eq_refl).
Defined.

Lemma cart_reaches_the_till_witness :
  let apple := {| pp_id := "A"; pp_name := "Apple"; pp_price := of_Z 10;
                  pp_sku := None |} in
  let cart := [("A", {| cart_product := Some apple; cart_qty := of_Z 2 |})] in
  let w := Sample.world (Sample.shop true) [] in
  cart_ok cart
  /\ exists b sale items,
       submission CASH "" cart = Request b
       /\ response (scan_lookup_GET (Some (genCode Sample.half))
                      (world_after (scan_create_POST b w))) =
            Ok (json (LookupBody (genCode Sample.half) "PENDING" "PENDING" false
                        sale items) 200)
       /\ map (fun r => (product_id (fst r), qty (fst r))) items = [("A", of_Z 2)].
Proof.
  intros apple cart w.
  assert (H : cart_ok cart).
  { split; [repeat constructor; intros []|].
    repeat constructor. exists apple. split; [reflexivity|]. split; [reflexivity|].
    split; [reflexivity|vm_compute; discriminate]. }
  assert (C : Forall clean_item (map line_of (Object_values cart)))
    by (repeat constructor).
  assert (U : unit_interval Sample.half) by (repeat split).
  split; [exact H|].
  destruct (cart_reaches_the_till CASH "" cart w (Some (Sample.settings true)) [] []
              H ltac:(discriminate) C) as (b & Hb & T).
  set (b0 := {| body_payment_method := Some "CASH"; body_momo_reference := None;
                body_items := Some [Sample.item "A" (of_Z 2)] |}).
  assert (E : submission CASH "" cart = Request b0) by reflexivity.
  rewrite E in Hb. injection Hb as <-.
  destruct (T eq_refl eq_refl eq_refl (List.Forall_nil _)
              ltac:(unfold MAX_ATTEMPTS; simpl; lia)
              eq_refl eq_refl eq_refl U eq_refl (List.Forall_nil _))
    as (_ & sale & items & L & _ & M & _).
  exists b0, sale, items. split; [reflexivity|]. split; [exact L|exact M].
Defined.
